(** * Document Conversion Assistant: conversion pipeline and batch orchestration

    A shallow embedding of [src/final-test/src/index.ts] (class
    [DocumentConverter] and the tool handlers [get_document_info] and
    [batch_convert]) together with the properties of the natural-language
    specification that concern it.

    Conventions.
    - A JavaScript string is a Rocq [string]; text is held as its UTF-8
      encoding, so a file's bytes and a string share one type and
      [stats.size] is [String.length] of the stored data.  A surrogate
      code unit without its other half, which a JavaScript string may
      hold, is held as the three bytes of its code point.
    - [async]/[await] code is sequential here: every [await] is a bind of the
      monad [M] below, which threads the world (file system and call trace)
      and propagates thrown errors.  A thrown [Error] is its message.
    - Node's [path] module, [fs-extra], [RegExp] and the format codecs are
      external to the repository.  The [path] functions and the file system
      are modelled after their documented POSIX behaviour: a path is
      followed as it is written, component by component, in a tree without
      symbolic links.  The codecs, the UTF-8 decoder, the
      regular-expression engine and the storage device (whether a write
      fails midway) are parameters ([Externals]). *)

From Stdlib Require Import ZArith Ascii String List Bool Lia.
From Stdlib Require Import Numbers.DecimalString.
From stdpp Require Import base option list strings gmap fin_maps.

Local Open Scope string_scope.
Local Open Scope list_scope.

(* ===================================================================== *)
(** * Strings *)
(* ===================================================================== *)

Module Str.

Definition chars (s : string) : list ascii := list_ascii_of_string s.
Definition of_chars (l : list ascii) : string := string_of_list_ascii l.

Definition lower_ascii (c : ascii) : ascii :=
  let n := nat_of_ascii c in
  if (65 <=? n)%nat && (n <=? 90)%nat then ascii_of_nat (n + 32) else c.

(** The three bytes of the Kelvin sign, U+212A. *)
Definition is_kelvin (c1 c2 c3 : ascii) : bool :=
  (nat_of_ascii c1 =? 226)%nat && (nat_of_ascii c2 =? 132)%nat &&
  (nat_of_ascii c3 =? 170)%nat.

(** [String.prototype.toLowerCase].  The ASCII capitals are lowered, and so
    is the Kelvin sign, the one character outside ASCII whose lower case is
    an ASCII letter ([k]).  The other characters outside ASCII are left as
    they are: lowering one of them never gives ASCII text, so whether the
    result equals a given ASCII string, which is all [detectFormat] asks,
    is as in JavaScript. *)
Fixpoint lower_chars (s : list ascii) : list ascii :=
  match s with
  | [] => []
  | c :: tl =>
      match tl with
      | c2 :: c3 :: rest =>
          if is_kelvin c c2 c3 then "k"%char :: lower_chars rest
          else lower_ascii c :: lower_chars tl
      | _ => lower_ascii c :: lower_chars tl
      end
  end.

Definition toLowerCase (s : string) : string :=
  of_chars (lower_chars (chars s)).

(** [s.replace(pat, by)] for a one-character string [pat]: only the first
    occurrence is replaced. *)
Fixpoint replace_first (pat : ascii) (by_ : string) (s : string) : string :=
  match s with
  | EmptyString => EmptyString
  | String c s' =>
      if Ascii.eqb c pat then by_ +:+ s' else String c (replace_first pat by_ s')
  end.

(** [s.replace(/\n/g, by)]: every line feed is replaced. *)
Fixpoint replace_all (pat : ascii) (by_ : string) (s : string) : string :=
  match s with
  | EmptyString => EmptyString
  | String c s' =>
      if Ascii.eqb c pat then by_ +:+ replace_all pat by_ s'
      else String c (replace_all pat by_ s')
  end.

(** [lines.join(sep)]. *)
Fixpoint join (sep : string) (l : list string) : string :=
  match l with
  | [] => ""
  | [x] => x
  | x :: rest => x +:+ sep +:+ join sep rest
  end.

(** Template-literal rendering of an integer ([`${n}`]). *)
Definition of_Z (z : Z) : string := NilZero.string_of_int (Z.to_int z).
Definition of_nat (n : nat) : string := of_Z (Z.of_nat n).

(** JavaScript truthiness of an optional string: [undefined] and the empty
    string are falsy. *)
Definition truthy (o : option string) : option string :=
  match o with
  | Some s => if String.eqb s "" then None else Some s
  | None => None
  end.

End Str.

(* ===================================================================== *)
(** * Node's [path] module (POSIX flavour) *)
(* ===================================================================== *)

Module Path.

Definition slash : ascii := "/"%char.
Definition dot : ascii := "."%char.

(** The pieces of a path between slashes; [segments "a//b/" = [a; ; b; ]]. *)
Fixpoint segments_of (s : list ascii) : list (list ascii) :=
  match s with
  | [] => [[]]
  | c :: s' =>
      if Ascii.eqb c slash then [] :: segments_of s'
      else match segments_of s' with
           | seg :: segs => (c :: seg) :: segs
           | [] => [[c]]
           end
  end.

Definition segments (p : string) : list string :=
  map Str.of_chars (segments_of (Str.chars p)).

(** One step of Node's [normalizeString]: empty and [.] segments are
    dropped, [..] removes the previous segment unless there is none or it
    is itself [..] (then it is kept when [allowAboveRoot]), anything else
    is appended.  The stack is kept with its last segment first. *)
Definition norm_step (allowAboveRoot : bool) (stk : list string) (seg : string)
  : list string :=
  if String.eqb seg "" || String.eqb seg "." then stk
  else if String.eqb seg ".." then
    match stk with
    | top :: rest =>
        if String.eqb top ".." then (if allowAboveRoot then ".." :: stk else stk)
        else rest
    | [] => if allowAboveRoot then [".."] else []
    end
  else seg :: stk.

Definition normalizeString (allowAboveRoot : bool) (p : string) : list string :=
  rev (fold_left (norm_step allowAboveRoot) (segments p) []).

Definition isAbsolute (p : string) : bool :=
  match p with
  | String c _ => Ascii.eqb c slash
  | EmptyString => false
  end.

Definition endsWithSlash (p : string) : bool :=
  match rev (Str.chars p) with
  | c :: _ => Ascii.eqb c slash
  | [] => false
  end.

(** [path.normalize]. *)
Definition normalize (p : string) : string :=
  if String.eqb p "" then "."
  else
    let abs := isAbsolute p in
    let trailing := endsWithSlash p in
    let body := Str.join "/" (normalizeString (negb abs) p) in
    if String.eqb body "" then
      (if abs then "/" else if trailing then "./" else ".")
    else
      (if abs then "/" else "") +:+ body +:+ (if trailing then "/" else "").

(** [path.join(a, b)]: the non-empty arguments joined by a slash, then
    normalized. *)
Definition join (a b : string) : string :=
  match a, b with
  | EmptyString, EmptyString => "."
  | EmptyString, _ => normalize b
  | _, EmptyString => normalize a
  | _, _ => normalize (a +:+ "/" +:+ b)
  end.

(** The last non-empty segment of a path (trailing slashes are skipped);
    empty when there is none. *)
Definition lastComponent (p : string) : string :=
  match filter (fun seg => seg <> "") (rev (segments p)) with
  | seg :: _ => seg
  | [] => ""
  end.

(** Position of the last dot of a segment, if any. *)
Fixpoint lastDot (s : list ascii) (i : nat) (found : option nat) : option nat :=
  match s with
  | [] => found
  | c :: s' => lastDot s' (S i) (if Ascii.eqb c dot then Some i else found)
  end.

(** [path.extname]: from the last dot of the last component to its end;
    empty when there is no dot, when the dot is the component's first
    character, or when the component is [..]. *)
Definition extname (p : string) : string :=
  let comp := lastComponent p in
  match lastDot (Str.chars comp) 0 None with
  | None => ""
  | Some 0%nat => ""
  | Some i => if String.eqb comp ".." then "" else Str.of_chars (drop i (Str.chars comp))
  end.

Definition endsWith (s suffix : string) : bool :=
  let n := String.length s in
  let k := String.length suffix in
  (k <=? n)%nat && String.eqb (Str.of_chars (drop (n - k) (Str.chars s))) suffix.

(** [path.basename(p, suffix)]: the last component, with [suffix] removed
    when the component ends with it and is longer than it. *)
Definition basename (p : string) (suffix : string) : string :=
  if String.eqb suffix "" then lastComponent p
  else if String.eqb suffix p then ""
  else
    let comp := lastComponent p in
    if endsWith comp suffix && negb (String.eqb comp suffix)
    then Str.of_chars (take (String.length comp - String.length suffix) (Str.chars comp))
    else comp.

(** A path as the file system sees it: absolute or relative, and its
    normalized segments. *)
Abbreviation key := (bool * list string)%type.

Definition key_of (p : string) : key :=
  (isAbsolute p, normalizeString (negb (isAbsolute p)) p).

Definition parent (k : key) : key := (k.1, removelast k.2).

(** The places a path passes through as it is written: the stack reached
    after each of its components, in order (last segment first).  The path
    [a/../b] passes through [a], the starting directory and [b]; a path
    without [.] and [..] passes through its own prefixes. *)
Fixpoint stacks (allowAboveRoot : bool) (stk : list string) (segs : list string)
  : list (list string) :=
  match segs with
  | [] => []
  | seg :: rest =>
      norm_step allowAboveRoot stk seg
      :: stacks allowAboveRoot (norm_step allowAboveRoot stk seg) rest
  end.

Definition trail (p : string) : list key :=
  map (fun stk => (isAbsolute p, rev stk))
      (stacks (negb (isAbsolute p)) [] (segments p)).

(** [inside dir p]: lexically, [p] names an entry directly inside [dir]. *)
Definition inside (dir p : string) : Prop :=
  exists name, key_of p = ((key_of dir).1, (key_of dir).2 ++ [name]).

End Path.

(* ===================================================================== *)
(** * Errors, the world and the monad of effects *)
(* ===================================================================== *)

(** The outcome of a call that may throw; an [Error] is its message. *)
Inductive result (A : Type) : Type :=
| Ok (a : A)
| Throw (msg : string).
Arguments Ok {A} a.
Arguments Throw {A} msg.

Definition is_ok {A} (r : result A) : bool :=
  match r with Ok _ => true | Throw _ => false end.

(** A file-system node.  A directory carries the size [stat] reports for it
    and the names [readdir] lists, in listing order.  A listed name need not
    have a node: it stands for an entry whose [stat] fails (a dangling
    symbolic link, an entry removed after the listing). *)
Inductive node : Type :=
| File (data : string)
| Dir (size : Z) (entries : list string).

Inductive codec : Type := PdfParse | Mammoth | Jsdom | Marked | Turndown | HtmlPdf.

(** Calls made to the outside, in order (ghost instrumentation). *)
Inductive event : Type :=
| EvStat (p : string)
| EvReadFile (p : string)
| EvReaddir (p : string)
| EvEnsureDir (p : string)
| EvWriteFile (p data : string)
| EvCodec (c : codec).

Record world : Type := World {
  fs : gmap Path.key node;
  trace : list event
}.

Definition M (A : Type) : Type := world -> result A * world.

Definition ret {A} (a : A) : M A := fun w => (Ok a, w).
Definition throw {A} (msg : string) : M A := fun w => (Throw msg, w).

Definition bind {A B} (m : M A) (k : A -> M B) : M B :=
  fun w => match m w with
           | (Ok a, w') => k a w'
           | (Throw e, w') => (Throw e, w')
           end.

(** [try { m } catch (error) { h error.message }] *)
Definition try_catch {A} (m : M A) (h : string -> M A) : M A :=
  fun w => match m w with
           | (Ok a, w') => (Ok a, w')
           | (Throw e, w') => h e w'
           end.

(** Runs [m] and hands its outcome to the caller without throwing. *)
Definition attempt {A} (m : M A) : M (result A) :=
  fun w => let '(r, w') := m w in (Ok r, w').

Definition emit (e : event) : M unit :=
  fun w => (Ok tt, World (fs w) (trace w ++ [e])).

Definition lift {A} (r : result A) : M A := fun w => (r, w).

Notation "'let*' x ':=' m 'in' k" := (bind m (fun x => k))
  (at level 10, x pattern, m at level 100, k at level 200).

(* ===================================================================== *)
(** * The file system ([fs-extra]) *)
(* ===================================================================== *)

Record stats : Type := Stats { isFile : bool; size : Z }.

Module Fs.

Inductive lookup_result : Type :=
| Found (n : node)
| Enoent
| Enotdir.

(** Following a path.  The operating system takes a path as it is written,
    component by component: each component is looked up in the directory
    reached so far, which has to exist and to be a directory, so [a/../b]
    leads to [b] only where [a] is a directory.  There are no symbolic
    links, hence the place reached after a component is the one
    [Path.norm_step] computes.  The answer is the stack of the place the
    path leads to (which need not exist), or why it cannot be followed. *)
Inductive walk_result : Type :=
| Reached (stk : list string)
| NoEntry
| NotDir.

Fixpoint walk (m : gmap Path.key node) (abs : bool) (stk : list string)
         (segs : list string) : walk_result :=
  match segs with
  | [] => Reached stk
  | seg :: rest =>
      if String.eqb seg "" then walk m abs stk rest
      else match m !! (abs, rev stk) with
           | Some (Dir _ _) => walk m abs (Path.norm_step (negb abs) stk seg) rest
           | Some (File _) => NotDir
           | None => NoEntry
           end
  end.

Definition follow (m : gmap Path.key node) (p : string) : walk_result :=
  walk m (Path.isAbsolute p) [] (Path.segments p).

(** What a path names.  The empty path names nothing, and a regular file
    is not reached through a path that ends in a slash. *)
Definition resolve (m : gmap Path.key node) (p : string) : lookup_result :=
  if String.eqb p "" then Enoent
  else match follow m p with
       | Reached stk =>
           match m !! (Path.isAbsolute p, rev stk) with
           | Some (File d) => if Path.endsWithSlash p then Enotdir else Found (File d)
           | Some n => Found n
           | None => Enoent
           end
       | NoEntry => Enoent
       | NotDir => Enotdir
       end.

Definition errmsg (code call p : string) : string :=
  code +:+ ", " +:+ call +:+ " '" +:+ p +:+ "'".
Definition enoent := errmsg "ENOENT: no such file or directory".
Definition enotdir := errmsg "ENOTDIR: not a directory".
Definition eisdir := errmsg "EISDIR: illegal operation on a directory".
Definition eexist := errmsg "EEXIST: file already exists".
(** Raised by the read or the write that follows a successful [open]; these
    messages name no path. *)
Definition eisdir_read : string := "EISDIR: illegal operation on a directory, read".
Definition enospc_write : string := "ENOSPC: no space left on device, write".

(** [fs.stat(p)] *)
Definition stat (p : string) : M stats :=
  let* _ := emit (EvStat p) in
  fun w => match resolve (fs w) p with
           | Found (File d) => (Ok (Stats true (Z.of_nat (String.length d))), w)
           | Found (Dir sz _) => (Ok (Stats false sz), w)
           | Enoent => (Throw (enoent "stat" p), w)
           | Enotdir => (Throw (enotdir "stat" p), w)
           end.

(** [fs.readFile(p)]: the bytes of a regular file. *)
Definition readFile (p : string) : M string :=
  let* _ := emit (EvReadFile p) in
  fun w => match resolve (fs w) p with
           | Found (File d) => (Ok d, w)
           | Found (Dir _ _) => (Throw eisdir_read, w)
           | Enoent => (Throw (enoent "open" p), w)
           | Enotdir => (Throw (enotdir "open" p), w)
           end.

(** [fs.readdir(p)]: the names in a directory, in listing order. *)
Definition readdir (p : string) : M (list string) :=
  let* _ := emit (EvReaddir p) in
  fun w => match resolve (fs w) p with
           | Found (Dir _ es) => (Ok es, w)
           | Found (File _) => (Throw (enotdir "scandir" p), w)
           | Enoent => (Throw (enoent "scandir" p), w)
           | Enotdir => (Throw (enotdir "scandir" p), w)
           end.

(** Lists [name] in the directory at [k], when there is one. *)
Definition add_entry (k : Path.key) (name : string) (m : gmap Path.key node)
  : gmap Path.key node :=
  match m !! k with
  | Some (Dir sz es) =>
      if bool_decide (name ∈ es) then m else <[k := Dir sz (es ++ [name])]> m
  | _ => m
  end.

Definition new_dir_size : Z := 4096.

Inductive mkdir_error : Type := MkNoEntry | MkNotDir | MkExists.

(** [mkdir(p, {recursive: true})], which is what [ensureDir] calls: the
    path is followed as it is written and every directory found missing on
    the way is created, so [out/../x] creates [out] as well as [x].  A
    regular file in the way stops it ([EEXIST] when it is what the whole
    path names, [ENOTDIR] otherwise); what was created before that
    stays. *)
Fixpoint mkdirp (m : gmap Path.key node) (abs : bool) (stk : list string)
         (segs : list string) : gmap Path.key node * option mkdir_error :=
  match segs with
  | [] => (m, None)
  | seg :: rest =>
      if String.eqb seg "" then mkdirp m abs stk rest
      else
        match m !! (abs, rev stk) with
        | Some (Dir _ _) =>
            let stk' := Path.norm_step (negb abs) stk seg in
            if String.eqb seg "." || String.eqb seg ".." then mkdirp m abs stk' rest
            else
              match m !! (abs, rev stk') with
              | Some (Dir _ _) => mkdirp m abs stk' rest
              | Some (File _) =>
                  (m, Some (match rest with [] => MkExists | _ => MkNotDir end))
              | None =>
                  mkdirp (add_entry (abs, rev stk) seg
                            (<[(abs, rev stk') := Dir new_dir_size []]> m))
                         abs stk' rest
              end
        | Some (File _) => (m, Some MkNotDir)
        | None => (m, Some MkNoEntry)
        end
  end.

(** [fs.ensureDir(p)] *)
Definition ensureDir (p : string) : M unit :=
  let* _ := emit (EvEnsureDir p) in
  fun w =>
    if String.eqb p "" then (Throw (enoent "mkdir" p), w)
    else
      let made := mkdirp (fs w) (Path.isAbsolute p) [] (Path.segments p) in
      (match made.2 with
       | None => Ok tt
       | Some MkNoEntry => Throw (enoent "mkdir" p)
       | Some MkNotDir => Throw (enotdir "mkdir" p)
       | Some MkExists => Throw (eexist "mkdir" p)
       end, World made.1 (trace w)).

(** [fs.writeFile(p, data)]: opens the file for writing, which creates it
    or empties it, then writes the data.  The directory it goes into must
    exist and is never created.  [fault] is what the device does with the
    data: [None] when it takes all of it, [Some n] when the write fails
    after [n] bytes, which leaves the file with those bytes only. *)
Definition writeFile (fault : option nat) (p data : string) : M unit :=
  let* _ := emit (EvWriteFile p data) in
  fun w =>
    if String.eqb p "" then (Throw (enoent "open" p), w)
    else
      match follow (fs w) p with
      | NoEntry => (Throw (enoent "open" p), w)
      | NotDir => (Throw (enotdir "open" p), w)
      | Reached stk =>
          let k := (Path.isAbsolute p, rev stk) in
          if Path.endsWithSlash p then
            (Throw (match fs w !! k with
                    | Some (File _) => enotdir "open" p
                    | _ => eisdir "open" p
                    end), w)
          else
            match last k.2 with
            | None => (Throw (eisdir "open" p), w)
            | Some name =>
                if String.eqb name ".." then (Throw (eisdir "open" p), w)
                else
                  match fs w !! Path.parent k with
                  | Some (Dir _ _) =>
                      match fs w !! k with
                      | Some (Dir _ _) => (Throw (eisdir "open" p), w)
                      | _ =>
                          let stored :=
                            match fault with
                            | None => data
                            | Some n => Str.of_chars (take n (Str.chars data))
                            end in
                          (match fault with
                           | None => Ok tt
                           | Some _ => Throw enospc_write
                           end,
                           World (add_entry (Path.parent k) name
                                    (<[k := File stored]> (fs w)))
                                 (trace w))
                      end
                  | Some (File _) => (Throw (enotdir "open" p), w)
                  | None => (Throw (enoent "open" p), w)
                  end
            end
      end.

End Fs.

(* ===================================================================== *)
(** * Configuration and external collaborators *)
(* ===================================================================== *)

(** [configSchema] *)
Record config : Type := Config {
  debug : bool;
  max_file_size : Z;
  supported_formats_input : list string;
  supported_formats_output : list string;
  preserve_formatting : bool;
  output_directory : string;
  smithery_api_key : option string
}.

(** The defaults of [configSchema]. *)
Definition default_config : config :=
  {| debug := false;
     max_file_size := 10485760;
     supported_formats_input := ["pdf"; "docx"; "html"; "md"; "txt"];
     supported_formats_output := ["pdf"; "docx"; "html"; "md"; "txt"];
     preserve_formatting := true;
     output_directory := "./converted_documents";
     smithery_api_key := None |}.

Definition set_preserve_formatting (b : bool) (c : config) : config :=
  {| debug := debug c;
     max_file_size := max_file_size c;
     supported_formats_input := supported_formats_input c;
     supported_formats_output := supported_formats_output c;
     preserve_formatting := b;
     output_directory := output_directory c;
     smithery_api_key := smithery_api_key c |}.

(** Format-specific metadata of a document that was read. *)
Inductive metadata : Type :=
| MetaPdf (pages : Z) (info : string)
| MetaDocx (messages : list string)
| MetaHtml (title : string).

Record document : Type := Document {
  content : string;
  format : string;
  doc_metadata : option metadata
}.

(** The options [convertToPDF] passes to the layout engine. *)
Record pdf_options : Type := PdfOptions {
  pdf_format : string;
  margin_top : string; margin_right : string;
  margin_bottom : string; margin_left : string
}.

(** The libraries and the device the converter relies on.  Each call may
    throw. *)
Record Externals : Type := {
  (** [buffer.toString('utf-8')] *)
  utf8_decode : string -> string;
  (** [pdfParse(buffer)]: text, page count, info block *)
  pdfParse : string -> result (string * Z * string);
  (** [mammoth.extractRawText({buffer})]: value and messages *)
  extractRawText : string -> result (string * list string);
  (** [new JSDOM(content)]: the text content of the body, when there is a
      body, and the document title *)
  jsdom : string -> result (option string * string);
  (** [marked(content)] *)
  marked : string -> result string;
  (** [turndownService.turndown(content)] *)
  turndown : string -> result string;
  (** [htmlPdf.generatePdf({content}, options)] *)
  generatePdf : string -> pdf_options -> result string;
  (** [new RegExp(pattern, 'i')], as the predicate [regex.test] *)
  RegExp_i : string -> result (string -> bool);
  (** the text [get_document_info] prints for a document and its size *)
  render_info : document -> stats -> string;
  (** the storage device, asked when data is written at a path: [None]
      when it takes the data, [Some n] when the write fails after [n]
      bytes *)
  write_fault : string -> string -> option nat
}.

(* ===================================================================== *)
(** * class DocumentConverter *)
(* ===================================================================== *)

Section DocumentConverter.

Variable ext : Externals.
Variable cfg : config.

(** A call to a codec: recorded, then its outcome. *)
Definition call {A} (c : codec) (r : result A) : M A :=
  let* _ := emit (EvCodec c) in lift r.

(** [fs.readFile(p, 'utf-8')] *)
Definition readFile_utf8 (p : string) : M string :=
  let* buffer := Fs.readFile p in ret (utf8_decode ext buffer).

(** [fs.writeFile(p, data)] on the device at hand *)
Definition writeFile (p data : string) : M unit :=
  Fs.writeFile (write_fault ext p data) p data.

Definition detectFormat (filePath : string) : string :=
  let ext_ := Str.toLowerCase (Path.extname filePath) in
  if String.eqb ext_ ".pdf" then "pdf"
  else if String.eqb ext_ ".docx" then "docx"
  else if String.eqb ext_ ".html" || String.eqb ext_ ".htm" then "html"
  else if String.eqb ext_ ".md" || String.eqb ext_ ".markdown" then "md"
  else if String.eqb ext_ ".txt" then "txt"
  else "unknown".

Definition readPDF (filePath : string) : M document :=
  let* buffer := Fs.readFile filePath in
  let* data := call PdfParse (pdfParse ext buffer) in
  let '(text, numpages, info) := data in
  ret (Document text "pdf" (Some (MetaPdf numpages info))).

Definition readDOCX (filePath : string) : M document :=
  let* buffer := Fs.readFile filePath in
  let* res := call Mammoth (extractRawText ext buffer) in
  ret (Document res.1 "docx" (Some (MetaDocx res.2))).

Definition readHTML (filePath : string) : M document :=
  let* content := readFile_utf8 filePath in
  let* dom := call Jsdom (jsdom ext content) in
  let textContent :=
    match Str.truthy dom.1 with
    | Some t => t
    | None => content
    end in
  ret (Document textContent "html" (Some (MetaHtml dom.2))).

Definition readMarkdown (filePath : string) : M document :=
  let* content := readFile_utf8 filePath in
  ret (Document content "md" None).

Definition readText (filePath : string) : M document :=
  let* content := readFile_utf8 filePath in
  ret (Document content "txt" None).

Definition size_limit_message : string :=
  "File size exceeds maximum limit of " +:+ Str.of_Z (max_file_size cfg) +:+ " bytes".

(** The [switch (format)] of [readDocument]. *)
Definition decode (format : string) (filePath : string) : M document :=
  if String.eqb format "pdf" then readPDF filePath
  else if String.eqb format "docx" then readDOCX filePath
  else if String.eqb format "html" then readHTML filePath
  else if String.eqb format "md" then readMarkdown filePath
  else if String.eqb format "txt" then readText filePath
  else throw ("Unsupported file format: " +:+ format).

Definition readDocument (filePath : string) : M document :=
  let format := detectFormat filePath in
  let* stats := Fs.stat filePath in
  if (size stats >? max_file_size cfg)%Z then throw size_limit_message
  else decode format filePath.

Definition convertToHTML (content fromFormat : string) : M string :=
  if String.eqb fromFormat "md" then call Marked (marked ext content)
  else if String.eqb fromFormat "txt" then
    ret ("<html><body><pre>" +:+ content +:+ "</pre></body></html>")
  else if String.eqb fromFormat "html" then ret content
  else ret ("<html><body><p>" +:+ Str.replace_all "010"%char "<br>" content
            +:+ "</p></body></html>").

Definition convertToMarkdown (content fromFormat : string) : M string :=
  if String.eqb fromFormat "html" then call Turndown (turndown ext content)
  else if String.eqb fromFormat "md" then ret content
  else ret content.

Definition convertToPDF (content fromFormat outputPath : string) : M string :=
  let* htmlContent :=
    (if String.eqb fromFormat "html" then ret content
     else convertToHTML content fromFormat) in
  let options := PdfOptions "A4" "1in" "1in" "1in" "1in" in
  let* pdfBuffer := call HtmlPdf (generatePdf ext htmlContent options) in
  let* _ := writeFile outputPath pdfBuffer in
  ret outputPath.

Definition includes (l : list string) (x : string) : bool :=
  existsb (String.eqb x) l.

(** [path.basename(inputPath, path.extname(inputPath))] *)
Definition fileName_of (inputPath : string) : string :=
  Path.basename inputPath (Path.extname inputPath).

(** [outputPath || path.join(output_directory, `${fileName}.${outputFormat}`)] *)
Definition finalOutputPath_of (inputPath outputFormat : string)
           (outputPath : option string) : string :=
  match Str.truthy outputPath with
  | Some p => p
  | None =>
      Path.join (output_directory cfg) (fileName_of inputPath +:+ "." +:+ outputFormat)
  end.

Definition not_implemented_message (outputFormat : string) : string :=
  "Conversion to " +:+ outputFormat +:+ " not implemented".

Definition convertDocument (inputPath outputFormat : string)
           (outputPath : option string) : M string :=
  let* document := readDocument inputPath in
  let inputFormat := format document in
  if negb (includes (supported_formats_output cfg) outputFormat)
  then throw ("Unsupported output format: " +:+ outputFormat)
  else
    let* _ := Fs.ensureDir (output_directory cfg) in
    let finalOutputPath := finalOutputPath_of inputPath outputFormat outputPath in
    if String.eqb outputFormat "pdf"
    then convertToPDF (content document) inputFormat finalOutputPath
    else
      let* convertedContent :=
        (if String.eqb outputFormat "html" then
           convertToHTML (content document) inputFormat
         else if String.eqb outputFormat "md" then
           convertToMarkdown (content document) inputFormat
         else if String.eqb outputFormat "txt" then ret (content document)
         else throw (not_implemented_message outputFormat)) in
      let* _ := writeFile finalOutputPath convertedContent in
      ret finalOutputPath.

(* ------------------------------------------------------------------- *)
(** ** Tool handlers of [createServer] *)

(** [convert_document] *)
Definition convert_document (input_path output_format : string)
           (output_path : option string) : M string :=
  try_catch
    (let* result := convertDocument input_path output_format output_path in
     ret ("Document successfully converted to " +:+ output_format
          +:+ ". Output saved to: " +:+ result))
    (fun message => ret ("Conversion failed: " +:+ message)).

(** [get_document_info] *)
Definition get_document_info (file_path : string) : M string :=
  try_catch
    (let* document := readDocument file_path in
     let* stats := Fs.stat file_path in
     ret ("Document Information:" +:+ String "010" (render_info ext document stats)))
    (fun message => ret ("Failed to get document info: " +:+ message)).

Definition ok_line (file result : string) : string :=
  "✓ " +:+ file +:+ " → " +:+ Path.basename result "".

Definition err_line (file message : string) : string :=
  "✗ " +:+ file +:+ ": " +:+ message.

Definition summary_of (results errors : list string) : string :=
  Str.join (String "010" "")
    (["Batch Conversion Results:";
      "Successfully converted: " +:+ Str.of_nat (length results) +:+ " files";
      "Failed: " +:+ Str.of_nat (length errors) +:+ " files";
      "";
      "Successful conversions:"]
     ++ results ++ [""; "Failed conversions:"] ++ errors).

Section Batch.

Variables input_directory output_format : string.
Variable file_pattern : option string.

(** The pattern filter of the loop body: [true] when the file is to be
    processed.  Building the [RegExp] may throw. *)
Definition pattern_allows (file : string) : M bool :=
  match Str.truthy file_pattern with
  | Some fp =>
      let pattern := Str.replace_first "*" ".*" fp in
      let* regex := lift (RegExp_i ext pattern) in
      ret (regex file)
  | None => ret true
  end.

(** The [for (const file of files)] loop, with the two arrays it fills. *)
Fixpoint batch_loop (files : list string) (results errors : list string)
  : M (list string * list string) :=
  match files with
  | [] => ret (results, errors)
  | file :: rest =>
      let filePath := Path.join input_directory file in
      let* stats := Fs.stat filePath in
      if negb (isFile stats) then batch_loop rest results errors
      else
        let* allowed := pattern_allows file in
        if negb allowed then batch_loop rest results errors
        else
          let* r := attempt (convertDocument filePath output_format None) in
          match r with
          | Ok result => batch_loop rest (results ++ [ok_line file result]) errors
          | Throw message => batch_loop rest results (errors ++ [err_line file message])
          end
  end.

(** [batch_convert] *)
Definition batch_convert : M string :=
  try_catch
    (let* files := Fs.readdir input_directory in
     let* arrays := batch_loop files [] [] in
     ret (summary_of arrays.1 arrays.2))
    (fun message => ret ("Batch conversion failed: " +:+ message)).

End Batch.

End DocumentConverter.

(* ===================================================================== *)
(** * A fragment of JavaScript regular expressions *)
(* ===================================================================== *)

(** The patterns [batch_convert] builds from the documented file patterns
    ([*.pdf], [*.docx]) use two pieces of regular-expression syntax: the dot
    and the star.  This engine covers exactly that fragment, on ASCII
    subjects, with the [i] flag; it is the instance of [RegExp_i] used
    wherever a pattern is evaluated on a concrete file name. *)
Module Regex.

Inductive atom : Type :=
| AChar (c : ascii)   (* a literal character *)
| AAny.               (* [.]: any character but a line terminator *)

Inductive item : Type :=
| Once (a : atom)
| Star (a : atom).    (* [a*] *)

Definition regex : Type := list item.

(** Characters with a syntactic role in a pattern. *)
Definition syntax_chars : list ascii :=
  Str.chars "\^$.*+?()[]{}|".

Definition is_syntax (c : ascii) : bool := existsb (Ascii.eqb c) syntax_chars.

Definition nothing_to_repeat (pattern : string) : string :=
  "Invalid regular expression: /" +:+ pattern +:+ "/: Nothing to repeat".
Definition outside_fragment (pattern : string) : string :=
  "pattern outside the modelled fragment: " +:+ pattern.

(** Parses the rest of a pattern; [prev] is the atom read last, which a
    following star would repeat. *)
Fixpoint parse (pattern : string) (s : list ascii) (prev : option atom)
  : result regex :=
  let flush (r : result regex) : result regex :=
    match prev, r with
    | Some a, Ok items => Ok (Once a :: items)
    | _, _ => r
    end in
  match s with
  | [] => flush (Ok [])
  | c :: s' =>
      if Ascii.eqb c "*" then
        match prev with
        | Some a =>
            match parse pattern s' None with
            | Ok items => Ok (Star a :: items)
            | Throw e => Throw e
            end
        | None => Throw (nothing_to_repeat pattern)
        end
      else if Ascii.eqb c "." then flush (parse pattern s' (Some AAny))
      else if is_syntax c then Throw (outside_fragment pattern)
      else flush (parse pattern s' (Some (AChar c)))
  end.

Definition is_line_terminator (c : ascii) : bool :=
  Ascii.eqb c "010" || Ascii.eqb c "013".

(** One character against one atom, ignoring case. *)
Definition atom_matches (a : atom) (c : ascii) : bool :=
  match a with
  | AChar x => Ascii.eqb (Str.lower_ascii x) (Str.lower_ascii c)
  | AAny => negb (is_line_terminator c)
  end.

(** [matches_here r s]: [r] matches a prefix of [s]. *)
Fixpoint matches_here (r : regex) (s : list ascii) {struct r} : bool :=
  match r with
  | [] => true
  | Once a :: r' =>
      match s with
      | c :: s' => atom_matches a c && matches_here r' s'
      | [] => false
      end
  | Star a :: r' =>
      (fix star (s : list ascii) : bool :=
         matches_here r' s ||
         match s with
         | c :: s' => atom_matches a c && star s'
         | [] => false
         end) s
  end.

(** [regex.test(s)]: the pattern is not anchored, a match may start
    anywhere. *)
Fixpoint search (r : regex) (s : list ascii) : bool :=
  matches_here r s ||
  match s with
  | _ :: s' => search r s'
  | [] => false
  end.

Definition RegExp_i (pattern : string) : result (string -> bool) :=
  match parse pattern (Str.chars pattern) None with
  | Ok r => Ok (fun subject => search r (Str.chars subject))
  | Throw e => Throw e
  end.

End Regex.

(* ===================================================================== *)
(** * The file-pattern rule as the specification words it *)
(* ===================================================================== *)

(** "Glob-style [*] wildcard semantics: [*] matches any substring, rest
    matched literally", case-insensitive.  This definition follows the
    specification, not the source. *)
Module GlobSpec.

(** [glob_here pat s]: the whole of [s] matches [pat]. *)
Fixpoint glob_here (pat : list ascii) (s : list ascii) {struct pat} : bool :=
  match pat with
  | [] => match s with [] => true | _ => false end
  | p :: pat' =>
      if Ascii.eqb p "*" then
        (fix star (s : list ascii) : bool :=
           glob_here pat' s ||
           match s with
           | _ :: s' => star s'
           | [] => false
           end) s
      else
        match s with
        | c :: s' => Ascii.eqb (Str.lower_ascii p) (Str.lower_ascii c) && glob_here pat' s'
        | [] => false
        end
  end.

(** The pattern matches the whole file name. *)
Definition glob_match (pattern file : string) : bool :=
  glob_here (Str.chars pattern) (Str.chars file).

(** The pattern matches some part of the file name. *)
Fixpoint glob_search_from (pat : list ascii) (s : list ascii) : bool :=
  glob_here (pat ++ ["*"%char]) s ||
  match s with
  | _ :: s' => glob_search_from pat s'
  | [] => false
  end.

Definition glob_search (pattern file : string) : bool :=
  glob_search_from (Str.chars pattern) (Str.chars file).

End GlobSpec.

(* ===================================================================== *)
(** * Stand-ins for the external libraries *)
(* ===================================================================== *)

(** Simple total instances of the collaborators, used to run the converter
    on concrete inputs.  File data is ASCII, so decoding is the identity;
    the device takes every write. *)
Module Demo.

Definition pdf_text (buffer : string) : result (string * Z * string) :=
  if String.prefix "%PDF" buffer then Ok (buffer, 1%Z, "{}")
  else Throw "Invalid PDF structure".

Definition ext : Externals :=
  {| utf8_decode := fun data => data;
     pdfParse := pdf_text;
     extractRawText := fun buffer => Ok (buffer, []);
     jsdom := fun content => Ok (Some content, "");
     marked := fun content => Ok ("<p>" +:+ content +:+ "</p>");
     turndown := fun content => Ok content;
     generatePdf := fun html _ => Ok ("%PDF-1.4 " +:+ html);
     RegExp_i := Regex.RegExp_i;
     render_info := fun document _ => format document;
     write_fault := fun _ _ => None |}.


Definition cwd : Path.key := (false, []).

(** A working directory holding [in/], with three regular files, and no
    output directory yet. *)
Definition fs0 : gmap Path.key node :=
  <[ (false, ["in"; "notes.md"]) := File "# Title" ]>
  (<[ (false, ["in"; "notes.txt"]) := File "plain text" ]>
  (<[ (false, ["in"; "scan.pdf"]) := File "not a pdf" ]>
  (<[ (false, ["in"]) := Dir 4096 ["scan.pdf"; "notes.md"; "notes.txt"] ]>
  (<[ cwd := Dir 4096 ["in"] ]> ∅)))).

Definition w0 : world := World fs0 [].

(** The same directory, listing one more name that has no node. *)
Definition fs_dangling : gmap Path.key node :=
  <[ (false, ["in"]) := Dir 4096 ["notes.md"; "ghost"] ]> fs0.

Definition w_dangling : world := World fs_dangling [].

(** A configuration with a limit of seven bytes. *)
Definition tiny_config : config :=
  {| debug := false;
     max_file_size := 7;
     supported_formats_input := ["pdf"; "docx"; "html"; "md"; "txt"];
     supported_formats_output := ["pdf"; "docx"; "html"; "md"; "txt"];
     preserve_formatting := true;
     output_directory := "./converted_documents";
     smithery_api_key := None |}.

End Demo.

(* ===================================================================== *)
(** * Observations on runs *)
(* ===================================================================== *)

Definition is_codec_call (e : event) : bool :=
  match e with EvCodec _ => true | _ => false end.

Definition is_write (e : event) : bool :=
  match e with EvWriteFile _ _ => true | _ => false end.

(** Number of codec invocations recorded in a trace. *)
Definition codec_calls (t : list event) : nat := length (filter is_codec_call t).


(** [only Q m]: whatever [m] does, the calls it adds to the trace all
    satisfy [Q]. *)
Definition only {A : Type} (Q : event -> Prop) (m : M A) : Prop :=
  forall w r w', m w = (r, w') ->
    exists evs, trace w' = trace w ++ evs /\ Forall Q evs.

(** [keeps_fs m]: [m] leaves the file system as it found it. *)
Definition keeps_fs {A : Type} (m : M A) : Prop :=
  forall w r w', m w = (r, w') -> fs w' = fs w.

Definition is_dir (o : option node) : Prop :=
  match o with Some (Dir _ _) => True | _ => False end.

Definition is_file (o : option node) : Prop :=
  match o with Some (File _) => True | _ => False end.

(** A call that only looks something up. *)
Definition is_lookup (e : event) : bool :=
  match e with
  | EvStat _ | EvReaddir _ => true
  | _ => false
  end.

(** Between [w] and [w'] the file system was not touched and only lookups
    were made. *)
Definition lookups_only (w w' : world) : Prop :=
  fs w' = fs w /\
  exists evs, trace w' = trace w ++ evs /\ Forall (fun e => is_lookup e = true) evs.

(** [fs_rel R m]: [R] relates the file system before and after any run of
    [m]. *)
Definition fs_rel {A : Type} (R : gmap Path.key node -> gmap Path.key node -> Prop)
           (m : M A) : Prop :=
  forall w r w', m w = (r, w') -> R (fs w) (fs w').


(** Whatever exists keeps existing, as a file or as a directory. *)
Definition kinds_kept (m m' : gmap Path.key node) : Prop :=
  forall k, (is_file (m !! k) -> is_file (m' !! k)) /\
            (is_dir (m !! k) -> is_dir (m' !! k)).

(** The step of [convertDocument] between resolving the destination and
    writing it: the data to write for a document and an output format. *)
Definition produce (ext : Externals) (document : document) (outputFormat : string)
  : M string :=
  if String.eqb outputFormat "pdf" then
    let* htmlContent :=
      (if String.eqb (format document) "html" then ret (content document)
       else convertToHTML ext (content document) (format document)) in
    call HtmlPdf (generatePdf ext htmlContent (PdfOptions "A4" "1in" "1in" "1in" "1in"))
  else if String.eqb outputFormat "html" then
    convertToHTML ext (content document) (format document)
  else if String.eqb outputFormat "md" then
    convertToMarkdown ext (content document) (format document)
  else if String.eqb outputFormat "txt" then ret (content document)
  else throw (not_implemented_message outputFormat).

(** A plain entry name: not empty, not [.] or [..], and without a slash. *)
Definition noslash (s : string) : Prop := Forall (fun c => c <> Path.slash) (Str.chars s).

Definition plain (n : string) : Prop :=
  n <> "" /\ n <> "." /\ n <> ".." /\ noslash n.

(** The stacks [normalizeString] builds (last segment first): plain names,
    then, for a relative path only, the [..] segments that climb above the
    starting point. *)
Definition normal_stack (allow : bool) (stk : list string) : Prop :=
  exists plains k, stk = plains ++ repeat ".." k /\ Forall plain plains /\
                   (allow = false -> k = 0).

(* ===================================================================== *)
(** * The batch, outcome by outcome *)
(* ===================================================================== *)

Section BatchOutcomes.

Variable ext : Externals.
Variable cfg : config.
Variables input_directory output_format : string.
Variable file_pattern : option string.

(** The loop of [batch_convert] again, keeping for every file it converts
    the outcome of the conversion, in the order the files are met.  The
    arrays [results] and [errors] of the source are its two projections
    ([batch_loop_outcomes] below). *)
Fixpoint batch_outcomes (files : list string) : M (list (string * result string)) :=
  match files with
  | [] => ret []
  | file :: rest =>
      let filePath := Path.join input_directory file in
      let* stats := Fs.stat filePath in
      if negb (isFile stats) then batch_outcomes rest
      else
        let* allowed := pattern_allows ext file_pattern file in
        if negb allowed then batch_outcomes rest
        else
          let* r := attempt (convertDocument ext cfg filePath output_format None) in
          let* outcomes := batch_outcomes rest in
          ret ((file, r) :: outcomes)
  end.

Definition success_lines (outcomes : list (string * result string)) : list string :=
  flat_map (fun o => match o.2 with
                     | Ok d => [ok_line o.1 d]
                     | Throw _ => []
                     end) outcomes.

Definition failure_lines (outcomes : list (string * result string)) : list string :=
  flat_map (fun o => match o.2 with
                     | Ok _ => []
                     | Throw e => [err_line o.1 e]
                     end) outcomes.

(** The number of files that failed to convert. *)
Definition failures (outcomes : list (string * result string)) : nat :=
  length (List.filter (fun o => negb (is_ok o.2)) outcomes).

(** The path names something [stat] can report on. *)
Definition exists_at (m : gmap Path.key node) (p : string) : bool :=
  match Fs.resolve m p with Fs.Found _ => true | _ => false end.

(** The path names a regular file. *)
Definition regular_at (m : gmap Path.key node) (p : string) : bool :=
  match Fs.resolve m p with Fs.Found (File _) => true | _ => false end.

(** The pattern, when there is one, can be built. *)
Definition pattern_compiles : Prop :=
  match Str.truthy file_pattern with
  | Some fp => is_ok (RegExp_i ext (Str.replace_first "*" ".*" fp)) = true
  | None => True
  end.

(** What the filter answers for a file name. *)
Definition pattern_accepts (file : string) : bool :=
  match Str.truthy file_pattern with
  | Some fp =>
      match RegExp_i ext (Str.replace_first "*" ".*" fp) with
      | Ok test => test file
      | Throw _ => false
      end
  | None => true
  end.

(** The matched files of a listing: the regular files the filter accepts. *)
Definition matched (m : gmap Path.key node) (file : string) : bool :=
  regular_at m (Path.join input_directory file) && pattern_accepts file.

(** One conversion of a batch: the file, the world the conversion started
    in, what [convertDocument] answered, and the world it left. *)
Record step : Type := Step {
  step_file : string;
  step_before : world;
  step_result : result string;
  step_after : world
}.

Definition outcome_of (s : step) : string * result string :=
  (step_file s, step_result s).

(** [chain w steps w']: between [w] and [w'] the conversions [steps] were
    run one after the other and nothing else was done.  Each of them is a
    run of [convertDocument] on its file, called without an output path,
    that started in the file system its predecessor left, whether that one
    failed or not; before, between and after them only lookups were
    made. *)
Fixpoint chain (w : world) (steps : list step) (w' : world) : Prop :=
  match steps with
  | [] => lookups_only w w'
  | s :: rest =>
      lookups_only w (step_before s) /\
      convertDocument ext cfg (Path.join input_directory (step_file s)) output_format None
        (step_before s) = (step_result s, step_after s) /\
      chain (step_after s) rest w'
  end.

(** Two files of a batch that differ at most in their extension. *)
Definition same_base_name (f1 f2 : string) : Prop :=
  fileName_of (Path.join input_directory f1) = fileName_of (Path.join input_directory f2).

End BatchOutcomes.

Module DemoBatch.

(** [in/] with a Markdown file and a text file called [cmd.txt]. *)
Definition fs_cmd : gmap Path.key node :=
  <[ (false, ["in"; "notes.md"]) := File "# Title" ]>
  (<[ (false, ["in"; "cmd.txt"]) := File "dir /w" ]>
  (<[ (false, ["in"]) := Dir 4096 ["notes.md"; "cmd.txt"] ]>
  (<[ Demo.cwd := Dir 4096 ["in"] ]> ∅))).

Definition w_cmd : world := World fs_cmd [].

End DemoBatch.

(* ===================================================================== *)
(** * Further observations on runs *)
(* ===================================================================== *)

(** Every regular file is the same before and after. *)
Definition files_same (m m' : gmap Path.key node) : Prop :=
  forall k d, m !! k = Some (File d) <-> m' !! k = Some (File d).

(** Every regular file other than the one at [dest] is the same before and
    after. *)
Definition files_same_except (dest : Path.key) (m m' : gmap Path.key node) : Prop :=
  forall k d, k <> dest -> (m !! k = Some (File d) <-> m' !! k = Some (File d)).

(** The calls of a trace that touch the file system beyond reading it. *)
Definition is_mutation (e : event) : bool :=
  match e with
  | EvEnsureDir _ | EvWriteFile _ _ => true
  | _ => false
  end.

(** The codecs called, in order. *)
Definition codecs_called (t : list event) : list codec :=
  flat_map (fun e => match e with EvCodec c => [c] | _ => [] end) t.

(* ===================================================================== *)
(** * class SmitheryRegistry and its tool handlers *)
(* ===================================================================== *)

Module Registry.

(** A request handed to [fetch]. *)
Record request : Type := Request {
  req_url : string;
  req_headers : list (string * string)
}.

(** What [fetch] resolves to: [response.ok], the status line, and the
    outcome of [response.json()] (a JSON value, kept as text). *)
Record response : Type := Response {
  resp_ok : bool;
  resp_status : Z;
  resp_statusText : string;
  resp_json : result string
}.

(** The platform the registry client runs on. *)
Record Net : Type := {
  (** [fetch(url, {headers})]; it may reject *)
  fetch : request -> result response;
  (** [new URL(base)], [searchParams.append] for each entry in order, then
      [toString()] *)
  url_with_params : string -> list (string * string) -> string;
  (** [JSON.stringify(value, null, 2)] *)
  stringify_pretty : string -> string;
  (** [btoa(JSON.stringify(config))]; [btoa] throws on a character above
      U+00FF *)
  btoa_json : string -> result string
}.

Definition baseUrl : string := "https://smithery.ai/api".

(** The characters [encodeURIComponent] leaves as they are. *)
Definition unreserved (c : ascii) : bool :=
  let n := nat_of_ascii c in
  ((65 <=? n)%nat && (n <=? 90)%nat) || ((97 <=? n)%nat && (n <=? 122)%nat) ||
  ((48 <=? n)%nat && (n <=? 57)%nat) ||
  existsb (Ascii.eqb c) (Str.chars "-_.!~*'()").

Definition hex_digit (d : nat) : ascii :=
  if (d <? 10)%nat then ascii_of_nat (48 + d) else ascii_of_nat (55 + d).

(** Percent-encoding of the UTF-8 bytes of a string: every byte that is not
    unreserved becomes [%XX] in upper-case hexadecimal. *)
Fixpoint encodeURIComponent_chars (s : list ascii) : list ascii :=
  match s with
  | [] => []
  | c :: s' =>
      if unreserved c then c :: encodeURIComponent_chars s'
      else "%"%char :: hex_digit (nat_of_ascii c / 16)
                    :: hex_digit (nat_of_ascii c mod 16)
                    :: encodeURIComponent_chars s'
  end.

(** An unpaired surrogate.  A JavaScript string may hold a surrogate code
    unit that is not half of a pair; in the byte form of the string it is
    the three bytes [ED], [A0]..[BF], [80]..[BF].  (A pair is held as the
    four bytes of its code point, and after [ED] a well-formed character
    has a second byte of [9F] at most.) *)
Fixpoint has_lone_surrogate (s : list ascii) : bool :=
  match s with
  | [] => false
  | c :: tl =>
      match tl with
      | c2 :: _ =>
          ((nat_of_ascii c =? 237)%nat && (160 <=? nat_of_ascii c2)%nat
           && (nat_of_ascii c2 <=? 191)%nat)
          || has_lone_surrogate tl
      | [] => false
      end
  end.

(** The string made of the unpaired surrogate U+D800. *)
Definition lone_surrogate : string :=
  String (ascii_of_nat 237) (String (ascii_of_nat 160) (String (ascii_of_nat 128) "")).

(** [encodeURIComponent]: throws a [URIError] on an unpaired surrogate, and
    otherwise percent-encodes the UTF-8 bytes of the string. *)
Definition encodeURIComponent (s : string) : result string :=
  if has_lone_surrogate (Str.chars s) then Throw "URI malformed"
  else Ok (Str.of_chars (encodeURIComponent_chars (Str.chars s))).

Section Client.

Variable net : Net.
(** [this.apiKey] *)
Variable apiKey : option string.

Definition api_key_required : string :=
  "Smithery API key is required for registry operations".

(** [makeRequest(endpoint, params)]: the outcome and the requests made. *)
Definition makeRequest (endpoint : string) (params : list (string * string))
  : result string * list request :=
  match Str.truthy apiKey with
  | None => (Throw api_key_required, [])
  | Some key =>
      let url := url_with_params net (baseUrl +:+ endpoint) params in
      let req := Request url [("Authorization", "Bearer " +:+ key);
                              ("Content-Type", "application/json")] in
      match fetch net req with
      | Throw e => (Throw e, [req])
      | Ok resp =>
          if negb (resp_ok resp)
          then (Throw ("Smithery API error: " +:+ Str.of_Z (resp_status resp)
                       +:+ " " +:+ resp_statusText resp), [req])
          else (resp_json resp, [req])
      end
  end.

(** [searchServers(query, limit = 10)] *)
Definition searchServers (query : option string) (limit : option Z)
  : result string * list request :=
  let limit := match limit with Some l => l | None => 10%Z end in
  let params :=
    ("limit", Str.of_Z limit) ::
    match Str.truthy query with
    | Some q => [("q", q)]
    | None => []
    end in
  makeRequest "/servers" params.

(** [getServerDetails(serverName)]; the endpoint is built, and the name
    encoded, before [makeRequest] is entered. *)
Definition getServerDetails (serverName : string) : result string * list request :=
  match encodeURIComponent serverName with
  | Ok name => makeRequest ("/servers/" +:+ name) []
  | Throw e => (Throw e, [])
  end.

(** [createConnectionUrl(serverName, config)]; [config], when given, is an
    object (always truthy), kept as its JSON text. *)
Definition createConnectionUrl (serverName : string) (config : option string)
  : result string :=
  match encodeURIComponent serverName with
  | Throw e => Throw e
  | Ok name =>
      let baseUrl := "wss://smithery.ai/ws/" +:+ name in
      match config with
      | Some c =>
          match btoa_json net c with
          | Ok encodedConfig => Ok (baseUrl +:+ "?config=" +:+ encodedConfig)
          | Throw e => Throw e
          end
      | None => Ok baseUrl
      end
  end.

Definition api_key_hint : string :=
  "Smithery API key is required. Please configure 'smithery_api_key' in your smithery.yaml file.".

(** The [search_mcp_servers] tool; [apiKey] is [config.smithery_api_key]. *)
Definition search_mcp_servers (query : option string) (limit : option Z)
  : string * list request :=
  match Str.truthy apiKey with
  | None => (api_key_hint, [])
  | Some _ =>
      let limit := match limit with Some l => l | None => 10%Z end in
      match searchServers query (Some limit) with
      | (Ok results, reqs) =>
          ("MCP Servers Search Results:" +:+ String "010" (stringify_pretty net results), reqs)
      | (Throw message, reqs) => ("Failed to search MCP servers: " +:+ message, reqs)
      end
  end.

(** The [get_mcp_server_details] tool. *)
Definition get_mcp_server_details (server_name : string) : string * list request :=
  match Str.truthy apiKey with
  | None => (api_key_hint, [])
  | Some _ =>
      match getServerDetails server_name with
      | (Ok details, reqs) =>
          ("MCP Server Details for " +:+ server_name +:+ ":"
           +:+ String "010" (stringify_pretty net details), reqs)
      | (Throw message, reqs) => ("Failed to get server details: " +:+ message, reqs)
      end
  end.

(** The [create_mcp_connection_url] tool. *)
Definition create_mcp_connection_url (server_name : string) (config : option string)
  : string :=
  match createConnectionUrl server_name config with
  | Ok connectionUrl =>
      "Connection URL for " +:+ server_name +:+ ":" +:+ String "010" connectionUrl
      +:+ String "010" (String "010"
            "You can use this URL to connect to the MCP server via WebSocket.")
  | Throw message => "Failed to create connection URL: " +:+ message
  end.

End Client.

(** A platform whose server answers 503 to every request. *)
Definition net_down : Net :=
  {| fetch := fun _ => Ok (Response false 503 "Service Unavailable" (Throw "no body"));
     url_with_params := fun base params =>
       base +:+ "?" +:+ Str.join "&" (map (fun kv => kv.1 +:+ "=" +:+ kv.2) params);
     stringify_pretty := fun v => v;
     btoa_json := fun c => Ok c |}.

End Registry.

(** Reading back a percent-encoded string (used to show that the encoding
    loses nothing). *)
Definition hex_value (c : ascii) : nat :=
  let n := nat_of_ascii c in
  if (n <? 58)%nat then n - 48 else n - 55.

Fixpoint percent_decode (s : list ascii) : list ascii :=
  match s with
  | [] => []
  | c :: rest =>
      if Ascii.eqb c "%" then
        match rest with
        | h1 :: h2 :: r => ascii_of_nat (16 * hex_value h1 + hex_value h2) :: percent_decode r
        | _ => c :: percent_decode rest
        end
      else c :: percent_decode rest
  end.

(* ===================================================================== *)
(** * The scaffold command ([src/index.ts]) *)
(* ===================================================================== *)

(** [detectPackageManager()]; the argument is
    [process.env.npm_config_user_agent]. *)
Definition detectPackageManager (userAgent : option string) : string :=
  match Str.truthy userAgent with
  | Some ua =>
      if String.prefix "yarn" ua then "yarn"
      else if String.prefix "pnpm" ua then "pnpm"
      else if String.prefix "bun" ua then "bun"
      else if String.prefix "npm" ua then "npm"
      else "npm"
  | None => "npm"
  end.

(* ===================================================================== *)
(** * Facts about strings and the monad *)
(* ===================================================================== *)

Module StrFacts.

Lemma of_chars_chars s : Str.of_chars (Str.chars s) = s.
Proof. apply string_of_list_ascii_of_string. Qed.

Lemma chars_of_chars l : Str.chars (Str.of_chars l) = l.
Proof. apply list_ascii_of_string_of_list_ascii. Qed.

Lemma chars_app s t : Str.chars (s +:+ t) = Str.chars s ++ Str.chars t.
Proof. induction s as [|c s IH]; simpl; [done | by rewrite IH]. Qed.

End StrFacts.

(** Node's documented examples and a few corner cases. *)
Example extname_examples :
  Path.extname "notes.md" = ".md" /\ Path.extname "/a/b/.bashrc" = "" /\
  Path.extname "a." = "." /\ Path.extname ".." = "" /\ Path.extname "a.b/" = ".b" /\
  Path.extname "index.coffee.md" = ".md" /\ Path.extname "dir.d/file" = "" /\
  Path.extname "..md" = ".md".
Proof. repeat split; reflexivity. Qed.

Example basename_examples :
  Path.basename "/a/b/notes.md" ".md" = "notes" /\ Path.basename "/a/b/" "" = "b" /\
  Path.basename "in/a.txt" (Path.extname "in/a.txt") = "a" /\
  Path.basename "a/.md" ".md" = ".md".
Proof. repeat split; reflexivity. Qed.

Example join_examples :
  Path.join "./converted_documents" "notes.html" = "converted_documents/notes.html" /\
  Path.join "/a/../.." "x" = "/x" /\ Path.join "" "x" = "x" /\ Path.join "a" "" = "a" /\
  Path.join ".." "x" = "../x" /\ Path.join "a/" "b/" = "a/b/" /\
  Path.join "a/b" "../../../c" = "../c".
Proof. repeat split; reflexivity. Qed.

Example string_examples :
  Str.of_Z 10485760 = "10485760" /\ Str.of_nat 0 = "0" /\
  Str.toLowerCase ".MarkDown" = ".markdown" /\
  Str.replace_first "*" ".*" "*.m*" = ".*.m*".
Proof. repeat split; reflexivity. Qed.

Section MonadFacts.

Context {A B : Type}.

Lemma bind_ok (m : M A) (k : A -> M B) w a w1 :
  m w = (Ok a, w1) -> bind m k w = k a w1.
Proof. intros H. unfold bind. by rewrite H. Qed.

Lemma bind_throw (m : M A) (k : A -> M B) w e w1 :
  m w = (Throw e, w1) -> bind m k w = (Throw e, w1).
Proof. intros H. unfold bind. by rewrite H. Qed.

Lemma bind_inv (m : M A) (k : A -> M B) w r w2 :
  bind m k w = (r, w2) ->
  (exists a w1, m w = (Ok a, w1) /\ k a w1 = (r, w2)) \/
  (exists e, m w = (Throw e, w2) /\ r = Throw e).
Proof.
  unfold bind. destruct (m w) as [[a|e] w1]; intros H.
  - left. by exists a, w1.
  - right. exists e. by inversion H.
Qed.

Lemma bind_ok_inv (m : M A) (k : A -> M B) w b w2 :
  bind m k w = (Ok b, w2) ->
  exists a w1, m w = (Ok a, w1) /\ k a w1 = (Ok b, w2).
Proof.
  intros H. apply bind_inv in H as [H|[e [_ H]]]; [done | discriminate].
Qed.

End MonadFacts.

(** ** Composition rules for [only] and [keeps_fs] *)

Section Only.

Context (Q : event -> Prop).

Lemma only_ret {A} (a : A) : only Q (ret a).
Proof.
  intros w r w' H. inversion H; subst. exists []. by rewrite app_nil_r.
Qed.

Lemma only_throw {A} e : only Q (@throw A e).
Proof.
  intros w r w' H. inversion H; subst. exists []. by rewrite app_nil_r.
Qed.

Lemma only_lift {A} (x : result A) : only Q (lift x).
Proof.
  intros w r w' H. inversion H; subst. exists []. by rewrite app_nil_r.
Qed.

Lemma only_emit e : Q e -> only Q (emit e).
Proof.
  intros He w r w' H. inversion H; subst. exists [e]. split; [done | by constructor].
Qed.

Lemma only_bind {A B} (m : M A) (k : A -> M B) :
  only Q m -> (forall a, only Q (k a)) -> only Q (bind m k).
Proof.
  intros Hm Hk w r w' H. apply bind_inv in H as [(a & w1 & H1 & H2)|(e & H1 & _)].
  - destruct (Hm _ _ _ H1) as (ev1 & E1 & F1).
    destruct (Hk _ _ _ _ H2) as (ev2 & E2 & F2).
    exists (ev1 ++ ev2). split; [by rewrite E2, E1, app_assoc | by apply Forall_app].
  - eauto.
Qed.

Lemma only_try_catch {A} (m : M A) (h : string -> M A) :
  only Q m -> (forall e, only Q (h e)) -> only Q (try_catch m h).
Proof.
  intros Hm Hh w r w'. unfold try_catch.
  destruct (m w) as [[a|e] w1] eqn:E; intros H.
  - inversion H; subst. eauto.
  - destruct (Hm _ _ _ E) as (ev1 & E1 & F1).
    destruct (Hh _ _ _ _ H) as (ev2 & E2 & F2).
    exists (ev1 ++ ev2). split; [by rewrite E2, E1, app_assoc | by apply Forall_app].
Qed.


End Only.

Section KeepsFs.

Lemma keeps_ret {A} (a : A) : keeps_fs (ret a).
Proof. intros w r w' H. by inversion H. Qed.

Lemma keeps_throw {A} e : keeps_fs (@throw A e).
Proof. intros w r w' H. by inversion H. Qed.

Lemma keeps_lift {A} (x : result A) : keeps_fs (lift x).
Proof. intros w r w' H. by inversion H. Qed.

Lemma keeps_emit e : keeps_fs (emit e).
Proof. intros w r w' H. by inversion H. Qed.

Lemma keeps_bind {A B} (m : M A) (k : A -> M B) :
  keeps_fs m -> (forall a, keeps_fs (k a)) -> keeps_fs (bind m k).
Proof.
  intros Hm Hk w r w' H. apply bind_inv in H as [(a & w1 & H1 & H2)|(e & H1 & _)].
  - rewrite (Hk _ _ _ _ H2). eauto.
  - eauto.
Qed.

End KeepsFs.

(* ===================================================================== *)
(** * Facts about the file system operations *)
(* ===================================================================== *)

Module FsFacts.

(** Following a path leads to the place [normalizeString] computes. *)
Lemma walk_stack m abs segs : forall stk s,
  Fs.walk m abs stk segs = Fs.Reached s ->
  s = fold_left (Path.norm_step (negb abs)) segs stk.
Proof.
  induction segs as [|seg rest IH]; intros stk s H; simpl in H.
  - by inversion H.
  - simpl. destruct (String.eqb seg "") eqn:E.
    + apply String.eqb_eq in E. subst. by apply IH in H.
    + destruct (m !! (abs, rev stk)) as [[d|sz es]|]; try done. by apply IH.
Qed.

Lemma follow_key m p stk :
  Fs.follow m p = Fs.Reached stk -> (Path.isAbsolute p, rev stk) = Path.key_of p.
Proof.
  unfold Fs.follow, Path.key_of, Path.normalizeString. intros H.
  by rewrite (walk_stack _ _ _ _ _ H).
Qed.

(** What a path names is the node at its key, once the path can be
    followed. *)
Lemma resolve_run m p :
  Fs.resolve m p =
  if String.eqb p "" then Fs.Enoent
  else match Fs.follow m p with
       | Fs.Reached _ =>
           match m !! Path.key_of p with
           | Some (File d) =>
               if Path.endsWithSlash p then Fs.Enotdir else Fs.Found (File d)
           | Some n => Fs.Found n
           | None => Fs.Enoent
           end
       | Fs.NoEntry => Fs.Enoent
       | Fs.NotDir => Fs.Enotdir
       end.
Proof.
  unfold Fs.resolve. destruct (String.eqb p ""); [done |].
  destruct (Fs.follow m p) as [stk| |] eqn:E; [| done | done].
  by rewrite (follow_key _ _ _ E).
Qed.

Lemma resolve_found m p n : Fs.resolve m p = Fs.Found n -> m !! Path.key_of p = Some n.
Proof.
  rewrite resolve_run. destruct (String.eqb p ""); [done |].
  destruct (Fs.follow m p); [| done | done].
  destruct (m !! Path.key_of p) as [[d|sz es]|]; [| | done].
  - destruct (Path.endsWithSlash p); [done | by inversion 1].
  - by inversion 1.
Qed.

(** [stat] records one call and returns what the path resolves to. *)
Lemma stat_run p w :
  Fs.stat p w =
  ((match Fs.resolve (fs w) p with
    | Fs.Found (File d) => Ok (Stats true (Z.of_nat (String.length d)))
    | Fs.Found (Dir sz _) => Ok (Stats false sz)
    | Fs.Enoent => Throw (Fs.enoent "stat" p)
    | Fs.Enotdir => Throw (Fs.enotdir "stat" p)
    end), World (fs w) (trace w ++ [EvStat p])).
Proof.
  unfold Fs.stat, bind, emit. simpl.
  destruct (Fs.resolve (fs w) p) as [[d|sz es]| |]; reflexivity.
Qed.

Lemma stat_world p w r w1 :
  Fs.stat p w = (r, w1) -> w1 = World (fs w) (trace w ++ [EvStat p]).
Proof. rewrite stat_run. by inversion 1. Qed.

Lemma readFile_run p w :
  Fs.readFile p w =
  ((match Fs.resolve (fs w) p with
    | Fs.Found (File d) => Ok d
    | Fs.Found (Dir _ _) => Throw Fs.eisdir_read
    | Fs.Enoent => Throw (Fs.enoent "open" p)
    | Fs.Enotdir => Throw (Fs.enotdir "open" p)
    end), World (fs w) (trace w ++ [EvReadFile p])).
Proof.
  unfold Fs.readFile, bind, emit. simpl.
  destruct (Fs.resolve (fs w) p) as [[d|sz es]| |]; reflexivity.
Qed.

Lemma readdir_run p w :
  Fs.readdir p w =
  ((match Fs.resolve (fs w) p with
    | Fs.Found (Dir _ es) => Ok es
    | Fs.Found (File _) => Throw (Fs.enotdir "scandir" p)
    | Fs.Enoent => Throw (Fs.enoent "scandir" p)
    | Fs.Enotdir => Throw (Fs.enotdir "scandir" p)
    end), World (fs w) (trace w ++ [EvReaddir p])).
Proof.
  unfold Fs.readdir, bind, emit. simpl.
  destruct (Fs.resolve (fs w) p) as [[d|sz es]| |]; reflexivity.
Qed.

Lemma ensureDir_trace p w r w1 :
  Fs.ensureDir p w = (r, w1) -> trace w1 = trace w ++ [EvEnsureDir p].
Proof.
  unfold Fs.ensureDir, bind, emit. simpl.
  destruct (String.eqb p ""); by inversion 1.
Qed.

Lemma writeFile_trace fault p data w r w1 :
  Fs.writeFile fault p data w = (r, w1) -> trace w1 = trace w ++ [EvWriteFile p data].
Proof.
  unfold Fs.writeFile, bind, emit. simpl.
  repeat match goal with
         | |- context [match ?x with _ => _ end] => destruct x
         end; by inversion 1.
Qed.

Lemma only_stat Q p : Q (EvStat p) -> only Q (Fs.stat p).
Proof.
  intros HQ w r w' H. rewrite stat_run in H. inversion H; subst. simpl.
  exists [EvStat p]. split; [done | by constructor].
Qed.

Lemma only_readFile Q p : Q (EvReadFile p) -> only Q (Fs.readFile p).
Proof.
  intros HQ w r w' H. rewrite readFile_run in H. inversion H; subst. simpl.
  exists [EvReadFile p]. split; [done | by constructor].
Qed.


Lemma only_ensureDir Q p : Q (EvEnsureDir p) -> only Q (Fs.ensureDir p).
Proof.
  intros HQ w r w' H. apply ensureDir_trace in H.
  exists [EvEnsureDir p]. split; [done | by constructor].
Qed.

Lemma only_writeFile Q fault p data :
  Q (EvWriteFile p data) -> only Q (Fs.writeFile fault p data).
Proof.
  intros HQ w r w' H. apply writeFile_trace in H.
  exists [EvWriteFile p data]. split; [done | by constructor].
Qed.

Lemma keeps_stat p : keeps_fs (Fs.stat p).
Proof. intros w r w' H. rewrite stat_run in H. by inversion H. Qed.

Lemma keeps_readFile p : keeps_fs (Fs.readFile p).
Proof. intros w r w' H. rewrite readFile_run in H. by inversion H. Qed.

End FsFacts.

(* ===================================================================== *)
(** * The Document Reader *)
(* ===================================================================== *)

Section ReaderFacts.

Variable ext : Externals.
Variable cfg : config.

Lemma only_call {A} Q c (r : result A) : Q (EvCodec c) -> only Q (call c r).
Proof.
  intros HQ. unfold call. apply only_bind; [by apply only_emit | intros; apply only_lift].
Qed.

Lemma keeps_call {A} c (r : result A) : keeps_fs (call c r).
Proof.
  unfold call. apply keeps_bind; [apply keeps_emit | intros; apply keeps_lift].
Qed.

Lemma only_decode Q fmt p :
  Q (EvReadFile p) -> (forall c, Q (EvCodec c)) -> only Q (decode ext fmt p).
Proof.
  intros Hr Hc. unfold decode, readPDF, readDOCX, readHTML, readMarkdown, readText,
    readFile_utf8.
  repeat match goal with
         | |- only _ (if ?b then _ else _) => destruct b
         | |- only _ (bind _ _) => apply only_bind; [| intros ?]
         | |- only _ (let '(_, _) := ?x in _) => destruct x
         | |- only _ (ret _) => apply only_ret
         | |- only _ (throw _) => apply only_throw
         | |- only _ (Fs.readFile _) => by apply FsFacts.only_readFile
         | |- only _ (call _ _) => by apply only_call
         end.
Qed.

Lemma keeps_decode fmt p : keeps_fs (decode ext fmt p).
Proof.
  unfold decode, readPDF, readDOCX, readHTML, readMarkdown, readText, readFile_utf8.
  repeat match goal with
         | |- keeps_fs (if ?b then _ else _) => destruct b
         | |- keeps_fs (bind _ _) => apply keeps_bind; [| intros ?]
         | |- keeps_fs (let '(_, _) := ?x in _) => destruct x
         | |- keeps_fs (ret _) => apply keeps_ret
         | |- keeps_fs (throw _) => apply keeps_throw
         | |- keeps_fs (Fs.readFile _) => apply FsFacts.keeps_readFile
         | |- keeps_fs (call _ _) => apply keeps_call
         end.
Qed.

Lemma only_readDocument Q p :
  Q (EvStat p) -> Q (EvReadFile p) -> (forall c, Q (EvCodec c)) ->
  only Q (readDocument ext cfg p).
Proof.
  intros Hs Hr Hc. unfold readDocument.
  apply only_bind; [by apply FsFacts.only_stat | intros st].
  destruct (_ >? _)%Z; [apply only_throw | by apply only_decode].
Qed.

(** Reading never changes the file system. *)
Lemma keeps_readDocument p : keeps_fs (readDocument ext cfg p).
Proof.
  unfold readDocument. apply keeps_bind; [apply FsFacts.keeps_stat | intros st].
  destruct (_ >? _)%Z; [apply keeps_throw | apply keeps_decode].
Qed.

(** Once the size check has passed, [readDocument] is the decoder of the
    detected format. *)
Lemma readDocument_within_limit p st w w1 :
  Fs.stat p w = (Ok st, w1) -> (size st <= max_file_size cfg)%Z ->
  readDocument ext cfg p w = decode ext (detectFormat p) p w1.
Proof.
  intros Hst Hle. unfold readDocument. rewrite (bind_ok _ _ _ _ _ Hst).
  destruct (size st >? max_file_size cfg)%Z eqn:E; [| done].
  apply Z.gtb_lt in E. lia.
Qed.

Lemma readDocument_over_limit p st w w1 :
  Fs.stat p w = (Ok st, w1) -> (max_file_size cfg < size st)%Z ->
  readDocument ext cfg p w = (Throw (size_limit_message cfg), w1).
Proof.
  intros Hst Hlt. unfold readDocument. rewrite (bind_ok _ _ _ _ _ Hst).
  destruct (size st >? max_file_size cfg)%Z eqn:E; [done |].
  rewrite Z.gtb_ltb in E. apply Z.ltb_ge in E. lia.
Qed.

(** A Markdown or text file within the limit is returned verbatim. *)
Lemma read_plain_file p d w :
  Fs.resolve (fs w) p = Fs.Found (File d) ->
  (Z.of_nat (String.length d) <= max_file_size cfg)%Z ->
  detectFormat p = "md" \/ detectFormat p = "txt" ->
  readDocument ext cfg p w =
  (Ok (Document (utf8_decode ext d) (detectFormat p) None),
   World (fs w) (trace w ++ [EvStat p; EvReadFile p])).
Proof.
  intros Hres Hle Hfmt.
  rewrite (readDocument_within_limit p (Stats true (Z.of_nat (String.length d))) w
             (World (fs w) (trace w ++ [EvStat p]))); [| | done].
  - unfold decode.
    destruct Hfmt as [-> | ->]; simpl;
      unfold readMarkdown, readText, readFile_utf8, bind;
      rewrite FsFacts.readFile_run; simpl; rewrite Hres;
      unfold ret; by rewrite <- app_assoc.
  - rewrite FsFacts.stat_run. by rewrite Hres.
Qed.

End ReaderFacts.

(* ===================================================================== *)
(** * Size limit (claims C2 and C8) *)
(* ===================================================================== *)

(** C2.  For every file whose size strictly exceeds [max_file_size],
    [readDocument] fails with the size-limit error, and so do
    [convertDocument] (whatever the output format and output path) and
    [get_document_info] (which reports it as text).  The failure comes right
    after [stat]: the only call recorded is that [stat], so the file is not
    read and no codec is invoked (the number of codec calls is unchanged),
    and the file system is untouched. *)
Theorem oversized_file_rejected_before_decode
        (ext : Externals) (cfg : config) (p : string) (st : stats) (w w1 : world) :
  Fs.stat p w = (Ok st, w1) ->
  (max_file_size cfg < size st)%Z ->
  readDocument ext cfg p w = (Throw (size_limit_message cfg), w1) /\
  (forall fmt o, convertDocument ext cfg p fmt o w = (Throw (size_limit_message cfg), w1)) /\
  get_document_info ext cfg p w =
    (Ok ("Failed to get document info: " +:+ size_limit_message cfg), w1) /\
  trace w1 = trace w ++ [EvStat p] /\
  codec_calls (trace w1) = codec_calls (trace w) /\
  fs w1 = fs w.
Proof.
  intros Hst Hlt.
  pose proof (readDocument_over_limit ext cfg p st w w1 Hst Hlt) as Hread.
  pose proof (FsFacts.stat_world _ _ _ _ Hst) as ->. simpl.
  repeat split.
  - exact Hread.
  - intros fmt o. unfold convertDocument. by rewrite (bind_throw _ _ _ _ _ Hread).
  - unfold get_document_info, try_catch. by rewrite (bind_throw _ _ _ _ _ Hread).
  - unfold codec_calls. rewrite filter_app. simpl. by rewrite app_nil_r.
Qed.

Lemma oversized_file_rejected_witness :
  readDocument Demo.ext Demo.tiny_config "in/notes.txt" Demo.w0 =
    (Throw "File size exceeds maximum limit of 7 bytes",
     World Demo.fs0 [EvStat "in/notes.txt"]) /\
  codec_calls [EvStat "in/notes.txt"] = 0.
Proof.
  pose proof (oversized_file_rejected_before_decode Demo.ext Demo.tiny_config
                "in/notes.txt" (Stats true 10) Demo.w0
                (World Demo.fs0 [EvStat "in/notes.txt"])) as H.
  destruct H as (H1 & _).
  - vm_compute. reflexivity.
  - simpl. lia.
  - split; [exact H1 | reflexivity].
Defined.

(** C8.  The size comparison is strict.  A file whose size is exactly
    [max_file_size] (indeed any size up to the limit) is not rejected:
    [readDocument] goes on to the decoder of the detected format, and a
    Markdown or text file of exactly the limit is returned in full.  Only a
    size strictly above the limit is refused by the check. *)
Theorem size_limit_is_strict
        (ext : Externals) (cfg : config) (p : string) (st : stats) (w w1 : world) :
  Fs.stat p w = (Ok st, w1) ->
  size st = max_file_size cfg ->
  readDocument ext cfg p w = decode ext (detectFormat p) p w1 /\
  (forall d, Fs.resolve (fs w) p = Fs.Found (File d) ->
             detectFormat p = "md" \/ detectFormat p = "txt" ->
             (readDocument ext cfg p w).1 =
               Ok (Document (utf8_decode ext d) (detectFormat p) None)) /\
  (forall st' w' w1', Fs.stat p w' = (Ok st', w1') ->
     ((max_file_size cfg < size st')%Z ->
        readDocument ext cfg p w' = (Throw (size_limit_message cfg), w1')) /\
     ((size st' <= max_file_size cfg)%Z ->
        readDocument ext cfg p w' = decode ext (detectFormat p) p w1')).
Proof.
  intros Hst Heq. split; [| split].
  - apply (readDocument_within_limit ext cfg p st); [done | lia].
  - intros d Hres Hfmt.
    rewrite (read_plain_file ext cfg p d w Hres); [done | | done].
    rewrite FsFacts.stat_run, Hres in Hst. inversion Hst; subst. simpl in Heq. lia.
  - intros st' w' w1' Hst'. split; intros Hsz.
    + by apply (readDocument_over_limit ext cfg p st').
    + by apply (readDocument_within_limit ext cfg p st').
Qed.

Lemma size_limit_is_strict_witness :
  (readDocument Demo.ext Demo.tiny_config "in/notes.md" Demo.w0).1 =
    Ok (Document "# Title" "md" None).
Proof.
  pose proof (size_limit_is_strict Demo.ext Demo.tiny_config "in/notes.md"
                (Stats true 7) Demo.w0 (World Demo.fs0 [EvStat "in/notes.md"])) as H.
  destruct H as (_ & H2 & _).
  - vm_compute. reflexivity.
  - reflexivity.
  - apply (H2 "# Title"); [vm_compute; reflexivity | left; reflexivity].
Defined.

(* ===================================================================== *)
(** * The [preserve_formatting] flag (claim C7) *)
(* ===================================================================== *)

(** C7.  [preserve_formatting] does not change the control flow of any
    conversion: for every input path, output format and output path, and
    from every world, two runs of [convertDocument] whose configurations
    differ only in the value of the flag return the same result (the same
    destination path or the same error) and leave the same world (the same
    files with the same contents, the same calls).  The same holds of the
    [convert_document] and [batch_convert] handlers built on it. *)
Theorem preserve_formatting_is_inert
        (ext : Externals) (cfg : config) (b1 b2 : bool)
        (inputPath outputFormat : string) (outputPath : option string)
        (input_directory : string) (file_pattern : option string) (w : world) :
  convertDocument ext (set_preserve_formatting b1 cfg) inputPath outputFormat outputPath w =
  convertDocument ext (set_preserve_formatting b2 cfg) inputPath outputFormat outputPath w /\
  convert_document ext (set_preserve_formatting b1 cfg) inputPath outputFormat outputPath w =
  convert_document ext (set_preserve_formatting b2 cfg) inputPath outputFormat outputPath w /\
  batch_convert ext (set_preserve_formatting b1 cfg) input_directory outputFormat file_pattern w =
  batch_convert ext (set_preserve_formatting b2 cfg) input_directory outputFormat file_pattern w.
Proof. repeat split; reflexivity. Qed.

(** ** Relations between the file system before and after *)

Section FsRel.

Context (R : gmap Path.key node -> gmap Path.key node -> Prop).
Hypothesis R_refl : forall m, R m m.
Hypothesis R_trans : forall m1 m2 m3, R m1 m2 -> R m2 m3 -> R m1 m3.

Lemma fs_rel_keeps {A} (m : M A) : keeps_fs m -> fs_rel R m.
Proof. intros H w r w' E. rewrite (H _ _ _ E). apply R_refl. Qed.

Lemma fs_rel_ret {A} (a : A) : fs_rel R (ret a).
Proof. apply fs_rel_keeps, keeps_ret. Qed.

Lemma fs_rel_throw {A} e : fs_rel R (@throw A e).
Proof. apply fs_rel_keeps, keeps_throw. Qed.

Lemma fs_rel_bind {A B} (m : M A) (k : A -> M B) :
  fs_rel R m -> (forall a, fs_rel R (k a)) -> fs_rel R (bind m k).
Proof.
  intros Hm Hk w r w' H. apply bind_inv in H as [(a & w1 & H1 & H2)|(e & H1 & _)].
  - eapply R_trans; [eapply Hm | eapply Hk]; eauto.
  - eapply Hm; eauto.
Qed.



End FsRel.



Lemma kinds_kept_refl m : kinds_kept m m.
Proof. intros k. split; auto. Qed.

Lemma kinds_kept_trans m1 m2 m3 :
  kinds_kept m1 m2 -> kinds_kept m2 m3 -> kinds_kept m1 m3.
Proof.
  intros H12 H23 k. destruct (H12 k), (H23 k). split; auto.
Qed.

Lemma files_same_refl m : files_same m m.
Proof. by intros k d. Qed.

Lemma files_same_trans m1 m2 m3 : files_same m1 m2 -> files_same m2 m3 -> files_same m1 m3.
Proof. intros H12 H23 k d. etrans; [apply H12 | apply H23]. Qed.

Lemma files_same_except_refl dest m : files_same_except dest m m.
Proof. by intros k d _. Qed.

Lemma files_same_except_trans dest m1 m2 m3 :
  files_same_except dest m1 m2 -> files_same_except dest m2 m3 ->
  files_same_except dest m1 m3.
Proof. intros H12 H23 k d Hk. etrans; [by apply H12 | by apply H23]. Qed.

Lemma files_same_weaken dest m m' : files_same m m' -> files_same_except dest m m'.
Proof. intros H k d _. apply H. Qed.

(** ** What [ensureDir] and [writeFile] do to the file system *)

Module FsEffects.

Lemma removelast_neq {A} (l : list A) : l <> [] -> removelast l <> l.
Proof.
  intros Hne Heq. destruct (exists_last Hne) as (l' & x & ->).
  rewrite removelast_last in Heq.
  apply (f_equal (@length A)) in Heq. rewrite length_app in Heq. simpl in Heq. lia.
Qed.

Lemma parent_neq (k : Path.key) name : last k.2 = Some name -> Path.parent k <> k.
Proof.
  intros Hl Heq. destruct k as [abs comps]. unfold Path.parent in Heq. simpl in *.
  inversion Heq as [Hc]. apply removelast_neq in Hc; [done |].
  intros ->. discriminate.
Qed.

(** Listing a name changes no node's kind and no file. *)
Lemma add_entry_lookup k name m k' :
  (is_dir (Fs.add_entry k name m !! k') <-> is_dir (m !! k')) /\
  (forall d, Fs.add_entry k name m !! k' = Some (File d) <-> m !! k' = Some (File d)).
Proof.
  unfold Fs.add_entry. destruct (m !! k) as [[d|sz es]|] eqn:E; try done.
  destruct (bool_decide _); [done |].
  destruct (decide (k = k')) as [<-|Hne].
  - rewrite lookup_insert_eq, E. simpl. split; [done |]. intros d. split; discriminate.
  - by rewrite lookup_insert_ne.
Qed.

Lemma add_entry_other k name m k' :
  k <> k' -> Fs.add_entry k name m !! k' = m !! k'.
Proof.
  intros Hne. unfold Fs.add_entry. destruct (m !! k) as [[d|sz es]|]; try done.
  destruct (bool_decide _); [done |]. by rewrite lookup_insert_ne.
Qed.

(** Creating a directory where there was nothing, and listing it. *)
Lemma new_dir_lookup k name here m k' :
  m !! here = None ->
  let m1 := Fs.add_entry k name (<[here := Dir Fs.new_dir_size []]> m) in
  (is_dir (m1 !! k') <-> is_dir (m !! k') \/ k' = here) /\
  (forall d, m1 !! k' = Some (File d) <-> m !! k' = Some (File d)).
Proof.
  intros Hnone m1. subst m1.
  destruct (add_entry_lookup k name (<[here := Dir Fs.new_dir_size []]> m) k') as [Hd Hf].
  destruct (decide (here = k')) as [<-|Hne].
  - rewrite lookup_insert_eq in Hd, Hf. rewrite Hnone. split.
    + rewrite Hd. simpl. split; [by right | done].
    + intros d. rewrite Hf. split; discriminate.
  - rewrite lookup_insert_ne in Hd, Hf by done. split; [| done].
    rewrite Hd. split; [by left |]. intros [H | ->]; done.
Qed.


(** [mkdirp] keeps every file, with its data, and every directory. *)
Lemma mkdirp_keeps abs segs : forall stk m k,
  (forall d, (Fs.mkdirp m abs stk segs).1 !! k = Some (File d) <-> m !! k = Some (File d)) /\
  (is_dir (m !! k) -> is_dir ((Fs.mkdirp m abs stk segs).1 !! k)).
Proof.
  induction segs as [|seg rest IH]; intros stk m k; simpl.
  - done.
  - destruct (String.eqb seg ""); [apply IH |].
    destruct (m !! (abs, rev stk)) as [[d|sz es]|] eqn:Ecur; simpl; [done | | done].
    destruct (String.eqb seg "." || String.eqb seg ".."); [apply IH |].
    destruct (m !! (abs, rev (Path.norm_step (negb abs) stk seg)))
      as [[d'|sz' es']|] eqn:En; simpl; [done | apply IH |].
    destruct (IH (Path.norm_step (negb abs) stk seg)
                (Fs.add_entry (abs, rev stk) seg
                   (<[(abs, rev (Path.norm_step (negb abs) stk seg))
                      := Dir Fs.new_dir_size []]> m)) k) as [IHf IHd].
    destruct (new_dir_lookup (abs, rev stk) seg _ _ k En) as [Hd Hf]. split.
    + intros d. by rewrite IHf, Hf.
    + intros H. apply IHd, Hd. by left.
Qed.

Lemma ensureDir_fs dir w r w' :
  Fs.ensureDir dir w = (r, w') ->
  fs w' = fs w \/
  fs w' = (Fs.mkdirp (fs w) (Path.isAbsolute dir) [] (Path.segments dir)).1.
Proof.
  unfold Fs.ensureDir, bind, emit. simpl.
  destruct (String.eqb dir ""); inversion 1; subst; simpl; auto.
Qed.


Lemma ensureDir_kinds dir : fs_rel kinds_kept (Fs.ensureDir dir).
Proof.
  intros w r w' H. destruct (ensureDir_fs _ _ _ _ H) as [-> | ->];
    [apply kinds_kept_refl |].
  intros k.
  destruct (mkdirp_keeps (Path.isAbsolute dir) (Path.segments dir) [] (fs w) k)
    as [Hf Hd].
  split; [| done].
  destruct (fs w !! k) as [[d|sz es]|]; simpl; try done.
  intros _. by rewrite (proj2 (Hf d)).
Qed.

Lemma ensureDir_files dir : fs_rel files_same (Fs.ensureDir dir).
Proof.
  intros w r w' H. destruct (ensureDir_fs _ _ _ _ H) as [-> | ->];
    [apply files_same_refl |].
  intros k d. symmetry. apply mkdirp_keeps.
Qed.

(** What the device keeps of the data of a write. *)
Definition stored (fault : option nat) (data : string) : string :=
  match fault with
  | None => data
  | Some n => Str.of_chars (take n (Str.chars data))
  end.

Lemma writeFile_run fault p data w :
  Fs.writeFile fault p data w =
  let k := Path.key_of p in
  let t := trace w ++ [EvWriteFile p data] in
  if String.eqb p "" then (Throw (Fs.enoent "open" p), World (fs w) t)
  else
    match Fs.follow (fs w) p with
    | Fs.NoEntry => (Throw (Fs.enoent "open" p), World (fs w) t)
    | Fs.NotDir => (Throw (Fs.enotdir "open" p), World (fs w) t)
    | Fs.Reached _ =>
        if Path.endsWithSlash p then
          (Throw (match fs w !! k with
                  | Some (File _) => Fs.enotdir "open" p
                  | _ => Fs.eisdir "open" p
                  end), World (fs w) t)
        else
          match last k.2 with
          | None => (Throw (Fs.eisdir "open" p), World (fs w) t)
          | Some name =>
              if String.eqb name ".." then (Throw (Fs.eisdir "open" p), World (fs w) t)
              else
                match fs w !! Path.parent k with
                | Some (Dir _ _) =>
                    match fs w !! k with
                    | Some (Dir _ _) => (Throw (Fs.eisdir "open" p), World (fs w) t)
                    | _ =>
                        (match fault with
                         | None => Ok tt
                         | Some _ => Throw Fs.enospc_write
                         end,
                         World (Fs.add_entry (Path.parent k) name
                                  (<[k := File (stored fault data)]> (fs w))) t)
                    end
                | Some (File _) => (Throw (Fs.enotdir "open" p), World (fs w) t)
                | None => (Throw (Fs.enoent "open" p), World (fs w) t)
                end
          end
    end.
Proof.
  unfold Fs.writeFile, bind, emit, stored. simpl.
  destruct (String.eqb p ""); [done |].
  destruct (Fs.follow (fs w) p) as [stk| |] eqn:E; [| done | done].
  pose proof (FsFacts.follow_key _ _ _ E) as Hk. unfold Path.key_of in *.
  injection Hk as Hr. by rewrite Hr.
Qed.

(** The outcomes of a write: it fails at the open and changes nothing, or
    the file is opened and holds what the device kept of the data. *)
Lemma writeFile_cases fault p data w r w' :
  Fs.writeFile fault p data w = (r, w') ->
  (exists e, r = Throw e /\ fs w' = fs w) \/
  (exists name,
      last (Path.key_of p).2 = Some name /\
      is_dir (fs w !! Path.parent (Path.key_of p)) /\
      ~ is_dir (fs w !! Path.key_of p) /\
      fs w' = Fs.add_entry (Path.parent (Path.key_of p)) name
                (<[Path.key_of p := File (stored fault data)]> (fs w)) /\
      r = match fault with None => Ok tt | Some _ => Throw Fs.enospc_write end).
Proof.
  rewrite writeFile_run. cbv zeta.
  destruct (String.eqb p ""); [inversion 1; left; by eexists |].
  destruct (Fs.follow (fs w) p); [| inversion 1; left; by eexists ..].
  destruct (Path.endsWithSlash p); [inversion 1; left; by eexists |].
  destruct (last (Path.key_of p).2) as [name|] eqn:El; [| inversion 1; left; by eexists].
  destruct (String.eqb name ".."); [inversion 1; left; by eexists |].
  destruct (fs w !! Path.parent (Path.key_of p)) as [[d|sz es]|] eqn:Ep;
    try (inversion 1; left; by eexists).
  destruct (fs w !! Path.key_of p) as [[d|sz' es']|] eqn:Ek;
    inversion 1; subst; try (left; by eexists);
    right; exists name; simpl; tauto.
Qed.

(** A successful write leaves the data at the destination. *)
Lemma writeFile_ok fault p data w w' :
  Fs.writeFile fault p data w = (Ok tt, w') ->
  fs w' !! Path.key_of p = Some (File data) /\
  is_dir (fs w !! Path.parent (Path.key_of p)) /\
  trace w' = trace w ++ [EvWriteFile p data].
Proof.
  intros H. pose proof (FsFacts.writeFile_trace _ _ _ _ _ _ H) as Ht.
  apply writeFile_cases in H as [(e & He & _) | (name & El & Hp & _ & Hfs & Hr)];
    [discriminate |].
  destruct fault; [discriminate |]. simpl in Hfs.
  split; [| done]. rewrite Hfs.
  rewrite add_entry_other by (by eapply parent_neq).
  by rewrite lookup_insert_eq.
Qed.

Lemma writeFile_nodes fault p data w r w' :
  Fs.writeFile fault p data w = (r, w') ->
  forall k, (is_dir (fs w' !! k) <-> is_dir (fs w !! k)) /\
            (is_file (fs w !! k) -> is_file (fs w' !! k)).
Proof.
  intros H k.
  apply writeFile_cases in H as [(e & _ & ->) | (name & El & Hp & Hk & -> & _)];
    [done |].
  destruct (add_entry_lookup (Path.parent (Path.key_of p)) name
              (<[Path.key_of p := File (stored fault data)]> (fs w)) k) as [Hd Hf].
  destruct (decide (Path.key_of p = k)) as [<-|Hne].
  - rewrite lookup_insert_eq in Hd, Hf. split.
    + rewrite Hd. simpl. split; [done |]. intros Hd'. by apply Hk in Hd'.
    + intros _. by rewrite (proj2 (Hf _) eq_refl).
  - rewrite lookup_insert_ne in Hd, Hf by done. split; [done |].
    destruct (fs w !! k) as [[d|sz es]|] eqn:Ek; try done.
    intros _. by rewrite (proj2 (Hf d) eq_refl).
Qed.


Lemma writeFile_kinds fault p data : fs_rel kinds_kept (Fs.writeFile fault p data).
Proof.
  intros w r w' H k. destruct (writeFile_nodes _ _ _ _ _ _ H k) as [Hd Hf].
  split; [done | by apply Hd].
Qed.

(** A write touches no regular file but the one it names. *)
Lemma writeFile_files fault p data :
  fs_rel (files_same_except (Path.key_of p)) (Fs.writeFile fault p data).
Proof.
  intros w r w' H.
  apply writeFile_cases in H as [(e & _ & ->) | (name & El & Hp & Hk & -> & _)];
    [apply files_same_except_refl |].
  intros k d Hne.
  destruct (add_entry_lookup (Path.parent (Path.key_of p)) name
              (<[Path.key_of p := File (stored fault data)]> (fs w)) k) as [_ Hf].
  rewrite Hf. by rewrite lookup_insert_ne.
Qed.

End FsEffects.

(* ===================================================================== *)
(** * The Conversion Engine *)
(* ===================================================================== *)

Section EngineFacts.

Variable ext : Externals.
Variable cfg : config.

Lemma bind_assoc {A B C} (m : M A) (k : A -> M B) (h : B -> M C) w :
  bind (bind m k) h w = bind m (fun a => bind (k a) h) w.
Proof. unfold bind. by destruct (m w) as [[a|e] w1]. Qed.

Lemma bind_ext {A B} (m : M A) (k k' : A -> M B) w :
  (forall a w1, k a w1 = k' a w1) -> bind m k w = bind m k' w.
Proof. intros H. unfold bind. destruct (m w) as [[a|e] w1]; [apply H | done]. Qed.

(** [convertDocument] in steps: read, check the output format, ensure the
    output directory, produce the data, write it at the destination. *)
Lemma convertDocument_steps inputPath outputFormat outputPath w :
  convertDocument ext cfg inputPath outputFormat outputPath w =
  (let* document := readDocument ext cfg inputPath in
   if negb (includes (supported_formats_output cfg) outputFormat)
   then throw ("Unsupported output format: " +:+ outputFormat)
   else
     let* _ := Fs.ensureDir (output_directory cfg) in
     let* data := produce ext document outputFormat in
     let* _ := writeFile ext (finalOutputPath_of cfg inputPath outputFormat outputPath) data in
     ret (finalOutputPath_of cfg inputPath outputFormat outputPath)) w.
Proof.
  unfold convertDocument.
  apply bind_ext; intros doc w1.
  destruct (negb _); [done |].
  apply bind_ext; intros [] w2.
  unfold produce, convertToPDF.
  destruct (String.eqb outputFormat "pdf"); [| done].
  by rewrite bind_assoc.
Qed.

Lemma only_convertToHTML Q content fromFormat :
  (forall c, Q (EvCodec c)) -> only Q (convertToHTML ext content fromFormat).
Proof.
  intros Hc. unfold convertToHTML.
  repeat match goal with
         | |- only _ (if ?b then _ else _) => destruct b
         | |- only _ (ret _) => apply only_ret
         | |- only _ (call _ _) => by apply only_call
         end.
Qed.

Lemma keeps_convertToHTML content fromFormat :
  keeps_fs (convertToHTML ext content fromFormat).
Proof.
  unfold convertToHTML.
  repeat match goal with
         | |- keeps_fs (if ?b then _ else _) => destruct b
         | |- keeps_fs (ret _) => apply keeps_ret
         | |- keeps_fs (call _ _) => apply keeps_call
         end.
Qed.

Lemma only_produce Q doc outputFormat :
  (forall c, Q (EvCodec c)) -> only Q (produce ext doc outputFormat).
Proof.
  intros Hc. unfold produce, convertToMarkdown.
  repeat match goal with
         | |- only _ (if ?b then _ else _) => destruct b
         | |- only _ (bind _ _) => apply only_bind; [| intros ?]
         | |- only _ (ret _) => apply only_ret
         | |- only _ (throw _) => apply only_throw
         | |- only _ (call _ _) => by apply only_call
         | |- only _ (convertToHTML _ _ _) => by apply only_convertToHTML
         end.
Qed.

Lemma keeps_produce doc outputFormat : keeps_fs (produce ext doc outputFormat).
Proof.
  unfold produce, convertToMarkdown.
  repeat match goal with
         | |- keeps_fs (if ?b then _ else _) => destruct b
         | |- keeps_fs (bind _ _) => apply keeps_bind; [| intros ?]
         | |- keeps_fs (ret _) => apply keeps_ret
         | |- keeps_fs (throw _) => apply keeps_throw
         | |- keeps_fs (call _ _) => apply keeps_call
         | |- keeps_fs (convertToHTML _ _ _) => apply keeps_convertToHTML
         end.
Qed.

(** Only these four output formats produce data. *)
Lemma produce_ok_format doc outputFormat w data w' :
  produce ext doc outputFormat w = (Ok data, w') ->
  outputFormat = "pdf" \/ outputFormat = "html" \/ outputFormat = "md" \/
  outputFormat = "txt".
Proof.
  unfold produce.
  destruct (String.eqb outputFormat "pdf") eqn:E1; [apply String.eqb_eq in E1; auto |].
  destruct (String.eqb outputFormat "html") eqn:E2; [apply String.eqb_eq in E2; auto |].
  destruct (String.eqb outputFormat "md") eqn:E3; [apply String.eqb_eq in E3; auto |].
  destruct (String.eqb outputFormat "txt") eqn:E4; [apply String.eqb_eq in E4; auto |].
  discriminate.
Qed.

(** The calls of a conversion: those of the read, [ensureDir] on the
    configured output directory, codecs, and one write at the
    destination. *)
Lemma only_convertDocument Q inputPath outputFormat outputPath :
  Q (EvStat inputPath) -> Q (EvReadFile inputPath) -> (forall c, Q (EvCodec c)) ->
  Q (EvEnsureDir (output_directory cfg)) ->
  (forall data,
      Q (EvWriteFile (finalOutputPath_of cfg inputPath outputFormat outputPath) data)) ->
  only Q (convertDocument ext cfg inputPath outputFormat outputPath).
Proof.
  intros Hs Hr Hc He Hw w r w' H. rewrite convertDocument_steps in H.
  revert w r w' H. change (only Q
    (let* document := readDocument ext cfg inputPath in
     if negb (includes (supported_formats_output cfg) outputFormat)
     then throw ("Unsupported output format: " +:+ outputFormat)
     else
       let* _ := Fs.ensureDir (output_directory cfg) in
       let* data := produce ext document outputFormat in
       let* _ := writeFile ext
                   (finalOutputPath_of cfg inputPath outputFormat outputPath) data in
       ret (finalOutputPath_of cfg inputPath outputFormat outputPath))).
  apply only_bind; [by apply only_readDocument | intros doc].
  destruct (negb _); [apply only_throw |].
  apply only_bind; [by apply FsFacts.only_ensureDir | intros _].
  apply only_bind; [by apply only_produce | intros data].
  apply only_bind; [by apply FsFacts.only_writeFile | intros _].
  apply only_ret.
Qed.

End EngineFacts.

Section EngineResults.

Variable ext : Externals.
Variable cfg : config.

(** What a successful conversion went through. *)
Lemma convertDocument_ok_inv inputPath outputFormat outputPath w d w' :
  convertDocument ext cfg inputPath outputFormat outputPath w = (Ok d, w') ->
  exists doc w1 w2 data w3,
    readDocument ext cfg inputPath w = (Ok doc, w1) /\
    includes (supported_formats_output cfg) outputFormat = true /\
    Fs.ensureDir (output_directory cfg) w1 = (Ok tt, w2) /\
    produce ext doc outputFormat w2 = (Ok data, w3) /\
    writeFile ext d data w3 = (Ok tt, w') /\
    d = finalOutputPath_of cfg inputPath outputFormat outputPath.
Proof.
  rewrite convertDocument_steps. intros H.
  apply bind_ok_inv in H as (doc & w1 & Hread & H).
  destruct (includes _ _) eqn:Hinc; simpl in H; [| discriminate].
  apply bind_ok_inv in H as ([] & w2 & Hens & H).
  apply bind_ok_inv in H as (data & w3 & Hprod & H).
  apply bind_ok_inv in H as ([] & w4 & Hwrite & H).
  inversion H; subst. by exists doc, w1, w2, data, w3.
Qed.

(** The directories a conversion may create lie at the configured output
    directory or above it, whatever the destination. *)
Lemma convertDocument_rel (R : gmap Path.key node -> gmap Path.key node -> Prop)
      inputPath outputFormat outputPath :
  (forall m, R m m) -> (forall m1 m2 m3, R m1 m2 -> R m2 m3 -> R m1 m3) ->
  fs_rel R (Fs.ensureDir (output_directory cfg)) ->
  (forall fault p data, fs_rel R (Fs.writeFile fault p data)) ->
  fs_rel R (convertDocument ext cfg inputPath outputFormat outputPath).
Proof.
  intros Hrefl Htrans Hens Hwrite w r w' H.
  rewrite convertDocument_steps in H. revert w r w' H.
  apply fs_rel_bind; [done | by apply fs_rel_keeps, keeps_readDocument | intros doc].
  destruct (negb _); [by apply fs_rel_throw |].
  apply fs_rel_bind; [done | done | intros _].
  apply fs_rel_bind; [done | by apply fs_rel_keeps, keeps_produce | intros data].
  apply fs_rel_bind; [done | apply Hwrite | intros _].
  by apply fs_rel_ret.
Qed.


(** A conversion removes nothing and turns no file into a directory or
    directory into a file. *)
Lemma convertDocument_kinds inputPath outputFormat outputPath :
  fs_rel kinds_kept (convertDocument ext cfg inputPath outputFormat outputPath).
Proof.
  apply convertDocument_rel.
  - apply kinds_kept_refl.
  - apply kinds_kept_trans.
  - apply FsEffects.ensureDir_kinds.
  - intros. apply FsEffects.writeFile_kinds.
Qed.

Lemma produce_docx doc w :
  produce ext doc "docx" w = (Throw (not_implemented_message "docx"), w).
Proof. reflexivity. Qed.

(** A Markdown source that was read is the decoded text of its file. *)
Lemma readDocument_md_inv p w doc w1 :
  detectFormat p = "md" ->
  readDocument ext cfg p w = (Ok doc, w1) ->
  exists data, Fs.resolve (fs w) p = Fs.Found (File data) /\
               doc = Document (utf8_decode ext data) "md" None.
Proof.
  intros Hfmt. unfold readDocument. rewrite Hfmt. intros H.
  apply bind_ok_inv in H as (st & w0 & Hst & H).
  destruct (_ >? _)%Z; [discriminate |].
  pose proof (FsFacts.stat_world _ _ _ _ Hst) as ->.
  unfold decode in H. simpl in H. unfold readMarkdown, readFile_utf8 in H.
  apply bind_ok_inv in H as (content & w2 & Hc & H).
  apply bind_ok_inv in Hc as (buffer & w3 & Hb & Hc).
  rewrite FsFacts.readFile_run in Hb. simpl in Hb.
  destruct (Fs.resolve (fs w) p) as [[data|sz es]| |]; inversion Hb; subst.
  inversion Hc; subst. inversion H; subst. by exists buffer.
Qed.

End EngineResults.

Section EngineMore.

Variable ext : Externals.
Variable cfg : config.

(** A relation that [ensureDir] on the output directory and the write at
    the destination keep is kept by the conversion. *)
Lemma convertDocument_rel_dest (R : gmap Path.key node -> gmap Path.key node -> Prop)
      inputPath outputFormat outputPath :
  (forall m, R m m) -> (forall m1 m2 m3, R m1 m2 -> R m2 m3 -> R m1 m3) ->
  fs_rel R (Fs.ensureDir (output_directory cfg)) ->
  (forall data,
      fs_rel R (writeFile ext (finalOutputPath_of cfg inputPath outputFormat outputPath) data)) ->
  fs_rel R (convertDocument ext cfg inputPath outputFormat outputPath).
Proof.
  intros Hrefl Htrans Hens Hwrite w r w' H.
  rewrite convertDocument_steps in H. revert w r w' H.
  apply fs_rel_bind; [done | by apply fs_rel_keeps, keeps_readDocument | intros doc].
  destruct (negb _); [by apply fs_rel_throw |].
  apply fs_rel_bind; [done | done | intros _].
  apply fs_rel_bind; [done | by apply fs_rel_keeps, keeps_produce | intros data].
  apply fs_rel_bind; [done | done | intros _].
  by apply fs_rel_ret.
Qed.

(** A conversion touches no regular file but its destination. *)
Lemma convertDocument_files inputPath outputFormat outputPath :
  fs_rel (files_same_except
            (Path.key_of (finalOutputPath_of cfg inputPath outputFormat outputPath)))
         (convertDocument ext cfg inputPath outputFormat outputPath).
Proof.
  apply convertDocument_rel_dest.
  - apply files_same_except_refl.
  - apply files_same_except_trans.
  - intros w0 r0 w0' H. apply files_same_weaken. by eapply FsEffects.ensureDir_files.
  - intros data. apply FsEffects.writeFile_files.
Qed.

(** What was produced from a document for the formats that need no codec. *)
Lemma produce_txt doc w : produce ext doc "txt" w = (Ok (content doc), w).
Proof. reflexivity. Qed.

Lemma produce_md_plain doc w :
  format doc <> "html" -> produce ext doc "md" w = (Ok (content doc), w).
Proof.
  intros Hf. unfold produce, convertToMarkdown. simpl.
  apply String.eqb_neq in Hf. rewrite Hf. by destruct (String.eqb (format doc) "md").
Qed.

End EngineMore.

(* ===================================================================== *)
(** * Output format docx (claim C4) *)
(* ===================================================================== *)

(** C4, as the code has it.  A request for output format docx always fails
    and writes no file, whatever the input path and input format.  The error
    is the conversion-not-implemented error whenever the source has been
    read, docx is among the configured output formats and the output
    directory could be ensured; a request that fails earlier reports the
    earlier error: that of the read, [Unsupported output format: docx], or
    that of [ensureDir]. *)
Theorem docx_output_always_fails
        (ext : Externals) (cfg : config) (inputPath : string)
        (outputPath : option string) (w : world) :
  (exists msg w',
      convertDocument ext cfg inputPath "docx" outputPath w = (Throw msg, w') /\
      exists evs, trace w' = trace w ++ evs /\ Forall (fun e => is_write e = false) evs) /\
  (forall doc w1 w2,
      readDocument ext cfg inputPath w = (Ok doc, w1) ->
      includes (supported_formats_output cfg) "docx" = true ->
      Fs.ensureDir (output_directory cfg) w1 = (Ok tt, w2) ->
      convertDocument ext cfg inputPath "docx" outputPath w =
        (Throw (not_implemented_message "docx"), w2)) /\
  (forall e w1,
      readDocument ext cfg inputPath w = (Throw e, w1) ->
      convertDocument ext cfg inputPath "docx" outputPath w = (Throw e, w1)) /\
  (forall doc w1,
      readDocument ext cfg inputPath w = (Ok doc, w1) ->
      includes (supported_formats_output cfg) "docx" = false ->
      convertDocument ext cfg inputPath "docx" outputPath w =
        (Throw "Unsupported output format: docx", w1)) /\
  (forall doc w1 e w2,
      readDocument ext cfg inputPath w = (Ok doc, w1) ->
      includes (supported_formats_output cfg) "docx" = true ->
      Fs.ensureDir (output_directory cfg) w1 = (Throw e, w2) ->
      convertDocument ext cfg inputPath "docx" outputPath w = (Throw e, w2)).
Proof.
  assert (forall doc w1 w2,
      readDocument ext cfg inputPath w = (Ok doc, w1) ->
      includes (supported_formats_output cfg) "docx" = true ->
      Fs.ensureDir (output_directory cfg) w1 = (Ok tt, w2) ->
      convertDocument ext cfg inputPath "docx" outputPath w =
        (Throw (not_implemented_message "docx"), w2)) as Hreach.
  { intros doc w1 w2 Hread Hinc Hens. rewrite convertDocument_steps.
    rewrite (bind_ok _ _ _ _ _ Hread), Hinc. simpl.
    rewrite (bind_ok _ _ _ _ _ Hens).
    by rewrite (bind_throw _ _ _ _ _ (produce_docx ext doc w2)). }
  assert (forall e w1,
      readDocument ext cfg inputPath w = (Throw e, w1) ->
      convertDocument ext cfg inputPath "docx" outputPath w = (Throw e, w1)) as Hearly.
  { intros e w1 Hread. rewrite convertDocument_steps.
    by rewrite (bind_throw _ _ _ _ _ Hread). }
  assert (forall doc w1,
      readDocument ext cfg inputPath w = (Ok doc, w1) ->
      includes (supported_formats_output cfg) "docx" = false ->
      convertDocument ext cfg inputPath "docx" outputPath w =
        (Throw "Unsupported output format: docx", w1)) as Hunsup.
  { intros doc w1 Hread Hinc. rewrite convertDocument_steps.
    by rewrite (bind_ok _ _ _ _ _ Hread), Hinc. }
  assert (forall doc w1 e w2,
      readDocument ext cfg inputPath w = (Ok doc, w1) ->
      includes (supported_formats_output cfg) "docx" = true ->
      Fs.ensureDir (output_directory cfg) w1 = (Throw e, w2) ->
      convertDocument ext cfg inputPath "docx" outputPath w = (Throw e, w2)) as Hmk.
  { intros doc w1 e w2 Hread Hinc Hens. rewrite convertDocument_steps.
    rewrite (bind_ok _ _ _ _ _ Hread), Hinc. simpl.
    by rewrite (bind_throw _ _ _ _ _ Hens). }
  split; [| by repeat split].
  destruct (readDocument ext cfg inputPath w) as [[doc|e] w1] eqn:Hread.
  - destruct (only_readDocument ext cfg (fun e => is_write e = false) inputPath
                eq_refl eq_refl (fun _ => eq_refl) _ _ _ Hread) as (evs & Ht & Hf).
    destruct (includes (supported_formats_output cfg) "docx") eqn:Hinc.
    + destruct (Fs.ensureDir (output_directory cfg) w1) as [[[]|e] w2] eqn:Hens.
      * exists (not_implemented_message "docx"), w2. split; [by eapply Hreach |].
        exists (evs ++ [EvEnsureDir (output_directory cfg)]).
        rewrite (FsFacts.ensureDir_trace _ _ _ _ Hens), Ht, app_assoc.
        split; [done |]. apply Forall_app. split; [done | by constructor].
      * exists e, w2. split; [by eapply Hmk |].
        exists (evs ++ [EvEnsureDir (output_directory cfg)]).
        rewrite (FsFacts.ensureDir_trace _ _ _ _ Hens), Ht, app_assoc.
        split; [done |]. apply Forall_app. split; [done | by constructor].
    + exists "Unsupported output format: docx", w1. split; [by eapply Hunsup |].
      by exists evs.
  - destruct (only_readDocument ext cfg (fun e => is_write e = false) inputPath
                eq_refl eq_refl (fun _ => eq_refl) _ _ _ Hread) as (evs & Ht & Hf).
    exists e, w1. split; [by apply Hearly |]. by exists evs.
Qed.

Lemma docx_output_always_fails_witness :
  convertDocument Demo.ext default_config "in/notes.md" "docx" None Demo.w0 =
    (Throw "Conversion to docx not implemented",
     (Fs.ensureDir "./converted_documents"
        (World Demo.fs0 [EvStat "in/notes.md"; EvReadFile "in/notes.md"])).2).
Proof.
  pose proof (docx_output_always_fails Demo.ext default_config "in/notes.md" None Demo.w0)
    as (_ & H & _).
  apply (H (Document "# Title" "md" None)
           (World Demo.fs0 [EvStat "in/notes.md"; EvReadFile "in/notes.md"])).
  - vm_compute. reflexivity.
  - reflexivity.
  - vm_compute. reflexivity.
Defined.

(** C4 as stated fails: on a text file above the size limit, a request for
    docx fails with the size-limit error, not with the
    conversion-not-implemented error; nor is that the error on a path that
    names no file. *)
Lemma docx_request_reports_earlier_error :
  (convertDocument Demo.ext Demo.tiny_config "in/notes.txt" "docx" None Demo.w0).1 =
    Throw "File size exceeds maximum limit of 7 bytes" /\
  (convertDocument Demo.ext Demo.tiny_config "in/notes.txt" "docx" None Demo.w0).1 <>
    Throw (not_implemented_message "docx") /\
  (convertDocument Demo.ext default_config "in/notes" "docx" None Demo.w0).1 <>
    Throw (not_implemented_message "docx").
Proof. vm_compute. repeat split; discriminate. Qed.

(* ===================================================================== *)
(** * The output directory (claim C9) *)
(* ===================================================================== *)



(** [ensureDir] takes the path as it is written: asked for [out/../x], it
    creates [out] as well as [x]. *)
Example ensureDir_follows_the_path_as_written :
  let run := Fs.ensureDir "out/../x" Demo.w0 in
  run.1 = Ok tt /\
  is_dir (fs run.2 !! (false, ["out"])) /\ is_dir (fs run.2 !! (false, ["x"])) /\
  Path.trail "out/../x" = [(false, ["out"]); (false, []); (false, ["x"])].
Proof. vm_compute. split; [reflexivity |]. split; [exact I |]. split; [exact I | reflexivity]. Qed.




(* ===================================================================== *)
(** * Markdown to Markdown (claim C6) *)
(* ===================================================================== *)

(** C6.  Converting a Markdown source to format md is the identity on the
    content: whenever the conversion succeeds, the string written at the
    destination is exactly the string read from the input file, the write is
    the last call of the run, and afterwards the destination holds that
    content.  When the input bytes decode to themselves (valid UTF-8), the
    output file is byte-identical to the input file. *)
Theorem markdown_to_markdown_is_identity
        (ext : Externals) (cfg : config) (inputPath : string)
        (outputPath : option string) (w : world) (d : string) (w' : world) :
  detectFormat inputPath = "md" ->
  convertDocument ext cfg inputPath "md" outputPath w = (Ok d, w') ->
  exists data,
    Fs.resolve (fs w) inputPath = Fs.Found (File data) /\
    (readDocument ext cfg inputPath w).1 = Ok (Document (utf8_decode ext data) "md" None) /\
    last (trace w') = Some (EvWriteFile d (utf8_decode ext data)) /\
    fs w' !! Path.key_of d = Some (File (utf8_decode ext data)) /\
    (utf8_decode ext data = data -> fs w' !! Path.key_of d = Some (File data)).
Proof.
  intros Hfmt Hrun.
  apply convertDocument_ok_inv in Hrun
    as (doc & w1 & w2 & out & w3 & Hread & Hinc & Hens & Hprod & Hwrite & ->).
  destruct (readDocument_md_inv ext cfg _ _ _ _ Hfmt Hread) as (data & Hres & ->).
  exists data. rewrite Hread.
  assert (out = utf8_decode ext data) as ->.
  { unfold produce, convertToMarkdown in Hprod. simpl in Hprod. by inversion Hprod. }
  apply FsEffects.writeFile_ok in Hwrite as (Hfile & _ & Ht).
  repeat split; try done.
  - rewrite Ht. apply last_snoc.
  - intros Hvalid. by rewrite Hvalid in Hfile.
Qed.

Lemma markdown_to_markdown_is_identity_witness :
  fs (convertDocument Demo.ext default_config "in/notes.md" "md" None Demo.w0).2
    !! (false, ["converted_documents"; "notes.md"]) = Some (File "# Title").
Proof.
  destruct (convertDocument Demo.ext default_config "in/notes.md" "md" None Demo.w0)
    as [r w'] eqn:Hrun.
  assert (r = Ok "converted_documents/notes.md") as ->.
  { apply (f_equal fst) in Hrun. vm_compute in Hrun. by inversion Hrun. }
  destruct (markdown_to_markdown_is_identity Demo.ext default_config "in/notes.md" None
              Demo.w0 "converted_documents/notes.md" w' eq_refl Hrun)
    as (data & Hres & _ & _ & _ & Hsame).
  vm_compute in Hres. inversion Hres; subst. by apply Hsame.
Defined.

(* ===================================================================== *)
(** * Facts about paths *)
(* ===================================================================== *)

Module PathFacts.

Lemma segments_of_nonempty l : Path.segments_of l <> [].
Proof.
  destruct l as [|c l]; simpl; [done |].
  destruct (Ascii.eqb c Path.slash); [done |].
  by destruct (Path.segments_of l).
Qed.

Lemma segments_of_app l k :
  Path.segments_of (l ++ Path.slash :: k) = Path.segments_of l ++ Path.segments_of k.
Proof.
  induction l as [|c l IH]; simpl.
  - reflexivity.
  - destruct (Ascii.eqb c Path.slash); [by rewrite IH |].
    rewrite IH. pose proof (segments_of_nonempty l).
    by destruct (Path.segments_of l).
Qed.

Lemma segments_of_noslash l :
  Forall (fun c => c <> Path.slash) l -> Path.segments_of l = [l].
Proof.
  induction 1 as [|c l Hc _ IH]; simpl; [done |].
  apply Ascii.eqb_neq in Hc. by rewrite Hc, IH.
Qed.

Lemma segments_of_all_noslash l :
  Forall (Forall (fun c => c <> Path.slash)) (Path.segments_of l).
Proof.
  induction l as [|c l IH]; simpl; [by repeat constructor |].
  destruct (Ascii.eqb c Path.slash) eqn:E; [by constructor |].
  apply Ascii.eqb_neq in E.
  destruct (Path.segments_of l) as [|seg segs]; [by repeat constructor |].
  inversion IH; subst. constructor; [by constructor | done].
Qed.

Lemma segments_noslash p : Forall noslash (Path.segments p).
Proof.
  unfold Path.segments, noslash. apply Forall_map.
  eapply Forall_impl; [apply segments_of_all_noslash |].
  intros l Hl. simpl. by rewrite StrFacts.chars_of_chars.
Qed.

Lemma segments_app_slash a b :
  Path.segments (a +:+ "/" +:+ b) = Path.segments a ++ Path.segments b.
Proof.
  unfold Path.segments. rewrite !StrFacts.chars_app. simpl.
  by rewrite segments_of_app, map_app.
Qed.

Lemma segments_plain n : noslash n -> Path.segments n = [n].
Proof.
  intros H. unfold Path.segments. rewrite (segments_of_noslash _ H). simpl.
  by rewrite StrFacts.of_chars_chars.
Qed.

Lemma segments_join comps :
  comps <> [] -> Forall noslash comps -> Path.segments (Str.join "/" comps) = comps.
Proof.
  induction comps as [|x rest IH]; [done |]. intros _ Hall.
  inversion Hall as [|? ? Hx Hrest]; subst.
  destruct rest as [|y rest'].
  - simpl. by apply segments_plain.
  - change (Str.join "/" (x :: y :: rest'))
      with (x +:+ "/" +:+ Str.join "/" (y :: rest')).
    rewrite segments_app_slash, (segments_plain x Hx), IH; done.
Qed.

(** ** Normal forms of [normalizeString] *)

Lemma eqb_false (s t : string) : s <> t -> String.eqb s t = false.
Proof. by apply String.eqb_neq. Qed.

Lemma norm_step_plain allow stk n : plain n -> Path.norm_step allow stk n = n :: stk.
Proof.
  intros (H0 & H1 & H2 & _). unfold Path.norm_step.
  by rewrite (eqb_false _ _ H0), (eqb_false _ _ H1), (eqb_false _ _ H2).
Qed.

Lemma norm_step_wf allow stk seg :
  noslash seg -> normal_stack allow stk -> normal_stack allow (Path.norm_step allow stk seg).
Proof.
  intros Hns (plains & k & -> & Hpl & Hk). unfold Path.norm_step.
  destruct (String.eqb seg "") eqn:E0; [by exists plains, k |].
  destruct (String.eqb seg ".") eqn:E1; [by exists plains, k |]. simpl.
  destruct (String.eqb seg "..") eqn:E2.
  - destruct plains as [|top rest]; simpl.
    + destruct k as [|k]; simpl.
      * destruct allow; [by exists [], 1 | by exists [], 0].
      * destruct allow; [by exists [], (S (S k)) | by exists [], (S k)].
    + inversion Hpl as [|? ? Htop Hrest]; subst.
      destruct Htop as (_ & _ & Hdd & _). rewrite (eqb_false _ _ Hdd).
      by exists rest, k.
  - exists (seg :: plains), k. split; [done |]. split; [| done].
    constructor; [| done].
    apply String.eqb_neq in E0, E1, E2. done.
Qed.

Lemma fold_norm_wf allow segs : forall stk,
  Forall noslash segs -> normal_stack allow stk ->
  normal_stack allow (fold_left (Path.norm_step allow) segs stk).
Proof.
  induction segs as [|seg segs IH]; intros stk Hall Hwf; simpl; [done |].
  inversion Hall; subst. apply IH; [done |]. by apply norm_step_wf.
Qed.

Lemma fold_norm_plains allow l : forall stk,
  Forall plain l -> fold_left (Path.norm_step allow) l stk = rev l ++ stk.
Proof.
  induction l as [|x l IH]; intros stk Hall; simpl; [done |].
  inversion Hall; subst. rewrite norm_step_plain by done.
  rewrite IH by done. by rewrite <- app_assoc.
Qed.

Lemma fold_norm_dotdots k : forall j,
  fold_left (Path.norm_step true) (repeat ".." k) (repeat ".." j) = repeat ".." (k + j).
Proof.
  induction k as [|k IH]; intros j; simpl; [done |].
  replace (Path.norm_step true (repeat ".." j) "..") with (repeat ".." (S j)).
  - rewrite IH. by replace (k + S j) with (S (k + j)) by lia.
  - by destruct j.
Qed.

Lemma rev_repeat {A} (x : A) k : rev (repeat x k) = repeat x k.
Proof.
  induction k as [|k IH]; simpl; [done |]. rewrite IH.
  clear IH. induction k as [|k IH]; simpl; [done |]. by rewrite IH.
Qed.

(** Normalizing a normal form gives it back. *)
Lemma fold_norm_stable allow stk :
  normal_stack allow stk -> fold_left (Path.norm_step allow) (rev stk) [] = stk.
Proof.
  intros (plains & k & -> & Hpl & Hk).
  rewrite rev_app_distr, rev_repeat, fold_left_app.
  assert (fold_left (Path.norm_step allow) (repeat ".." k) [] = repeat ".." k) as ->.
  { destruct allow.
    - etrans; [exact (fold_norm_dotdots k 0) |]. by replace (k + 0) with k by lia.
    - by rewrite Hk. }
  rewrite fold_norm_plains by (by apply Forall_rev).
  by rewrite rev_involutive.
Qed.

Lemma wf_noslash allow stk : normal_stack allow stk -> Forall noslash stk.
Proof.
  intros (plains & k & -> & Hpl & _). apply Forall_app. split.
  - eapply Forall_impl; [exact Hpl |]. by intros n (_ & _ & _ & H).
  - clear. induction k as [|k IH]; simpl; constructor; [| done].
    unfold noslash. simpl. by repeat constructor.
Qed.

Lemma wf_nonempty allow stk : normal_stack allow stk -> Forall (fun s => s <> "") stk.
Proof.
  intros (plains & k & -> & Hpl & _). apply Forall_app. split.
  - eapply Forall_impl; [exact Hpl |]. by intros n (H & _).
  - clear. induction k as [|k IH]; simpl; constructor; done.
Qed.

Lemma normalizeString_wf allow p :
  normal_stack allow (fold_left (Path.norm_step allow) (Path.segments p) []).
Proof.
  apply fold_norm_wf; [apply segments_noslash |]. by exists [], 0.
Qed.

Lemma fold_norm_skip_empty allow segs stk :
  fold_left (Path.norm_step allow) ("" :: segs) stk =
  fold_left (Path.norm_step allow) segs stk.
Proof. reflexivity. Qed.

End PathFacts.

Module KeyFacts.

Import PathFacts.

Lemma join_cons_nonempty x rest : x <> "" -> Str.join "/" (x :: rest) <> "".
Proof.
  intros Hx. destruct x as [|c x]; [done |]. destruct rest; simpl; done.
Qed.

Lemma isAbsolute_join x rest t :
  x <> "" -> noslash x -> Path.isAbsolute (Str.join "/" (x :: rest) +:+ t) = false.
Proof.
  intros Hx Hns. destruct x as [|c x]; [done |].
  unfold noslash in Hns. simpl in Hns. inversion Hns as [|? ? Hc _]; subst.
  apply Ascii.eqb_neq in Hc. destruct rest; simpl; done.
Qed.

Lemma append_empty_r s : s +:+ "" = s.
Proof.
  induction s as [|c s IH]; [done |].
  change (String c (s +:+ "") = String c s). by rewrite IH.
Qed.

Lemma fold_norm_snoc_empty allow segs stk :
  fold_left (Path.norm_step allow) (segs ++ [""]) stk =
  fold_left (Path.norm_step allow) segs stk.
Proof. by rewrite fold_left_app. Qed.

(** The key of a path is that of its normalization. *)
Lemma key_of_normalize p : Path.key_of (Path.normalize p) = Path.key_of p.
Proof.
  unfold Path.normalize. destruct (String.eqb p "") eqn:E0.
  { apply String.eqb_eq in E0. by subst. }
  unfold Path.key_of at 2. unfold Path.normalizeString.
  set (abs := Path.isAbsolute p).
  pose proof (normalizeString_wf (negb abs) p) as Hwf.
  set (stk := fold_left (Path.norm_step (negb abs)) (Path.segments p) []) in *.
  pose proof (fold_norm_stable _ _ Hwf) as Hstable.
  pose proof (wf_noslash _ _ Hwf) as Hns.
  pose proof (wf_nonempty _ _ Hwf) as Hne.
  destruct (rev stk) as [|x rest] eqn:Ecomps.
  { simpl. destruct abs; [done |]. by destruct (Path.endsWithSlash p). }
  assert (Forall noslash (x :: rest)) as Hns'.
  { rewrite <- Ecomps. by apply Forall_rev. }
  assert (Forall (fun s => s <> "") (x :: rest)) as Hne'.
  { rewrite <- Ecomps. by apply Forall_rev. }
  inversion Hns' as [|? ? Hx_ns _]; subst. inversion Hne' as [|? ? Hx_ne _]; subst.
  rewrite (eqb_false _ _ (join_cons_nonempty x rest Hx_ne)).
  assert (Path.segments (Str.join "/" (x :: rest)) = x :: rest) as Hsegs
    by (by apply segments_join).
  unfold Path.key_of, Path.normalizeString.
  destruct abs; destruct (Path.endsWithSlash p);
    change (negb true) with false in *; change (negb false) with true in *.
  - change ("/" +:+ Str.join "/" (x :: rest) +:+ "/")
      with ("" +:+ "/" +:+ (Str.join "/" (x :: rest) +:+ "/" +:+ "")).
    rewrite !segments_app_slash, Hsegs.
    change (Path.isAbsolute _) with true. change (negb true) with false.
    change (Path.segments "") with [""].
    change ([""] ++ (x :: rest) ++ [""]) with ("" :: ((x :: rest) ++ [""])).
    rewrite fold_norm_skip_empty, fold_norm_snoc_empty, Hstable. by rewrite Ecomps.
  - change ("/" +:+ Str.join "/" (x :: rest) +:+ "")
      with ("" +:+ "/" +:+ (Str.join "/" (x :: rest) +:+ "")).
    rewrite append_empty_r.
    rewrite segments_app_slash, Hsegs.
    change (Path.isAbsolute _) with true. change (negb true) with false.
    change (Path.segments "") with [""].
    change ([""] ++ (x :: rest)) with ("" :: (x :: rest)).
    rewrite fold_norm_skip_empty, Hstable. by rewrite Ecomps.
  - change ("" +:+ Str.join "/" (x :: rest) +:+ "/")
      with (Str.join "/" (x :: rest) +:+ "/" +:+ "").
    rewrite (isAbsolute_join x rest _ Hx_ne Hx_ns). change (negb false) with true.
    rewrite segments_app_slash, Hsegs.
    change (Path.segments "") with [""].
    rewrite fold_norm_snoc_empty, Hstable. by rewrite Ecomps.
  - change ("" +:+ Str.join "/" (x :: rest) +:+ "")
      with (Str.join "/" (x :: rest) +:+ "").
    rewrite (isAbsolute_join x rest _ Hx_ne Hx_ns). change (negb false) with true.
    rewrite append_empty_r.
    rewrite Hsegs, Hstable. by rewrite Ecomps.
Qed.

Lemma isAbsolute_app a t : a <> "" -> Path.isAbsolute (a +:+ t) = Path.isAbsolute a.
Proof. by destruct a. Qed.

Lemma plain_not_absolute n : plain n -> Path.isAbsolute n = false.
Proof.
  intros (Hne & _ & _ & Hns). destruct n as [|c n]; [done |].
  unfold noslash in Hns. simpl in Hns. inversion Hns as [|? ? Hc _]; subst.
  by apply Ascii.eqb_neq in Hc.
Qed.

(** Joining a plain name to a directory gives an entry of that directory. *)
Lemma key_of_join dir n :
  plain n ->
  Path.key_of (Path.join dir n) = ((Path.key_of dir).1, (Path.key_of dir).2 ++ [n]).
Proof.
  intros Hpl. pose proof Hpl as (Hne & _ & _ & Hns).
  assert (forall a, Path.join a n =
                    Path.normalize (if String.eqb a "" then n else a +:+ "/" +:+ n)) as Hj.
  { intros a. destruct a; destruct n; done. }
  rewrite Hj, key_of_normalize. destruct (String.eqb dir "") eqn:E0.
  - apply String.eqb_eq in E0. subst. unfold Path.key_of, Path.normalizeString.
    rewrite (plain_not_absolute n Hpl). simpl. rewrite (segments_plain n Hns). simpl.
    by rewrite norm_step_plain.
  - apply String.eqb_neq in E0. unfold Path.key_of, Path.normalizeString.
    rewrite (isAbsolute_app dir _ E0). simpl. f_equal.
    rewrite segments_app_slash, (segments_plain n Hns), fold_left_app. simpl.
    by rewrite norm_step_plain.
Qed.

Lemma inside_join dir n : plain n -> Path.inside dir (Path.join dir n).
Proof. intros Hpl. exists n. by apply key_of_join. Qed.

(** ** Base names *)

Lemma lastComponent_noslash p : noslash (Path.lastComponent p).
Proof.
  unfold Path.lastComponent.
  pose proof (segments_noslash p) as Hall. apply Forall_rev in Hall.
  revert Hall. generalize (rev (Path.segments p)). intros l Hall.
  assert (Forall noslash (filter (fun seg => seg <> "") l)) as Hf.
  { apply Forall_forall. intros seg Hseg. apply list_elem_of_filter in Hseg as [_ Hseg].
    rewrite Forall_forall in Hall. by apply Hall. }
  destruct (filter _ l); [by constructor | by inversion Hf].
Qed.

Lemma basename_noslash p suffix : noslash (Path.basename p suffix).
Proof.
  unfold Path.basename. pose proof (lastComponent_noslash p) as Hc.
  destruct (String.eqb suffix ""); [done |].
  destruct (String.eqb suffix p); [by constructor |].
  destruct (_ && _); [| done].
  unfold noslash in *. rewrite StrFacts.chars_of_chars. by apply Forall_take.
Qed.

Lemma length_app s t : String.length (s +:+ t) = String.length s + String.length t.
Proof. induction s as [|c s IH]; simpl; [done | by rewrite IH]. Qed.

Lemma noslash_app s t : noslash s -> noslash t -> noslash (s +:+ t).
Proof.
  unfold noslash. rewrite StrFacts.chars_app. intros. by apply Forall_app.
Qed.

(** The file name [convertDocument] builds is a plain name. *)
Lemma output_name_plain base fmt :
  noslash base ->
  fmt = "pdf" \/ fmt = "html" \/ fmt = "md" \/ fmt = "txt" ->
  plain (base +:+ "." +:+ fmt).
Proof.
  intros Hb Hfmt.
  assert (2 <= String.length fmt /\ noslash fmt) as [Hlen Hns].
  { destruct Hfmt as [-> | [-> | [-> | ->]]]; (split; [simpl; lia |]);
      unfold noslash; simpl; by repeat constructor. }
  assert (3 <= String.length (base +:+ "." +:+ fmt)) as Hl.
  { rewrite !length_app. simpl. lia. }
  repeat split.
  - intros E. rewrite E in Hl. simpl in Hl. lia.
  - intros E. rewrite E in Hl. simpl in Hl. lia.
  - intros E. rewrite E in Hl. simpl in Hl. lia.
  - apply noslash_app; [done |]. apply noslash_app; [| done].
    unfold noslash. simpl. by repeat constructor.
Qed.

End KeyFacts.

(* ===================================================================== *)
(** * The destination path (claim C5) *)
(* ===================================================================== *)

(** C5.  For every conversion that produces an output, the destination (the
    path returned, and the only path written) is the caller-supplied output path
    when one is given (a non-empty string), and otherwise
    [path.join(output_directory, base name + "." + output format)], the
    base name being the input's last component without its extension.  In
    the latter case the destination is an entry of the configured output
    directory, and that entry's name is the base name followed by the
    format. *)
Theorem destination_path_resolution
        (ext : Externals) (cfg : config) (inputPath outputFormat : string)
        (outputPath : option string) (w : world) (d : string) (w' : world) :
  convertDocument ext cfg inputPath outputFormat outputPath w = (Ok d, w') ->
  (exists data, last (trace w') = Some (EvWriteFile d data) /\
                fs w' !! Path.key_of d = Some (File data)) /\
  (exists evs, trace w' = trace w ++ evs /\
               forall p data, In (EvWriteFile p data) evs -> p = d) /\
  (forall q, Str.truthy outputPath = Some q -> d = q) /\
  (Str.truthy outputPath = None ->
     d = Path.join (output_directory cfg)
           (Path.basename inputPath (Path.extname inputPath) +:+ "." +:+ outputFormat) /\
     Path.inside (output_directory cfg) d /\
     Path.key_of d =
       ((Path.key_of (output_directory cfg)).1,
        (Path.key_of (output_directory cfg)).2 ++
          [Path.basename inputPath (Path.extname inputPath) +:+ "." +:+ outputFormat])).
Proof.
  intros Hrun.
  destruct (only_convertDocument ext cfg
              (fun e => match e with
                        | EvWriteFile p _ =>
                            p = finalOutputPath_of cfg inputPath outputFormat outputPath
                        | _ => True
                        end)
              inputPath outputFormat outputPath I I (fun _ => I) I (fun _ => eq_refl)
              _ _ _ Hrun) as (evs & Htrace & Hevs).
  apply convertDocument_ok_inv in Hrun
    as (doc & w1 & w2 & data & w3 & Hread & Hinc & Hens & Hprod & Hwrite & ->).
  apply FsEffects.writeFile_ok in Hwrite as (Hfile & _ & Ht).
  apply produce_ok_format in Hprod.
  split; [| split; [| split]].
  - exists data. split; [rewrite Ht; apply last_snoc | done].
  - exists evs. split; [done |]. intros p data' Hin.
    rewrite Forall_forall in Hevs. apply list_elem_of_In in Hin.
    exact (Hevs _ Hin).
  - intros q Hq. unfold finalOutputPath_of. by rewrite Hq.
  - intros Hnone. unfold finalOutputPath_of, fileName_of. rewrite Hnone.
    assert (plain (Path.basename inputPath (Path.extname inputPath)
                   +:+ "." +:+ outputFormat)) as Hpl.
    { apply KeyFacts.output_name_plain; [apply KeyFacts.basename_noslash | done]. }
    split; [done |]. split; [by apply KeyFacts.inside_join | by apply KeyFacts.key_of_join].
Qed.

Lemma destination_path_resolution_witness :
  (convertDocument Demo.ext default_config "in/notes.md" "html" None Demo.w0).1 =
    Ok "converted_documents/notes.html" /\
  Path.inside "./converted_documents" "converted_documents/notes.html" /\
  (convertDocument Demo.ext default_config "in/notes.md" "html"
     (Some "in/copy.html") Demo.w0).1 = Ok "in/copy.html".
Proof.
  destruct (convertDocument Demo.ext default_config "in/notes.md" "html" None Demo.w0)
    as [r w'] eqn:Hrun.
  assert (r = Ok "converted_documents/notes.html") as ->.
  { apply (f_equal fst) in Hrun. vm_compute in Hrun. by inversion Hrun. }
  destruct (destination_path_resolution Demo.ext default_config "in/notes.md" "html" None
              Demo.w0 "converted_documents/notes.html" w' Hrun) as (_ & _ & _ & H).
  destruct (H eq_refl) as (_ & Hin & _).
  split; [done |]. split; [exact Hin |]. vm_compute. reflexivity.
Defined.

(* ===================================================================== *)
(** * The Batch Orchestrator *)
(* ===================================================================== *)

Section BatchFacts.

Variable ext : Externals.
Variable cfg : config.
Variables input_directory output_format : string.
Variable file_pattern : option string.

Local Abbreviation loop := (batch_loop ext cfg input_directory output_format file_pattern).
Local Abbreviation outcomes_of := (batch_outcomes ext cfg input_directory output_format file_pattern).

Lemma success_lines_cons f r os :
  success_lines ((f, r) :: os) =
  match r with Ok d => [ok_line f d] | Throw _ => [] end ++ success_lines os.
Proof. reflexivity. Qed.

Lemma failure_lines_cons f r os :
  failure_lines ((f, r) :: os) =
  match r with Ok _ => [] | Throw e => [err_line f e] end ++ failure_lines os.
Proof. reflexivity. Qed.

(** The two arrays of the loop are the projections of the outcomes. *)
Lemma batch_loop_outcomes files : forall results errors w,
  loop files results errors w =
  match outcomes_of files w with
  | (Ok os, w') => (Ok (results ++ success_lines os, errors ++ failure_lines os), w')
  | (Throw e, w') => (Throw e, w')
  end.
Proof.
  induction files as [|file rest IH]; intros results errors w.
  - simpl. unfold ret. by rewrite !app_nil_r.
  - simpl. unfold bind, attempt.
    destruct (Fs.stat _ w) as [[st|e] w1]; [| done].
    destruct (negb (isFile st)); [apply IH |].
    destruct (pattern_allows ext file_pattern file w1) as [[allowed|e] w2]; [| done].
    destruct (negb allowed); [apply IH |].
    destruct (convertDocument _ _ _ _ _ w2) as [[d|e] w3]; rewrite IH;
      destruct (outcomes_of rest w3) as [[os|e'] w4]; try done;
      unfold ret; rewrite success_lines_cons, failure_lines_cons; simpl;
      by rewrite <- app_assoc.
Qed.

Lemma lines_count os :
  length (success_lines os) + failures os = length os /\
  length (failure_lines os) = failures os.
Proof.
  induction os as [|[f [d|e]] os [IH1 IH2]]; [done | |].
  - rewrite success_lines_cons, failure_lines_cons. unfold failures in *. simpl.
    split; [by rewrite IH1 | done].
  - rewrite success_lines_cons, failure_lines_cons. unfold failures in *. simpl.
    split; [lia | by rewrite IH2].
Qed.

(** ** Stability of the listing while the batch runs *)

(** A path that can be followed can still be followed when nothing was
    removed. *)
Lemma walk_kinds m m' abs segs :
  kinds_kept m m' -> forall stk s,
  Fs.walk m abs stk segs = Fs.Reached s -> Fs.walk m' abs stk segs = Fs.Reached s.
Proof.
  intros Hk. induction segs as [|seg rest IH]; intros stk s H; simpl in *; [done |].
  destruct (String.eqb seg ""); [by apply IH |].
  destruct (Hk (abs, rev stk)) as [_ Hd].
  destruct (m !! (abs, rev stk)) as [[d|sz es]|]; try done.
  specialize (Hd I). destruct (m' !! (abs, rev stk)) as [[d'|sz' es']|]; try done.
  by apply IH.
Qed.

Lemma kinds_kept_resolve m m' p :
  kinds_kept m m' -> exists_at m p = true ->
  exists_at m' p = true /\ regular_at m' p = regular_at m p.
Proof.
  intros Hk. unfold exists_at, regular_at. rewrite !FsFacts.resolve_run.
  destruct (String.eqb p ""); [done |].
  destruct (Fs.follow m p) as [s| |] eqn:E; [| done | done].
  unfold Fs.follow in *. rewrite (walk_kinds _ _ _ _ Hk _ _ E).
  destruct (Hk (Path.key_of p)) as [Hf Hd].
  destruct (m !! Path.key_of p) as [[d|sz es]|]; [| | done].
  - destruct (Path.endsWithSlash p); [done |]. intros _.
    specialize (Hf I). by destruct (m' !! Path.key_of p) as [[d'|sz' es']|].
  - intros _. specialize (Hd I).
    by destruct (m' !! Path.key_of p) as [[d'|sz' es']|].
Qed.

Lemma pattern_allows_run file w :
  pattern_compiles ext file_pattern ->
  pattern_allows ext file_pattern file w = (Ok (pattern_accepts ext file_pattern file), w).
Proof.
  unfold pattern_compiles, pattern_allows, pattern_accepts.
  destruct (Str.truthy file_pattern) as [fp|]; [| done].
  unfold bind, lift. by destruct (RegExp_i ext _).
Qed.

(** When every listed name can be stat'ed and the pattern can be built,
    the loop meets no error of its own: it yields one outcome for each
    matched file, in listing order. *)
Lemma batch_outcomes_total files : forall w,
  pattern_compiles ext file_pattern ->
  Forall (fun f => exists_at (fs w) (Path.join input_directory f) = true) files ->
  exists os w',
    outcomes_of files w = (Ok os, w') /\
    map fst os = List.filter (matched ext input_directory file_pattern (fs w)) files /\
    kinds_kept (fs w) (fs w').
Proof.
  induction files as [|file rest IH]; intros w Hpat Hall.
  - exists [], w. repeat split; auto.
  - inversion Hall as [|? ? Hfile Hrest]; subst. simpl.
    unfold bind at 1. rewrite FsFacts.stat_run.
    set (w1 := World (fs w) (trace w ++ [EvStat (Path.join input_directory file)])).
    assert (forall w2, kinds_kept (fs w) (fs w2) ->
              exists os w',
                outcomes_of rest w2 = (Ok os, w') /\
                map fst os =
                  List.filter (matched ext input_directory file_pattern (fs w)) rest /\
                kinds_kept (fs w) (fs w')) as Hnext.
    { intros w2 Hk.
      destruct (IH w2 Hpat) as (os & w' & Hrun & Hmap & Hk').
      - eapply Forall_impl; [exact Hrest |]. intros f Hf. simpl in Hf.
        by apply (kinds_kept_resolve _ _ _ Hk).
      - exists os, w'. split; [done |]. split; [| by eapply kinds_kept_trans].
        rewrite Hmap. apply filter_ext_in. intros f Hin.
        apply list_elem_of_In in Hin.
        rewrite Forall_forall in Hrest. unfold matched.
        by rewrite (proj2 (kinds_kept_resolve _ _ _ Hk (Hrest f Hin))). }
    unfold matched at 1, regular_at. unfold exists_at in Hfile.
    destruct (Fs.resolve (fs w) (Path.join input_directory file))
      as [[d|sz es]| |]; try done; simpl.
    + unfold bind at 1. rewrite (pattern_allows_run file w1 Hpat).
      destruct (pattern_accepts ext file_pattern file); simpl.
      * unfold bind at 1. unfold attempt.
        destruct (convertDocument ext cfg (Path.join input_directory file)
                    output_format None w1) as [r w2] eqn:Hconv.
        pose proof (convertDocument_kinds ext cfg _ _ _ _ _ _ Hconv) as Hk.
        destruct (Hnext w2 Hk) as (os & w' & Hrun & Hmap & Hk').
        exists ((file, r) :: os), w'. unfold bind. rewrite Hrun.
        split; [done |]. split; [by simpl; rewrite Hmap | done].
      * apply (Hnext w1), kinds_kept_refl.
    + apply (Hnext w1), kinds_kept_refl.
Qed.

End BatchFacts.

Section BatchRuns.

Variable ext : Externals.
Variable cfg : config.
Variables input_directory output_format : string.
Variable file_pattern : option string.

Local Abbreviation chain_of := (chain ext cfg input_directory output_format).
Local Abbreviation dest_of :=
  (fun file => finalOutputPath_of cfg (Path.join input_directory file) output_format None).

Lemma lookups_only_refl w : lookups_only w w.
Proof. split; [done |]. exists []. by rewrite app_nil_r. Qed.

Lemma lookups_only_trans w1 w2 w3 :
  lookups_only w1 w2 -> lookups_only w2 w3 -> lookups_only w1 w3.
Proof.
  intros (Hf1 & evs1 & Ht1 & Hl1) (Hf2 & evs2 & Ht2 & Hl2). split; [congruence |].
  exists (evs1 ++ evs2). split; [by rewrite Ht2, Ht1, app_assoc |].
  by apply Forall_app.
Qed.

Lemma lookups_only_stat p w r w1 : Fs.stat p w = (r, w1) -> lookups_only w w1.
Proof.
  intros H. apply FsFacts.stat_world in H as ->. split; [done |].
  exists [EvStat p]. split; [done | by constructor].
Qed.

(** The filter looks at the name only: it makes no call. *)
Lemma pattern_allows_world file w r w1 :
  pattern_allows ext file_pattern file w = (r, w1) -> w1 = w.
Proof.
  unfold pattern_allows. destruct (Str.truthy file_pattern) as [fp|];
    [| by inversion 1].
  unfold bind, lift, ret. destruct (RegExp_i ext _); by inversion 1.
Qed.

Lemma chain_lookups w w1 steps w' :
  lookups_only w w1 -> chain_of w1 steps w' -> chain_of w steps w'.
Proof.
  intros Hl. destruct steps as [|s rest]; simpl.
  - by apply lookups_only_trans.
  - intros (Hl1 & Hc & Hrest). split; [by eapply lookups_only_trans | done].
Qed.

Lemma chain_app l1 : forall w l2 w',
  chain_of w (l1 ++ l2) w' -> exists wm, chain_of w l1 wm /\ chain_of wm l2 w'.
Proof.
  induction l1 as [|s l1 IH]; intros w l2 w' H; simpl in *.
  - exists w. split; [apply lookups_only_refl | done].
  - destruct H as (Hl & Hc & Hrest). destruct (IH _ _ _ Hrest) as (wm & H1 & H2).
    by exists wm.
Qed.

Lemma chain_In steps : forall w w' s,
  chain_of w steps w' -> In s steps ->
  convertDocument ext cfg (Path.join input_directory (step_file s)) output_format None
    (step_before s) = (step_result s, step_after s).
Proof.
  induction steps as [|s0 rest IH]; intros w w' s H Hin; simpl in *; [done |].
  destruct H as (_ & Hc & Hrest). destruct Hin as [<- | Hin]; [done | by eapply IH].
Qed.

(** Nothing is removed while the batch runs. *)
Lemma chain_kinds steps : forall w w',
  chain_of w steps w' -> kinds_kept (fs w) (fs w').
Proof.
  induction steps as [|s rest IH]; intros w w' H; simpl in H.
  - destruct H as [-> _]. apply kinds_kept_refl.
  - destruct H as ((Hf & _) & Hc & Hrest). rewrite <- Hf.
    eapply kinds_kept_trans; [by eapply convertDocument_kinds | by apply IH].
Qed.

(** A regular file that is the destination of none of the conversions is
    the same after them. *)
Lemma chain_keeps_file k steps : forall w w',
  chain_of w steps w' ->
  Forall (fun s => Path.key_of (dest_of (step_file s)) <> k) steps ->
  forall d, fs w !! k = Some (File d) -> fs w' !! k = Some (File d).
Proof.
  induction steps as [|s rest IH]; intros w w' H Hne d Hd; simpl in H.
  - destruct H as [-> _]. done.
  - destruct H as ((Hf & _) & Hc & Hrest). inversion Hne as [|? ? Hs Hrest']; subst.
    apply (IH _ _ Hrest Hrest').
    apply (convertDocument_files ext cfg _ _ _ _ _ _ Hc k d); [by intros -> |].
    by rewrite Hf.
Qed.

(** The loop's outcomes are those of a chain of conversions. *)
Lemma batch_outcomes_chain files : forall w os w',
  batch_outcomes ext cfg input_directory output_format file_pattern files w = (Ok os, w') ->
  exists steps, os = map outcome_of steps /\ chain_of w steps w'.
Proof.
  induction files as [|file rest IH]; intros w os w' H; simpl in H.
  - inversion H; subst. exists []. split; [done | apply lookups_only_refl].
  - apply bind_ok_inv in H as (st & w1 & Hst & H).
    pose proof (lookups_only_stat _ _ _ _ Hst) as Hl.
    assert (forall os0, batch_outcomes ext cfg input_directory output_format file_pattern
                          rest w1 = (Ok os0, w') ->
                        exists steps, os0 = map outcome_of steps /\ chain_of w steps w')
      as Hskip.
    { intros os0 H0. destruct (IH _ _ _ H0) as (steps & -> & Hc).
      exists steps. split; [done | by eapply chain_lookups]. }
    destruct (negb (isFile st)); [by apply Hskip |].
    apply bind_ok_inv in H as (allowed & w2 & Hpat & H).
    apply pattern_allows_world in Hpat as ->.
    destruct (negb allowed); [by apply Hskip |].
    apply bind_ok_inv in H as (r & w3 & Hconv & H).
    apply bind_ok_inv in H as (os' & w4 & Hrest & H).
    inversion H; subst. unfold attempt in Hconv.
    destruct (convertDocument _ _ _ _ _ w1) as [r' w5] eqn:Hc.
    inversion Hconv; subst.
    destruct (IH _ _ _ Hrest) as (steps & -> & Hch).
    exists (Step file w1 r w3 :: steps). split; [done |]. simpl.
    split; [exact Hl | split; [exact Hc | exact Hch]].
Qed.

(** When the directory can be listed, every listed name can be stat'ed and
    the pattern can be built, the batch is a chain of conversions, one for
    each matched file in listing order, and the report is made of their
    outcomes. *)
Lemma batch_convert_steps w sz files :
  Fs.resolve (fs w) input_directory = Fs.Found (Dir sz files) ->
  Forall (fun f => exists_at (fs w) (Path.join input_directory f) = true) files ->
  pattern_compiles ext file_pattern ->
  exists steps w',
    batch_convert ext cfg input_directory output_format file_pattern w =
      (Ok (summary_of (success_lines (map outcome_of steps))
                      (failure_lines (map outcome_of steps))), w') /\
    map step_file steps = List.filter (matched ext input_directory file_pattern (fs w)) files /\
    chain_of w steps w'.
Proof.
  intros Hdir Hall Hpat.
  set (w1 := World (fs w) (trace w ++ [EvReaddir input_directory])).
  destruct (batch_outcomes_total ext cfg input_directory output_format file_pattern
              files w1 Hpat Hall) as (os & w' & Hrun & Hmap & _).
  destruct (batch_outcomes_chain _ _ _ _ Hrun) as (steps & -> & Hch).
  exists steps, w'. split; [| split].
  - unfold batch_convert, try_catch, bind. rewrite FsFacts.readdir_run, Hdir.
    fold w1. rewrite batch_loop_outcomes, Hrun. reflexivity.
  - change (fs w) with (fs w1). rewrite <- Hmap, map_map. reflexivity.
  - eapply chain_lookups; [| exact Hch]. split; [done |].
    exists [EvReaddir input_directory]. split; [done | by constructor].
Qed.

(** A conversion without an output path that succeeded went to the
    destination made of the base name and the format, and its write is
    the last call it made. *)
Lemma step_written inputPath w d w' :
  convertDocument ext cfg inputPath output_format None w = (Ok d, w') ->
  d = Path.join (output_directory cfg) (fileName_of inputPath +:+ "." +:+ output_format) /\
  (output_format = "pdf" \/ output_format = "html" \/ output_format = "md" \/
   output_format = "txt") /\
  exists data, last (trace w') = Some (EvWriteFile d data) /\
               fs w' !! Path.key_of d = Some (File data).
Proof.
  intros H. apply convertDocument_ok_inv in H
    as (doc & w1 & w2 & data & w3 & _ & _ & _ & Hprod & Hwrite & Hd).
  split; [exact Hd |]. split; [by eapply produce_ok_format |].
  apply FsEffects.writeFile_ok in Hwrite as (Hfile & _ & Ht).
  exists data. split; [rewrite Ht; apply last_snoc | exact Hfile].
Qed.

Lemma append_cancel_r (s s' t : string) : s +:+ t = s' +:+ t -> s = s'.
Proof.
  intros H. apply (f_equal Str.chars) in H. rewrite !StrFacts.chars_app in H.
  apply app_inv_tail in H.
  by rewrite <- (StrFacts.of_chars_chars s), <- (StrFacts.of_chars_chars s'), H.
Qed.

(** Files with different base names go to different destinations. *)
Lemma dest_differs f1 f2 :
  output_format = "pdf" \/ output_format = "html" \/ output_format = "md" \/
  output_format = "txt" ->
  ~ same_base_name input_directory f1 f2 ->
  Path.key_of (dest_of f1) <> Path.key_of (dest_of f2).
Proof.
  intros Hfmt Hne Heq. apply Hne. unfold same_base_name.
  unfold finalOutputPath_of in Heq. simpl in Heq.
  rewrite !KeyFacts.key_of_join in Heq
    by (apply KeyFacts.output_name_plain; [apply KeyFacts.basename_noslash | done]).
  injection Heq as Heq. apply app_inj_tail in Heq as [_ Heq].
  by apply append_cancel_r in Heq.
Qed.

End BatchRuns.

(* ===================================================================== *)
(** * Batch conversion (claims C1 and C10) *)
(* ===================================================================== *)

(** C1, on the code.  The directory [in] lists [notes.md], a matched
    regular file that converts (N = 1, K = 0), and then [ghost], a name
    that cannot be stat'ed (a dangling symbolic link).  The loop's own
    [fs.stat] is outside the per-file [try]: its error ends the loop, and
    the handler answers "Batch conversion failed" without any per-file
    outcome, although [notes.md] has been converted and written.  An error
    raised inside [convertDocument] is handled per file instead: in the
    same directory without [ghost], [scan.pdf] fails to convert, gets its
    own line, and the two files after it are converted. *)
Theorem batch_aborts_on_unreadable_entry :
  let run := batch_convert Demo.ext default_config "in" "txt" None Demo.w_dangling in
  run.1 = Ok "Batch conversion failed: ENOENT: no such file or directory, stat 'in/ghost'" /\
  fs run.2 !! (false, ["converted_documents"; "notes.txt"]) = Some (File "# Title") /\
  List.filter (matched Demo.ext "in" None (fs Demo.w_dangling)) ["notes.md"; "ghost"]
    = ["notes.md"] /\
  (batch_convert Demo.ext default_config "in" "txt" None Demo.w0).1 =
    Ok (summary_of [ok_line "notes.md" "converted_documents/notes.txt";
                    ok_line "notes.txt" "converted_documents/notes.txt"]
                   [err_line "scan.pdf" "Invalid PDF structure"]).
Proof.
  vm_compute. split; [reflexivity |]. split; [reflexivity |]. split; reflexivity.
Qed.

(** A pattern that is no regular expression ends the batch in the same way:
    [**] becomes [.**], which [RegExp] refuses. *)
Example batch_aborts_on_invalid_pattern :
  (batch_convert Demo.ext default_config "in" "txt" (Some "**") Demo.w0).1 =
    Ok "Batch conversion failed: Invalid regular expression: /.**/: Nothing to repeat".
Proof. vm_compute. reflexivity. Qed.

(** X22.  Take a directory that can be listed, in which every listed name
    can be stat'ed, and a file pattern that is absent or can be built into
    a regular expression.  Let N be the number of its matched regular files
    and K the number of those that fail to convert.  Then [batch_convert]
    completes with the report (not with "Batch conversion failed"), and the
    report holds exactly one outcome for each matched file: the N - K
    successes in listing order and the K failures in listing order, with
    counts that sum to N.  The outcomes are those of a chain of
    conversions: every matched file is really handed to [convertDocument],
    in the file system the files before it left, and what is reported for
    it is what that call answered; so a failure on one file neither stops
    the loop nor keeps a later file from being converted. *)
Theorem batch_reports_every_matched_file
        (ext : Externals) (cfg : config) (input_directory output_format : string)
        (file_pattern : option string) (w : world) (sz : Z) (files : list string) :
  Fs.resolve (fs w) input_directory = Fs.Found (Dir sz files) ->
  Forall (fun f => exists_at (fs w) (Path.join input_directory f) = true) files ->
  pattern_compiles ext file_pattern ->
  exists steps w',
    batch_convert ext cfg input_directory output_format file_pattern w =
      (Ok (summary_of (success_lines (map outcome_of steps))
                      (failure_lines (map outcome_of steps))), w') /\
    map step_file steps =
      List.filter (matched ext input_directory file_pattern (fs w)) files /\
    length (success_lines (map outcome_of steps)) =
      length (List.filter (matched ext input_directory file_pattern (fs w)) files)
      - failures (map outcome_of steps) /\
    length (failure_lines (map outcome_of steps)) = failures (map outcome_of steps) /\
    length (success_lines (map outcome_of steps))
      + length (failure_lines (map outcome_of steps)) =
      length (List.filter (matched ext input_directory file_pattern (fs w)) files) /\
    chain ext cfg input_directory output_format w steps w'.
Proof.
  intros Hdir Hall Hpat.
  destruct (batch_convert_steps ext cfg input_directory output_format file_pattern
              w sz files Hdir Hall Hpat) as (steps & w' & Hrun & Hmap & Hch).
  exists steps, w'.
  pose proof (lines_count (map outcome_of steps)) as [Hc1 Hc2].
  assert (length (map outcome_of steps) =
          length (List.filter (matched ext input_directory file_pattern (fs w)) files))
    as Hlen by (by rewrite <- Hmap, !length_map).
  split; [exact Hrun |]. split; [exact Hmap |]. split; [lia |].
  split; [exact Hc2 |]. split; [lia | exact Hch].
Qed.

Lemma batch_reports_every_matched_file_witness :
  exists steps w',
    batch_convert Demo.ext default_config "in" "txt" None Demo.w0 =
      (Ok (summary_of (success_lines (map outcome_of steps))
                      (failure_lines (map outcome_of steps))), w') /\
    map step_file steps = ["scan.pdf"; "notes.md"; "notes.txt"] /\
    length (success_lines (map outcome_of steps)) = 2 /\
    length (failure_lines (map outcome_of steps)) = 1 /\
    chain Demo.ext default_config "in" "txt" Demo.w0 steps w'.
Proof.
  destruct (batch_reports_every_matched_file Demo.ext default_config "in" "txt" None
              Demo.w0 4096 ["scan.pdf"; "notes.md"; "notes.txt"])
    as (steps & w' & Hrun & Hmap & _ & _ & _ & Hch).
  - vm_compute. reflexivity.
  - repeat constructor.
  - exact I.
  - exists steps, w'. split; [exact Hrun |].
    assert (List.filter (matched Demo.ext "in" None (fs Demo.w0))
              ["scan.pdf"; "notes.md"; "notes.txt"]
            = ["scan.pdf"; "notes.md"; "notes.txt"]) as Hf by (vm_compute; reflexivity).
    rewrite Hf in Hmap. split; [exact Hmap |].
    destruct steps as [|[f1 b1 r1 a1] [|[f2 b2 r2 a2] [|[f3 b3 r3 a3] [|]]]];
      try discriminate Hmap.
    inversion Hmap; subst.
    apply (f_equal fst) in Hrun. vm_compute in Hrun.
    destruct r1, r2, r3; vm_compute in Hrun; try discriminate Hrun;
      (split; [reflexivity |]); (split; [reflexivity | exact Hch]).
Defined.

(** C10.  Take a batch as above: the directory can be listed, every listed
    name can be stat'ed and the pattern can be built.  The batch is then a
    chain of calls of [convertDocument], one for each matched file in
    listing order, none of them with an output path.  So the destination
    of every file it converts is [path.join(output_directory, base name +
    "." + format)]: it depends on the base name and the target format
    only, and no conversion of the batch, converted or failed, writes
    anywhere else.  Hence two matched files with the same base name (whatever their
    extensions) that both convert go to the same destination, and the
    later one overwrites the earlier output: the earlier conversion leaves
    its data there; when the later one starts the destination is still a
    regular file, and it holds precisely that data when no file between
    the two has the same base name; after the later conversion the
    destination holds the data of the later one, whose write is the last
    call it made. *)
Theorem batch_same_base_name_same_destination
        (ext : Externals) (cfg : config) (input_directory output_format : string)
        (file_pattern : option string) (w : world) (sz : Z) (files : list string) :
  Fs.resolve (fs w) input_directory = Fs.Found (Dir sz files) ->
  Forall (fun f => exists_at (fs w) (Path.join input_directory f) = true) files ->
  pattern_compiles ext file_pattern ->
  exists steps w',
    batch_convert ext cfg input_directory output_format file_pattern w =
      (Ok (summary_of (success_lines (map outcome_of steps))
                      (failure_lines (map outcome_of steps))), w') /\
    map step_file steps =
      List.filter (matched ext input_directory file_pattern (fs w)) files /\
    chain ext cfg input_directory output_format w steps w' /\
    (forall s, In s steps ->
       let dest := Path.join (output_directory cfg)
                     (fileName_of (Path.join input_directory (step_file s))
                      +:+ "." +:+ output_format) in
       (forall d, step_result s = Ok d -> d = dest) /\
       exists evs,
         trace (step_after s) = trace (step_before s) ++ evs /\
         Forall (fun e => match e with EvWriteFile p _ => p = dest | _ => True end) evs) /\
    (forall pre s1 mid s2 post d1 d2,
       steps = pre ++ s1 :: mid ++ s2 :: post ->
       same_base_name input_directory (step_file s1) (step_file s2) ->
       step_result s1 = Ok d1 -> step_result s2 = Ok d2 ->
       d2 = d1 /\
       exists data1 data2,
         fs (step_after s1) !! Path.key_of d1 = Some (File data1) /\
         is_file (fs (step_before s2) !! Path.key_of d1) /\
         (Forall (fun s => ~ same_base_name input_directory (step_file s) (step_file s1))
                 mid ->
          fs (step_before s2) !! Path.key_of d1 = Some (File data1)) /\
         last (trace (step_after s2)) = Some (EvWriteFile d1 data2) /\
         fs (step_after s2) !! Path.key_of d1 = Some (File data2)).
Proof.
  intros Hdir Hall Hpat.
  destruct (batch_convert_steps ext cfg input_directory output_format file_pattern
              w sz files Hdir Hall Hpat) as (steps & w' & Hrun & Hmap & Hch).
  exists steps, w'.
  split; [exact Hrun |]. split; [exact Hmap |]. split; [exact Hch |]. split.
  - intros s Hin dest.
    pose proof (chain_In _ _ _ _ _ _ _ _ Hch Hin) as Hc. split.
    + intros d Hres. rewrite Hres in Hc. by apply step_written in Hc as (Hd & _).
    + apply (only_convertDocument ext cfg
               (fun e => match e with EvWriteFile p _ => p = dest | _ => True end)
               _ _ None I I (fun _ => I) I (fun _ => eq_refl) _ _ _ Hc).
  - intros pre s1 mid s2 post d1 d2 -> Hbase Hr1 Hr2.
    apply chain_app in Hch as (wm1 & _ & Hch). simpl in Hch.
    destruct Hch as (_ & Hc1 & Hch).
    apply chain_app in Hch as (wm2 & Hmid & Hch). simpl in Hch.
    destruct Hch as ((Hf2 & _) & Hc2 & _).
    rewrite Hr1 in Hc1. rewrite Hr2 in Hc2.
    apply step_written in Hc1 as (Hd1 & Hfmt & data1 & _ & Hfile1).
    apply step_written in Hc2 as (Hd2 & _ & data2 & Hlast2 & Hfile2).
    assert (d2 = d1) as -> by (rewrite Hd1, Hd2; unfold same_base_name in Hbase;
                                by rewrite Hbase).
    split; [done |]. exists data1, data2.
    split; [exact Hfile1 |]. split.
    { rewrite Hf2. apply (chain_kinds _ _ _ _ _ _ _ Hmid). by rewrite Hfile1. }
    split; [| by split].
    intros Hne. rewrite Hf2.
    apply (chain_keeps_file _ _ _ _ _ _ _ _ Hmid); [| exact Hfile1].
    eapply Forall_impl; [exact Hne |]. intros s Hs. simpl.
    rewrite Hd1.
    by apply (dest_differs cfg input_directory output_format (step_file s) (step_file s1)).
Qed.

Lemma batch_same_base_name_witness :
  exists s0 s1 s2 w' data1 data2,
    batch_convert Demo.ext default_config "in" "txt" None Demo.w0 =
      (Ok (summary_of (success_lines (map outcome_of [s0; s1; s2]))
                      (failure_lines (map outcome_of [s0; s1; s2]))), w') /\
    map step_file [s0; s1; s2] = ["scan.pdf"; "notes.md"; "notes.txt"] /\
    step_result s1 = Ok "converted_documents/notes.txt" /\
    step_result s2 = Ok "converted_documents/notes.txt" /\
    fs (step_after s1) !! (false, ["converted_documents"; "notes.txt"])
      = Some (File data1) /\
    fs (step_before s2) !! (false, ["converted_documents"; "notes.txt"])
      = Some (File data1) /\
    last (trace (step_after s2)) =
      Some (EvWriteFile "converted_documents/notes.txt" data2) /\
    fs (step_after s2) !! (false, ["converted_documents"; "notes.txt"])
      = Some (File data2) /\
    fs (batch_convert Demo.ext default_config "in" "txt" None Demo.w0).2
      !! (false, ["converted_documents"; "notes.txt"]) = Some (File "plain text").
Proof.
  destruct (batch_same_base_name_same_destination Demo.ext default_config "in" "txt" None
              Demo.w0 4096 ["scan.pdf"; "notes.md"; "notes.txt"])
    as (steps & w' & Hrun & Hmap & _ & Hdest & Hsame).
  - vm_compute. reflexivity.
  - repeat constructor.
  - exact I.
  - assert (List.filter (matched Demo.ext "in" None (fs Demo.w0))
              ["scan.pdf"; "notes.md"; "notes.txt"]
            = ["scan.pdf"; "notes.md"; "notes.txt"]) as Hf by (vm_compute; reflexivity).
    rewrite Hf in Hmap.
    destruct steps as [|s0 [|s1 [|s2 [|]]]]; try discriminate Hmap.
    injection Hmap as Hn0 Hn1 Hn2.
    assert (exists d1 d2, step_result s1 = Ok d1 /\ step_result s2 = Ok d2)
      as (d1 & d2 & Hr1 & Hr2).
    { pose proof (f_equal fst Hrun) as Hsum. unfold outcome_of in Hsum. simpl in Hsum.
      rewrite Hn0, Hn1, Hn2 in Hsum.
      destruct (step_result s0), (step_result s1) as [d1|e1], (step_result s2) as [d2|e2];
        vm_compute in Hsum; try discriminate Hsum; by exists d1, d2. }
    assert (d1 = "converted_documents/notes.txt") as ->.
    { destruct (Hdest s1) as [Hd _]; [simpl; auto |].
      rewrite (Hd d1 Hr1). by rewrite Hn1. }
    destruct (Hsame [s0] s1 [] s2 [] "converted_documents/notes.txt" d2 eq_refl)
      as (-> & data1 & data2 & H1 & _ & Hbefore & Hlast & H2);
      [unfold same_base_name; by rewrite Hn1, Hn2 | exact Hr1 | exact Hr2 |].
    exists s0, s1, s2, w', data1, data2.
    split; [exact Hrun |]. split; [simpl; by rewrite Hn0, Hn1, Hn2 |].
    split; [exact Hr1 |]. split; [exact Hr2 |]. split; [exact H1 |].
    split; [by apply Hbefore |]. split; [exact Hlast |]. split; [exact H2 |].
    vm_compute. reflexivity.
Defined.

(* ===================================================================== *)
(** * The file pattern (claim C3) *)
(* ===================================================================== *)

(** C3, on the code.  The three examples of the specification hold: the
    pattern [*.md] accepts [notes.md] and [README.md] and rejects
    [notes.txt].  But the filter is not the glob match the claim describes.
    [*.md] becomes the regular expression [.*.md], searched anywhere in the
    name and with a dot that stands for any character, so the text file
    [cmd.txt] is accepted (the expression matches its first three
    characters) and the batch converts it, whereas under "[*] matches any
    substring, the rest is matched literally" the pattern rejects it,
    whether the match is on the whole name or on a part of it. *)
Theorem file_pattern_is_an_unanchored_regex :
  let allows file := (pattern_allows Demo.ext (Some "*.md") file DemoBatch.w_cmd).1 in
  (allows "notes.md" = Ok true /\ allows "README.md" = Ok true /\
   allows "notes.txt" = Ok false) /\
  (GlobSpec.glob_match "*.md" "notes.md" = true /\
   GlobSpec.glob_match "*.md" "README.md" = true /\
   GlobSpec.glob_match "*.md" "notes.txt" = false) /\
  allows "cmd.txt" = Ok true /\
  GlobSpec.glob_match "*.md" "cmd.txt" = false /\
  GlobSpec.glob_search "*.md" "cmd.txt" = false /\
  (batch_convert Demo.ext default_config "in" "html" (Some "*.md") DemoBatch.w_cmd).1 =
    Ok (summary_of [ok_line "notes.md" "converted_documents/notes.html";
                    ok_line "cmd.txt" "converted_documents/cmd.html"] []).
Proof. vm_compute. repeat split; reflexivity. Qed.

(* ===================================================================== *)
(** * More on the Document Reader *)
(* ===================================================================== *)

Section ReaderMore.

Variable ext : Externals.
Variable cfg : config.

Lemma readPDF_format p w doc w1 : readPDF ext p w = (Ok doc, w1) -> format doc = "pdf".
Proof.
  unfold readPDF. intros H.
  apply bind_ok_inv in H as (buffer & w2 & _ & H).
  apply bind_ok_inv in H as ([[text n] info] & w3 & _ & H). by inversion H.
Qed.

Lemma readDOCX_format p w doc w1 : readDOCX ext p w = (Ok doc, w1) -> format doc = "docx".
Proof.
  unfold readDOCX. intros H.
  apply bind_ok_inv in H as (buffer & w2 & _ & H).
  apply bind_ok_inv in H as (res & w3 & _ & H). by inversion H.
Qed.

Lemma readFile_utf8_inv p w content w1 :
  readFile_utf8 ext p w = (Ok content, w1) ->
  exists data, Fs.resolve (fs w) p = Fs.Found (File data) /\
               content = utf8_decode ext data /\
               w1 = World (fs w) (trace w ++ [EvReadFile p]).
Proof.
  unfold readFile_utf8. intros H.
  apply bind_ok_inv in H as (buffer & w2 & Hb & H).
  rewrite FsFacts.readFile_run in Hb.
  destruct (Fs.resolve (fs w) p) as [[data|sz es]| |]; inversion Hb; subst.
  inversion H; subst. by exists buffer.
Qed.

(** A source that was read went through the size check. *)
Lemma readDocument_ok_inv p w doc w1 :
  readDocument ext cfg p w = (Ok doc, w1) ->
  decode ext (detectFormat p) p (World (fs w) (trace w ++ [EvStat p])) = (Ok doc, w1).
Proof.
  unfold readDocument. intros H.
  apply bind_ok_inv in H as (st & w0 & Hst & H).
  destruct (_ >? _)%Z; [discriminate |].
  by rewrite (FsFacts.stat_world _ _ _ _ Hst) in H.
Qed.

(** A Markdown or text source that was read is the decoded text of its
    file, obtained with one [stat] and one [readFile]. *)
Lemma readDocument_plain_inv p w doc w1 :
  detectFormat p = "md" \/ detectFormat p = "txt" ->
  readDocument ext cfg p w = (Ok doc, w1) ->
  exists data, Fs.resolve (fs w) p = Fs.Found (File data) /\
               doc = Document (utf8_decode ext data) (detectFormat p) None /\
               w1 = World (fs w) (trace w ++ [EvStat p; EvReadFile p]).
Proof.
  intros Hfmt H. apply readDocument_ok_inv in H.
  destruct Hfmt as [Hf | Hf]; rewrite Hf in *; unfold decode in H; simpl in H;
    unfold readMarkdown, readText in H;
    apply bind_ok_inv in H as (content & w2 & Hc & H);
    apply readFile_utf8_inv in Hc as (data & Hres & -> & ->);
    inversion H; subst; exists data; simpl;
    (split; [done |]); (split; [done |]); by rewrite <- app_assoc.
Qed.

(** An HTML source that was read is the text of its body, or the decoded
    file when the body is missing or has no text. *)
Lemma readDocument_html_inv p w doc w1 :
  detectFormat p = "html" ->
  readDocument ext cfg p w = (Ok doc, w1) ->
  exists data body title,
    Fs.resolve (fs w) p = Fs.Found (File data) /\
    jsdom ext (utf8_decode ext data) = Ok (body, title) /\
    doc = Document (match Str.truthy body with
                    | Some t => t
                    | None => utf8_decode ext data
                    end) "html" (Some (MetaHtml title)) /\
    w1 = World (fs w) (trace w ++ [EvStat p; EvReadFile p; EvCodec Jsdom]).
Proof.
  intros Hfmt H. apply readDocument_ok_inv in H. rewrite Hfmt in H.
  unfold decode in H. simpl in H. unfold readHTML in H.
  apply bind_ok_inv in H as (content & w2 & Hc & H).
  apply readFile_utf8_inv in Hc as (data & Hres & -> & ->).
  apply bind_ok_inv in H as ([body title] & w3 & Hdom & H).
  unfold call, bind, emit, lift in Hdom. simpl in Hdom.
  inversion Hdom as [[Hj Hw]]. subst w3. inversion H; subst.
  exists data, body, title. repeat split; try done. simpl. by rewrite <- !app_assoc.
Qed.

End ReaderMore.

(** X1.  A path whose extension is not one of the recognized ones is
    refused right after the size check: [readDocument] throws "Unsupported
    file format: unknown" having made the [stat] call only (the file is
    never read), [convertDocument] fails in the same way for every output
    format, and [get_document_info] reports it as text. *)
Theorem unrecognized_extension_rejected_unread
        (ext : Externals) (cfg : config) (p : string) (st : stats) (w w1 : world) :
  detectFormat p = "unknown" ->
  Fs.stat p w = (Ok st, w1) ->
  (size st <= max_file_size cfg)%Z ->
  readDocument ext cfg p w = (Throw "Unsupported file format: unknown", w1) /\
  (forall fmt o,
      convertDocument ext cfg p fmt o w = (Throw "Unsupported file format: unknown", w1)) /\
  get_document_info ext cfg p w =
    (Ok "Failed to get document info: Unsupported file format: unknown", w1) /\
  trace w1 = trace w ++ [EvStat p] /\ fs w1 = fs w.
Proof.
  intros Hfmt Hst Hle.
  assert (readDocument ext cfg p w = (Throw "Unsupported file format: unknown", w1)) as Hread.
  { rewrite (readDocument_within_limit ext cfg p st w w1 Hst Hle), Hfmt. reflexivity. }
  pose proof (FsFacts.stat_world _ _ _ _ Hst) as Hw.
  split; [exact Hread |]. split; [| split; [| by subst]].
  - intros fmt o. unfold convertDocument. by rewrite (bind_throw _ _ _ _ _ Hread).
  - unfold get_document_info, try_catch. by rewrite (bind_throw _ _ _ _ _ Hread).
Qed.

Lemma unrecognized_extension_witness :
  readDocument Demo.ext default_config "in" Demo.w0 =
    (Throw "Unsupported file format: unknown", World Demo.fs0 [EvStat "in"]).
Proof.
  destruct (unrecognized_extension_rejected_unread Demo.ext default_config "in"
              (Stats false 4096) Demo.w0 (World Demo.fs0 [EvStat "in"])) as (H & _).
  - reflexivity.
  - vm_compute. reflexivity.
  - simpl. lia.
  - exact H.
Defined.

(** X2.  A document that [readDocument] returns carries the format tag that
    [detectFormat] gave for its path, and that tag is one of the five
    supported ones: the tag "unknown" never leaves the reader. *)
Theorem document_format_matches_detection
        (ext : Externals) (cfg : config) (p : string) (w : world)
        (doc : document) (w1 : world) :
  readDocument ext cfg p w = (Ok doc, w1) ->
  format doc = detectFormat p /\
  In (format doc) ["pdf"; "docx"; "html"; "md"; "txt"].
Proof.
  intros H. apply readDocument_ok_inv in H. unfold decode in H.
  destruct (String.eqb (detectFormat p) "pdf") eqn:E1.
  { apply String.eqb_eq in E1. apply readPDF_format in H. rewrite H, E1. simpl. auto. }
  destruct (String.eqb (detectFormat p) "docx") eqn:E2.
  { apply String.eqb_eq in E2. apply readDOCX_format in H. rewrite H, E2. simpl. auto. }
  destruct (String.eqb (detectFormat p) "html") eqn:E3.
  { apply String.eqb_eq in E3. unfold readHTML in H.
    apply bind_ok_inv in H as (content & w2 & _ & H).
    apply bind_ok_inv in H as (dom & w3 & _ & H). inversion H; subst.
    rewrite E3. simpl. auto 6. }
  destruct (String.eqb (detectFormat p) "md") eqn:E4.
  { apply String.eqb_eq in E4. unfold readMarkdown in H.
    apply bind_ok_inv in H as (content & w2 & _ & H). inversion H; subst.
    rewrite E4. simpl. auto 6. }
  destruct (String.eqb (detectFormat p) "txt") eqn:E5.
  { apply String.eqb_eq in E5. unfold readText in H.
    apply bind_ok_inv in H as (content & w2 & _ & H). inversion H; subst.
    rewrite E5. simpl. auto 7. }
  discriminate.
Qed.

Lemma document_format_witness :
  format (Document "# Title" "md" None) = detectFormat "in/notes.md".
Proof.
  destruct (document_format_matches_detection Demo.ext default_config "in/notes.md"
              Demo.w0 (Document "# Title" "md" None)
              (World Demo.fs0 [EvStat "in/notes.md"; EvReadFile "in/notes.md"])) as (H & _).
  - vm_compute. reflexivity.
  - exact H.
Defined.

(** X3.  [get_document_info] never throws and is read-only: whatever the
    path, it returns a text, leaves the file system exactly as it was, and
    makes no [ensureDir] and no [writeFile] call. *)
Theorem get_document_info_is_read_only
        (ext : Externals) (cfg : config) (file_path : string) (w : world) :
  is_ok (get_document_info ext cfg file_path w).1 = true /\
  fs (get_document_info ext cfg file_path w).2 = fs w /\
  exists evs,
    trace (get_document_info ext cfg file_path w).2 = trace w ++ evs /\
    Forall (fun e => is_mutation e = false) evs.
Proof.
  assert (only (fun e => is_mutation e = false) (get_document_info ext cfg file_path)) as Ho.
  { unfold get_document_info. apply only_try_catch.
    - apply only_bind; [by apply only_readDocument | intros doc].
      apply only_bind; [by apply FsFacts.only_stat | intros st]. apply only_ret.
    - intros e. apply only_ret. }
  assert (keeps_fs (get_document_info ext cfg file_path)) as Hk.
  { unfold get_document_info. intros w0 r w' H. unfold try_catch in H.
    destruct (bind _ _ w0) as [[a|e] w2] eqn:E.
    - inversion H; subst. revert E. apply keeps_bind; [apply keeps_readDocument |].
      intros doc. apply keeps_bind; [apply FsFacts.keeps_stat | intros; apply keeps_ret].
    - inversion H; subst. revert E. apply keeps_bind; [apply keeps_readDocument |].
      intros doc. apply keeps_bind; [apply FsFacts.keeps_stat | intros; apply keeps_ret]. }
  destruct (get_document_info ext cfg file_path w) as [r w'] eqn:Hrun. simpl.
  split; [| split; [by eapply Hk | by eapply Ho]].
  unfold get_document_info, try_catch in Hrun.
  destruct (bind _ _ w) as [[a|e] w2]; by inversion Hrun.
Qed.

(* ===================================================================== *)
(** * More on the Conversion Engine *)
(* ===================================================================== *)

(** X4.  An output format that is not in [supported_formats.output] is
    refused before anything is created: the conversion fails, the file
    system is exactly as it was (no output directory, no file), and when
    the source could be read the error is "Unsupported output format:"
    followed by the format. *)
Theorem unsupported_output_format_changes_nothing
        (ext : Externals) (cfg : config) (inputPath outputFormat : string)
        (outputPath : option string) (w : world) :
  includes (supported_formats_output cfg) outputFormat = false ->
  exists msg w',
    convertDocument ext cfg inputPath outputFormat outputPath w = (Throw msg, w') /\
    fs w' = fs w /\
    (forall doc w1, readDocument ext cfg inputPath w = (Ok doc, w1) ->
                    msg = "Unsupported output format: " +:+ outputFormat /\ w' = w1).
Proof.
  intros Hinc. rewrite convertDocument_steps. unfold bind at 1.
  destruct (readDocument ext cfg inputPath w) as [[doc|e] w1] eqn:Hread.
  - rewrite Hinc. simpl. exists ("Unsupported output format: " +:+ outputFormat), w1.
    split; [done |]. split; [by eapply keeps_readDocument |].
    intros doc' w1' H. by inversion H.
  - exists e, w1. split; [done |]. split; [by eapply keeps_readDocument | discriminate].
Qed.

Lemma unsupported_output_format_witness :
  convertDocument Demo.ext default_config "in/notes.md" "rtf" None Demo.w0 =
    (Throw "Unsupported output format: rtf",
     World Demo.fs0 [EvStat "in/notes.md"; EvReadFile "in/notes.md"]).
Proof.
  destruct (unsupported_output_format_changes_nothing Demo.ext default_config
              "in/notes.md" "rtf" None Demo.w0 eq_refl) as (msg & w' & Hrun & _ & H).
  destruct (H (Document "# Title" "md" None)
              (World Demo.fs0 [EvStat "in/notes.md"; EvReadFile "in/notes.md"]))
    as [-> ->]; [vm_compute; reflexivity |].
  exact Hrun.
Defined.




(** A failure before the write leaves no trace in the files: here the PDF
    codec refuses the input. *)
Example failed_conversion_before_the_write :
  let run := convertDocument Demo.ext default_config "in/scan.pdf" "html" None Demo.w0 in
  run.1 = Throw "Invalid PDF structure" /\
  filter is_write (trace run.2) = [] /\
  fs run.2 !! (false, ["converted_documents"; "scan.html"]) = None.
Proof. vm_compute. split; [reflexivity |]. split; reflexivity. Qed.

(* ===================================================================== *)
(** * What each conversion path writes *)
(* ===================================================================== *)

Section Written.

Variable ext : Externals.
Variable cfg : config.

(** The end of a successful conversion: the data produced is written at
    the destination and stays there. *)
Lemma convertDocument_ok_written inputPath outputFormat outputPath w d w' :
  convertDocument ext cfg inputPath outputFormat outputPath w = (Ok d, w') ->
  exists doc w1 w2 data w3,
    readDocument ext cfg inputPath w = (Ok doc, w1) /\
    trace w2 = trace w1 ++ [EvEnsureDir (output_directory cfg)] /\
    produce ext doc outputFormat w2 = (Ok data, w3) /\
    trace w' = trace w3 ++ [EvWriteFile d data] /\
    fs w' !! Path.key_of d = Some (File data).
Proof.
  intros H. apply convertDocument_ok_inv in H
    as (doc & w1 & w2 & data & w3 & Hread & _ & Hens & Hprod & Hwrite & _).
  apply FsEffects.writeFile_ok in Hwrite as (Hfile & _ & Ht).
  exists doc, w1, w2, data, w3. repeat split; try done.
  by eapply FsFacts.ensureDir_trace.
Qed.

End Written.

(** X7.  Between Markdown and plain text the conversion is a copy: for a
    source detected as md or txt and a target md or txt, a successful
    conversion writes exactly the decoded text of the input file, calls no
    codec at all, and makes four calls in this order: [stat] and [readFile]
    on the input, [ensureDir] on the output directory, [writeFile] at the
    destination. *)
Theorem plain_text_conversions_copy_the_text
        (ext : Externals) (cfg : config) (inputPath outputFormat : string)
        (outputPath : option string) (w : world) (d : string) (w' : world) :
  detectFormat inputPath = "md" \/ detectFormat inputPath = "txt" ->
  outputFormat = "md" \/ outputFormat = "txt" ->
  convertDocument ext cfg inputPath outputFormat outputPath w = (Ok d, w') ->
  exists data,
    Fs.resolve (fs w) inputPath = Fs.Found (File data) /\
    trace w' = trace w ++ [EvStat inputPath; EvReadFile inputPath;
                           EvEnsureDir (output_directory cfg);
                           EvWriteFile d (utf8_decode ext data)] /\
    fs w' !! Path.key_of d = Some (File (utf8_decode ext data)).
Proof.
  intros Hsrc Hfmt Hrun.
  apply convertDocument_ok_written in Hrun
    as (doc & w1 & w2 & out & w3 & Hread & Hens & Hprod & Ht & Hfile).
  destruct (readDocument_plain_inv ext cfg _ _ _ _ Hsrc Hread) as (data & Hres & -> & ->).
  assert (out = utf8_decode ext data /\ w3 = w2) as [-> ->].
  { destruct Hfmt as [-> | ->].
    - rewrite produce_md_plain in Hprod; [by inversion Hprod |].
      simpl. by destruct Hsrc as [-> | ->].
    - rewrite produce_txt in Hprod. by inversion Hprod. }
  exists data. split; [done |]. split; [| done].
  rewrite Ht, Hens. simpl. by rewrite <- !app_assoc.
Qed.

Lemma plain_text_conversions_witness :
  fs (convertDocument Demo.ext default_config "in/notes.txt" "md" None Demo.w0).2
    !! Path.key_of "converted_documents/notes.md" = Some (File "plain text").
Proof.
  destruct (convertDocument Demo.ext default_config "in/notes.txt" "md" None Demo.w0)
    as [r w'] eqn:Hrun.
  assert (r = Ok "converted_documents/notes.md") as ->.
  { apply (f_equal fst) in Hrun. vm_compute in Hrun. by inversion Hrun. }
  destruct (plain_text_conversions_copy_the_text Demo.ext default_config "in/notes.txt" "md"
              None Demo.w0 "converted_documents/notes.md" w')
    as (data & Hres & _ & Hfile); [by right | by left | exact Hrun |].
  vm_compute in Hres. inversion Hres; subst. exact Hfile.
Defined.

(** X8.  For the target txt the conversion writes the content the reader
    returned, unchanged, whatever the source format (the text a PDF or DOCX
    codec extracted, the text of an HTML body): after the read, the only
    calls are [ensureDir] and the write, and no codec is involved in
    producing the output. *)
Theorem text_target_writes_reader_content
        (ext : Externals) (cfg : config) (inputPath : string)
        (outputPath : option string) (w : world) (d : string) (w' : world) :
  convertDocument ext cfg inputPath "txt" outputPath w = (Ok d, w') ->
  exists doc w1,
    readDocument ext cfg inputPath w = (Ok doc, w1) /\
    trace w' = trace w1 ++ [EvEnsureDir (output_directory cfg);
                            EvWriteFile d (content doc)] /\
    fs w' !! Path.key_of d = Some (File (content doc)).
Proof.
  intros Hrun.
  apply convertDocument_ok_written in Hrun
    as (doc & w1 & w2 & out & w3 & Hread & Hens & Hprod & Ht & Hfile).
  rewrite produce_txt in Hprod. inversion Hprod; subst.
  exists doc, w1. split; [done |]. split; [| done].
  rewrite Ht, Hens. by rewrite <- app_assoc.
Qed.

Lemma text_target_witness :
  fs (convertDocument Demo.ext default_config "in/notes.md" "txt" None Demo.w0).2
    !! Path.key_of "converted_documents/notes.txt" = Some (File "# Title").
Proof.
  destruct (convertDocument Demo.ext default_config "in/notes.md" "txt" None Demo.w0)
    as [r w'] eqn:Hrun.
  assert (r = Ok "converted_documents/notes.txt") as ->.
  { apply (f_equal fst) in Hrun. vm_compute in Hrun. by inversion Hrun. }
  destruct (text_target_writes_reader_content Demo.ext default_config "in/notes.md"
              None Demo.w0 "converted_documents/notes.txt" w' Hrun)
    as (doc & w1 & Hread & _ & Hfile).
  assert (doc = Document "# Title" "md" None) as ->.
  { apply (f_equal fst) in Hread. vm_compute in Hread. by inversion Hread. }
  exact Hfile.
Defined.

(** X9.  An HTML source converted to html is not copied.  The reader keeps
    the text content of the body, not the markup, and the html target passes
    that content through: the file written holds the body's text when it has
    some, and the decoded input only when the body is missing or empty.
    JSDOM is the only codec called. *)
Theorem html_to_html_writes_body_text
        (ext : Externals) (cfg : config) (inputPath : string)
        (outputPath : option string) (w : world) (d : string) (w' : world) :
  detectFormat inputPath = "html" ->
  convertDocument ext cfg inputPath "html" outputPath w = (Ok d, w') ->
  exists data body title,
    Fs.resolve (fs w) inputPath = Fs.Found (File data) /\
    jsdom ext (utf8_decode ext data) = Ok (body, title) /\
    fs w' !! Path.key_of d =
      Some (File (match Str.truthy body with
                  | Some text => text
                  | None => utf8_decode ext data
                  end)) /\
    codecs_called (drop (length (trace w)) (trace w')) = [Jsdom].
Proof.
  intros Hsrc Hrun.
  apply convertDocument_ok_written in Hrun
    as (doc & w1 & w2 & out & w3 & Hread & Hens & Hprod & Ht & Hfile).
  destruct (readDocument_html_inv ext cfg _ _ _ _ Hsrc Hread)
    as (data & body & title & Hres & Hdom & -> & ->).
  unfold produce, convertToHTML in Hprod. simpl in Hprod. inversion Hprod; subst.
  exists data, body, title. repeat split; try done.
  rewrite Ht, Hens. simpl. rewrite <- !app_assoc, drop_app_length. reflexivity.
Qed.

Lemma html_to_html_witness :
  let w := World (<[ (false, ["in"; "page.html"]) := File "<p>Hi</p>" ]> Demo.fs0) [] in
  let ext := {| utf8_decode := fun data => data;
                pdfParse := pdfParse Demo.ext;
                extractRawText := extractRawText Demo.ext;
                jsdom := fun _ => Ok (Some "Hi", "");
                marked := marked Demo.ext;
                turndown := turndown Demo.ext;
                generatePdf := generatePdf Demo.ext;
                RegExp_i := RegExp_i Demo.ext;
                render_info := render_info Demo.ext;
                write_fault := write_fault Demo.ext |} in
  fs (convertDocument ext default_config "in/page.html" "html" None w).2
    !! Path.key_of "converted_documents/page.html" = Some (File "Hi").
Proof.
  intros w ext.
  destruct (convertDocument ext default_config "in/page.html" "html" None w)
    as [r w'] eqn:Hrun.
  assert (r = Ok "converted_documents/page.html") as ->.
  { apply (f_equal fst) in Hrun. vm_compute in Hrun. by inversion Hrun. }
  destruct (html_to_html_writes_body_text ext default_config "in/page.html" None w
              "converted_documents/page.html" w' eq_refl Hrun)
    as (data & body & title & _ & Hdom & Hfile & _).
  simpl in Hdom. inversion Hdom; subst. exact Hfile.
Defined.

(** X10.  A text source converted to html is wrapped as it is: the file
    written is the decoded text between [<html><body><pre>] and
    [</pre></body></html>], with no escaping of the text and no codec
    called. *)
Theorem text_to_html_wraps_verbatim
        (ext : Externals) (cfg : config) (inputPath : string)
        (outputPath : option string) (w : world) (d : string) (w' : world) :
  detectFormat inputPath = "txt" ->
  convertDocument ext cfg inputPath "html" outputPath w = (Ok d, w') ->
  exists data,
    Fs.resolve (fs w) inputPath = Fs.Found (File data) /\
    fs w' !! Path.key_of d =
      Some (File ("<html><body><pre>" +:+ utf8_decode ext data +:+ "</pre></body></html>")) /\
    codecs_called (drop (length (trace w)) (trace w')) = [].
Proof.
  intros Hsrc Hrun.
  apply convertDocument_ok_written in Hrun
    as (doc & w1 & w2 & out & w3 & Hread & Hens & Hprod & Ht & Hfile).
  destruct (readDocument_plain_inv ext cfg _ _ _ _ (or_intror Hsrc) Hread)
    as (data & Hres & -> & ->).
  rewrite Hsrc in Hprod. unfold produce, convertToHTML in Hprod. simpl in Hprod.
  inversion Hprod; subst.
  exists data. repeat split; try done.
  rewrite Ht, Hens. simpl. rewrite <- !app_assoc, drop_app_length. reflexivity.
Qed.

Lemma text_to_html_witness :
  fs (convertDocument Demo.ext default_config "in/notes.txt" "html" None Demo.w0).2
    !! Path.key_of "converted_documents/notes.html"
  = Some (File "<html><body><pre>plain text</pre></body></html>").
Proof.
  destruct (convertDocument Demo.ext default_config "in/notes.txt" "html" None Demo.w0)
    as [r w'] eqn:Hrun.
  assert (r = Ok "converted_documents/notes.html") as ->.
  { apply (f_equal fst) in Hrun. vm_compute in Hrun. by inversion Hrun. }
  destruct (text_to_html_wraps_verbatim Demo.ext default_config "in/notes.txt" None
              Demo.w0 "converted_documents/notes.html" w' eq_refl Hrun)
    as (data & Hres & Hfile & _).
  vm_compute in Hres. inversion Hres; subst. exact Hfile.
Defined.

(** X11.  A conversion to pdf goes through HTML and a fixed page geometry:
    the data written is what [generatePdf] returned for the HTML of the
    document with the options A4 and one-inch margins on all four sides.
    That HTML is the reader's content itself for an HTML source, the output
    of [marked] for a Markdown source, and the text in a [pre] block for a
    text source.  The layout call and the write are the last two calls. *)
Theorem pdf_target_goes_through_html
        (ext : Externals) (cfg : config) (inputPath : string)
        (outputPath : option string) (w : world) (d : string) (w' : world) :
  convertDocument ext cfg inputPath "pdf" outputPath w = (Ok d, w') ->
  exists doc w1 html buffer,
    readDocument ext cfg inputPath w = (Ok doc, w1) /\
    generatePdf ext html (PdfOptions "A4" "1in" "1in" "1in" "1in") = Ok buffer /\
    (format doc = "html" -> html = content doc) /\
    (format doc = "md" -> marked ext (content doc) = Ok html) /\
    (format doc = "txt" ->
       html = "<html><body><pre>" +:+ content doc +:+ "</pre></body></html>") /\
    (exists t, trace w' = t ++ [EvCodec HtmlPdf; EvWriteFile d buffer]) /\
    fs w' !! Path.key_of d = Some (File buffer).
Proof.
  intros Hrun.
  apply convertDocument_ok_written in Hrun
    as (doc & w1 & w2 & buffer & w3 & Hread & Hens & Hprod & Ht & Hfile).
  unfold produce in Hprod. simpl in Hprod.
  apply bind_ok_inv in Hprod as (html & wh & Hhtml & Hpdf).
  unfold call, bind, emit, lift in Hpdf. simpl in Hpdf.
  destruct (generatePdf ext html _) as [b|e] eqn:Hgen; inversion Hpdf; subst.
  exists doc, w1, html, buffer. split; [done |]. split; [done |].
  split; [| split; [| split; [| split; [| done]]]].
  - intros Hf. rewrite Hf in Hhtml. simpl in Hhtml. by inversion Hhtml.
  - intros Hf. rewrite Hf in Hhtml. simpl in Hhtml. unfold convertToHTML in Hhtml.
    simpl in Hhtml. unfold call, bind, emit, lift in Hhtml. simpl in Hhtml.
    destruct (marked ext (content doc)); by inversion Hhtml.
  - intros Hf. rewrite Hf in Hhtml. simpl in Hhtml. unfold convertToHTML in Hhtml.
    simpl in Hhtml. by inversion Hhtml.
  - exists (trace wh). rewrite Ht. simpl. by rewrite <- app_assoc.
Qed.

Lemma pdf_target_witness :
  fs (convertDocument Demo.ext default_config "in/notes.txt" "pdf" None Demo.w0).2
    !! Path.key_of "converted_documents/notes.pdf"
  = Some (File "%PDF-1.4 <html><body><pre>plain text</pre></body></html>").
Proof.
  destruct (convertDocument Demo.ext default_config "in/notes.txt" "pdf" None Demo.w0)
    as [r w'] eqn:Hrun.
  assert (r = Ok "converted_documents/notes.pdf") as ->.
  { apply (f_equal fst) in Hrun. vm_compute in Hrun. by inversion Hrun. }
  destruct (pdf_target_goes_through_html Demo.ext default_config "in/notes.txt" None
              Demo.w0 "converted_documents/notes.pdf" w' Hrun)
    as (doc & w1 & html & buffer & Hread & Hgen & _ & _ & Htxt & _ & Hfile).
  assert (doc = Document "plain text" "txt" None) as ->.
  { apply (f_equal fst) in Hread. vm_compute in Hread. by inversion Hread. }
  rewrite (Htxt eq_refl) in Hgen. simpl in Hgen. inversion Hgen; subst. exact Hfile.
Defined.

(* ===================================================================== *)
(** * More on the Batch Orchestrator *)
(* ===================================================================== *)

Section BatchMore.

Variable ext : Externals.
Variable cfg : config.
Variables input_directory output_format : string.
Variable file_pattern : option string.







End BatchMore.

(** X12.  When the input directory cannot be listed (it does not exist, or
    it is a regular file), [batch_convert] returns "Batch conversion
    failed:" with the error of [readdir]; that [readdir] is the only call
    made, so nothing is stat'ed, converted or created. *)
Theorem batch_on_unlistable_directory
        (ext : Externals) (cfg : config) (input_directory output_format : string)
        (file_pattern : option string) (w : world) :
  (forall sz entries, Fs.resolve (fs w) input_directory <> Fs.Found (Dir sz entries)) ->
  exists message,
    batch_convert ext cfg input_directory output_format file_pattern w =
      (Ok ("Batch conversion failed: " +:+ message),
       World (fs w) (trace w ++ [EvReaddir input_directory])).
Proof.
  intros Hno. unfold batch_convert, try_catch, bind. rewrite FsFacts.readdir_run.
  destruct (Fs.resolve (fs w) input_directory) as [[d|sz es]| |] eqn:E.
  - by eexists.
  - by destruct (Hno sz es).
  - by eexists.
  - by eexists.
Qed.

Lemma batch_on_unlistable_directory_witness :
  batch_convert Demo.ext default_config "missing" "txt" None Demo.w0 =
    (Ok "Batch conversion failed: ENOENT: no such file or directory, scandir 'missing'",
     World Demo.fs0 [EvReaddir "missing"]).
Proof.
  destruct (batch_on_unlistable_directory Demo.ext default_config "missing" "txt" None
              Demo.w0) as (message & Hrun).
  - intros sz entries H. vm_compute in H. discriminate.
  - rewrite Hrun. apply (f_equal fst) in Hrun. vm_compute in Hrun.
    inversion Hrun as [Hm]. reflexivity.
Defined.


(* ===================================================================== *)
(** * The registry client *)
(* ===================================================================== *)

Module RegistryFacts.

Import Registry.

Lemma hex_value_digit d : d < 16 -> hex_value (hex_digit d) = d.
Proof.
  intros Hd. do 16 (destruct d as [|d]; [reflexivity |]). lia.
Qed.

Lemma unreserved_not_percent c : unreserved c = true -> Ascii.eqb c "%" = false.
Proof.
  intros Hu. destruct (Ascii.eqb c "%") eqn:E; [| done].
  apply Ascii.eqb_eq in E. subst. discriminate.
Qed.

Lemma byte_of_hex c :
  ascii_of_nat (16 * hex_value (hex_digit (nat_of_ascii c / 16))
                + hex_value (hex_digit (nat_of_ascii c mod 16))) = c.
Proof.
  pose proof (nat_ascii_bounded c) as Hb.
  rewrite !hex_value_digit.
  - rewrite <- Nat.div_mod_eq. apply ascii_nat_embedding.
  - apply Nat.mod_upper_bound. lia.
  - apply Nat.Div0.div_lt_upper_bound. lia.
Qed.

Lemma percent_decode_triple h1 h2 r :
  percent_decode ("%"%char :: h1 :: h2 :: r) =
  ascii_of_nat (16 * hex_value h1 + hex_value h2) :: percent_decode r.
Proof. reflexivity. Qed.

Lemma percent_decode_other c r :
  Ascii.eqb c "%" = false -> percent_decode (c :: r) = c :: percent_decode r.
Proof. intros H. change (percent_decode (c :: r)) with
  (if Ascii.eqb c "%" then
     match r with
     | h1 :: h2 :: r' => ascii_of_nat (16 * hex_value h1 + hex_value h2) :: percent_decode r'
     | _ => c :: percent_decode r
     end
   else c :: percent_decode r). by rewrite H.
Qed.

Lemma encode_cons c s :
  encodeURIComponent_chars (c :: s) =
  if unreserved c then c :: encodeURIComponent_chars s
  else "%"%char :: hex_digit (nat_of_ascii c / 16)
                :: hex_digit (nat_of_ascii c mod 16)
                :: encodeURIComponent_chars s.
Proof. reflexivity. Qed.

(** Percent-decoding gives back what was encoded. *)
Lemma percent_decode_encode s : percent_decode (encodeURIComponent_chars s) = s.
Proof.
  induction s as [|c s IH]; [done |]. rewrite encode_cons.
  destruct (unreserved c) eqn:Hu.
  - by rewrite (percent_decode_other _ _ (unreserved_not_percent c Hu)), IH.
  - by rewrite percent_decode_triple, byte_of_hex, IH.
Qed.

Lemma encodeURIComponent_inj s t e :
  encodeURIComponent s = Ok e -> encodeURIComponent t = Ok e -> s = t.
Proof.
  unfold encodeURIComponent. intros Hs Ht.
  destruct (has_lone_surrogate (Str.chars s)); [discriminate |].
  destruct (has_lone_surrogate (Str.chars t)); [discriminate |].
  assert (Str.of_chars (encodeURIComponent_chars (Str.chars s)) =
          Str.of_chars (encodeURIComponent_chars (Str.chars t))) as H by congruence.
  apply (f_equal Str.chars) in H. rewrite !StrFacts.chars_of_chars in H.
  apply (f_equal percent_decode) in H. rewrite !percent_decode_encode in H.
  rewrite <- (StrFacts.of_chars_chars s), <- (StrFacts.of_chars_chars t). by rewrite H.
Qed.

Lemma hex_digit_unreserved d : d < 16 -> unreserved (hex_digit d) = true.
Proof.
  intros Hd. do 16 (destruct d as [|d]; [reflexivity |]). lia.
Qed.

(** An encoded string is made of unreserved characters and percent signs. *)
Lemma encodeURIComponent_chars_safe s :
  Forall (fun c => unreserved c = true \/ c = "%"%char) (encodeURIComponent_chars s).
Proof.
  induction s as [|c s IH]; [constructor |]. rewrite encode_cons.
  pose proof (nat_ascii_bounded c) as Hb.
  destruct (unreserved c) eqn:Hu.
  - constructor; [by left | done].
  - constructor; [by right |].
    constructor; [left; apply hex_digit_unreserved, Nat.Div0.div_lt_upper_bound; lia |].
    constructor; [left; apply hex_digit_unreserved, Nat.mod_upper_bound; lia | done].
Qed.

End RegistryFacts.

(** X14.  Without an API key (none configured, or an empty one) the
    registry client makes no request at all: [makeRequest] throws "Smithery
    API key is required for registry operations" before calling [fetch], and
    the [search_mcp_servers] and [get_mcp_server_details] tools answer with
    the configuration hint, whatever the platform would have replied. *)
Theorem registry_without_key_makes_no_request
        (net : Registry.Net) (apiKey : option string) :
  Str.truthy apiKey = None ->
  (forall endpoint params,
      Registry.makeRequest net apiKey endpoint params
      = (Throw Registry.api_key_required, [])) /\
  (forall query limit,
      Registry.searchServers net apiKey query limit
      = (Throw Registry.api_key_required, [])) /\
  (forall query limit,
      Registry.search_mcp_servers net apiKey query limit = (Registry.api_key_hint, [])) /\
  (forall name,
      Registry.get_mcp_server_details net apiKey name = (Registry.api_key_hint, [])).
Proof.
  intros Hkey. unfold Registry.search_mcp_servers, Registry.get_mcp_server_details,
    Registry.searchServers, Registry.makeRequest. rewrite Hkey. done.
Qed.

Lemma registry_without_key_witness :
  Registry.search_mcp_servers Registry.net_down (Some "") (Some "pdf") None
  = (Registry.api_key_hint, []).
Proof.
  destruct (registry_without_key_makes_no_request Registry.net_down (Some "") eq_refl)
    as (_ & _ & H & _).
  apply H.
Defined.

(** X15.  With an API key, a registry tool call makes exactly one request,
    and it carries [Authorization: Bearer] followed by the key.  A search
    asks [/servers] with the parameter [limit] (10 when none is given) and,
    only when the query is a non-empty string, the parameter [q] after it.
    The details of a server are asked at [/servers/] followed by the
    percent-encoded name, with no parameter, when the name can be encoded;
    a name that holds an unpaired surrogate makes [encodeURIComponent]
    throw before [makeRequest] is entered, so no request is made and the
    tool answers "Failed to get server details: URI malformed". *)
Theorem registry_requests_are_authenticated
        (net : Registry.Net) (apiKey : option string) (key : string) :
  Str.truthy apiKey = Some key ->
  let headers := [("Authorization", "Bearer " +:+ key);
                  ("Content-Type", "application/json")] in
  (forall query limit,
      (Registry.search_mcp_servers net apiKey query limit).2 =
      [Registry.Request
         (Registry.url_with_params net (Registry.baseUrl +:+ "/servers")
            (("limit", Str.of_Z (default 10%Z limit)) ::
             match Str.truthy query with Some q => [("q", q)] | None => [] end))
         headers]) /\
  (forall name,
      Registry.has_lone_surrogate (Str.chars name) = false ->
      Registry.encodeURIComponent name
        = Ok (Str.of_chars (Registry.encodeURIComponent_chars (Str.chars name))) /\
      (Registry.get_mcp_server_details net apiKey name).2 =
      [Registry.Request
         (Registry.url_with_params net
            (Registry.baseUrl +:+ "/servers/"
             +:+ Str.of_chars (Registry.encodeURIComponent_chars (Str.chars name))) [])
         headers]) /\
  (forall name,
      Registry.has_lone_surrogate (Str.chars name) = true ->
      Registry.get_mcp_server_details net apiKey name =
        ("Failed to get server details: URI malformed", [])).
Proof.
  intros Hkey headers. split; [| split].
  - intros query limit. unfold Registry.search_mcp_servers, Registry.searchServers,
      Registry.makeRequest. rewrite Hkey.
    destruct limit as [l|]; simpl;
      destruct (Registry.fetch net _) as [resp|e]; try done;
      destruct (negb (Registry.resp_ok resp)); try done;
      by destruct (Registry.resp_json resp).
  - intros name Hname. unfold Registry.get_mcp_server_details, Registry.getServerDetails,
      Registry.encodeURIComponent, Registry.makeRequest. rewrite Hkey, Hname.
    split; [done |].
    destruct (Registry.fetch net _) as [resp|e]; try done.
    destruct (negb (Registry.resp_ok resp)); try done.
    by destruct (Registry.resp_json resp).
  - intros name Hname. unfold Registry.get_mcp_server_details, Registry.getServerDetails,
      Registry.encodeURIComponent. by rewrite Hkey, Hname.
Qed.

Lemma registry_requests_witness :
  (Registry.search_mcp_servers Registry.net_down (Some "k") (Some "") None).2 =
    [Registry.Request "https://smithery.ai/api/servers?limit=10"
       [("Authorization", "Bearer k"); ("Content-Type", "application/json")]] /\
  (Registry.get_mcp_server_details Registry.net_down (Some "k") "owner/repo").2 =
    [Registry.Request "https://smithery.ai/api/servers/owner%2Frepo?"
       [("Authorization", "Bearer k"); ("Content-Type", "application/json")]] /\
  Registry.get_mcp_server_details Registry.net_down (Some "k") Registry.lone_surrogate =
    ("Failed to get server details: URI malformed", []).
Proof.
  destruct (registry_requests_are_authenticated Registry.net_down (Some "k") "k" eq_refl)
    as (Hsearch & Hdetails & Hbad).
  split; [| split].
  - rewrite (Hsearch (Some "") None). reflexivity.
  - destruct (Hdetails "owner/repo" eq_refl) as [_ ->]. reflexivity.
  - apply Hbad. reflexivity.
Defined.

(** X16.  A reply that is not [ok] is reported with its status and the
    body is not used: [search_mcp_servers] answers "Failed to search MCP
    servers: Smithery API error:" followed by the status code and status
    text, whatever [response.json()] would have given; so does
    [get_mcp_server_details], with its own prefix, for a name that was
    sent. *)
Theorem registry_http_error_is_reported
        (net : Registry.Net) (apiKey : option string) (key : string)
        (query : option string) (limit : option Z) (resp : Registry.response) :
  Str.truthy apiKey = Some key ->
  (forall req, Registry.fetch net req = Ok resp) ->
  Registry.resp_ok resp = false ->
  (Registry.search_mcp_servers net apiKey query limit).1 =
    "Failed to search MCP servers: Smithery API error: "
    +:+ Str.of_Z (Registry.resp_status resp) +:+ " " +:+ Registry.resp_statusText resp /\
  (forall name encoded,
      Registry.encodeURIComponent name = Ok encoded ->
      (Registry.get_mcp_server_details net apiKey name).1 =
        "Failed to get server details: Smithery API error: "
        +:+ Str.of_Z (Registry.resp_status resp) +:+ " " +:+ Registry.resp_statusText resp).
Proof.
  intros Hkey Hfetch Hok. split.
  - unfold Registry.search_mcp_servers, Registry.searchServers, Registry.makeRequest.
    rewrite Hkey, Hfetch, Hok. reflexivity.
  - intros name encoded Henc.
    unfold Registry.get_mcp_server_details, Registry.getServerDetails,
      Registry.makeRequest. rewrite Hkey, Henc, Hfetch, Hok. reflexivity.
Qed.

Lemma registry_http_error_witness :
  (Registry.search_mcp_servers Registry.net_down (Some "k") None None).1 =
  "Failed to search MCP servers: Smithery API error: 503 Service Unavailable".
Proof.
  pose proof (registry_http_error_is_reported Registry.net_down (Some "k") "k" None None
                (Registry.Response false 503 "Service Unavailable" (Throw "no body"))
                eq_refl (fun _ => eq_refl) eq_refl) as (H & _).
  exact H.
Defined.

(** X17.  [createConnectionUrl] puts the server name in one path segment.
    For a name that can be encoded and no configuration it never fails:
    the URL is [wss://smithery.ai/ws/] followed by characters that are
    unreserved or percent signs, so a slash (as in owner/repository), a
    question mark, a hash or an ampersand of the name never appears as
    such; with a configuration the same URL is followed by [?config=] and
    the encoded configuration, or the call fails with the error of the
    encoder.  A name that holds an unpaired surrogate is refused, with or
    without a configuration: the call throws "URI malformed", which the
    tool reports. *)
Theorem connection_url_name_is_one_segment
        (net : Registry.Net) (serverName : string) :
  (Registry.has_lone_surrogate (Str.chars serverName) = false ->
   exists segment,
     Registry.createConnectionUrl net serverName None
       = Ok ("wss://smithery.ai/ws/" +:+ segment) /\
     Forall (fun c => Registry.unreserved c = true \/ c = "%"%char) (Str.chars segment) /\
     Forall (fun c => ~ In c (Str.chars "/?#&= ")) (Str.chars segment) /\
     (forall config,
         Registry.createConnectionUrl net serverName (Some config) =
         match Registry.btoa_json net config with
         | Ok encoded => Ok ("wss://smithery.ai/ws/" +:+ segment +:+ "?config=" +:+ encoded)
         | Throw e => Throw e
         end)) /\
  (Registry.has_lone_surrogate (Str.chars serverName) = true ->
   forall config,
     Registry.createConnectionUrl net serverName config = Throw "URI malformed" /\
     Registry.create_mcp_connection_url net serverName config =
       "Failed to create connection URL: URI malformed").
Proof.
  split.
  - intros Hname. exists (Str.of_chars (Registry.encodeURIComponent_chars (Str.chars serverName))).
    assert (Forall (fun c => Registry.unreserved c = true \/ c = "%"%char)
              (Str.chars (Str.of_chars
                 (Registry.encodeURIComponent_chars (Str.chars serverName))))) as Hsafe.
    { rewrite StrFacts.chars_of_chars.
      apply RegistryFacts.encodeURIComponent_chars_safe. }
    unfold Registry.createConnectionUrl, Registry.encodeURIComponent. rewrite Hname.
    split; [done |]. split; [exact Hsafe |]. split.
    + eapply Forall_impl; [exact Hsafe |]. intros c Hc Hin. simpl in Hin.
      destruct Hc as [Hu | ->].
      * repeat (destruct Hin as [<- | Hin]; [discriminate |]). done.
      * repeat (destruct Hin as [Hin | Hin]; [discriminate |]). done.
    + intros config. destruct (Registry.btoa_json net config); reflexivity.
  - intros Hname config.
    unfold Registry.create_mcp_connection_url, Registry.createConnectionUrl,
      Registry.encodeURIComponent. by rewrite Hname.
Qed.

Lemma connection_url_witness :
  (exists segment,
      Registry.createConnectionUrl Registry.net_down "owner/repo" None
        = Ok ("wss://smithery.ai/ws/" +:+ segment) /\
      Forall (fun c => ~ In c (Str.chars "/?#&= ")) (Str.chars segment)) /\
  Registry.createConnectionUrl Registry.net_down "owner/repo" None
    = Ok "wss://smithery.ai/ws/owner%2Frepo" /\
  Registry.create_mcp_connection_url Registry.net_down Registry.lone_surrogate None =
    "Failed to create connection URL: URI malformed".
Proof.
  split; [| split; [reflexivity |]].
  - destruct (connection_url_name_is_one_segment Registry.net_down "owner/repo")
      as [Hok _].
    destruct (Hok eq_refl) as (segment & Hurl & _ & Hno & _). by exists segment.
  - destruct (connection_url_name_is_one_segment Registry.net_down Registry.lone_surrogate)
      as [_ Hbad].
    by destruct (Hbad eq_refl None) as [_ ->].
Defined.

(** X18.  Different server names give different connection URLs: the
    percent-encoding loses nothing, so the name can be read back from the
    URL. *)
Theorem connection_url_is_injective
        (net : Registry.Net) (name1 name2 url1 url2 : string) :
  name1 <> name2 ->
  Registry.createConnectionUrl net name1 None = Ok url1 ->
  Registry.createConnectionUrl net name2 None = Ok url2 ->
  url1 <> url2.
Proof.
  unfold Registry.createConnectionUrl. intros Hne H1 H2 Heq. apply Hne.
  destruct (Registry.encodeURIComponent name1) as [e1|] eqn:E1; [| discriminate].
  destruct (Registry.encodeURIComponent name2) as [e2|] eqn:E2; [| discriminate].
  injection H1 as H1. injection H2 as H2. rewrite <- H1, <- H2 in Heq.
  apply (inj (String.append _)) in Heq. subst e2.
  by apply (RegistryFacts.encodeURIComponent_inj _ _ e1).
Qed.

Lemma connection_url_is_injective_witness :
  Registry.createConnectionUrl Registry.net_down "a/b" None
    = Ok "wss://smithery.ai/ws/a%2Fb" /\
  Registry.createConnectionUrl Registry.net_down "a%2Fb" None
    = Ok "wss://smithery.ai/ws/a%252Fb" /\
  "wss://smithery.ai/ws/a%2Fb" <> "wss://smithery.ai/ws/a%252Fb".
Proof.
  split; [reflexivity |]. split; [reflexivity |].
  apply (connection_url_is_injective Registry.net_down "a/b" "a%2Fb");
    [discriminate | reflexivity | reflexivity].
Defined.

(* ===================================================================== *)
(** * The scaffold command *)
(* ===================================================================== *)

(** X19.  [detectPackageManager] always answers one of yarn, pnpm, bun and
    npm.  It answers npm when the user agent is unset or empty, and an
    answer other than npm means that the user agent starts with that
    name. *)
Theorem detectPackageManager_answers (userAgent : option string) :
  In (detectPackageManager userAgent) ["yarn"; "pnpm"; "bun"; "npm"] /\
  (Str.truthy userAgent = None -> detectPackageManager userAgent = "npm") /\
  (detectPackageManager userAgent <> "npm" ->
   exists ua, userAgent = Some ua /\
              String.prefix (detectPackageManager userAgent) ua = true).
Proof.
  unfold detectPackageManager, Str.truthy.
  assert (forall (o : option string),
             In "npm" ["yarn"; "pnpm"; "bun"; "npm"] /\
             (o = None -> "npm" = "npm") /\
             ("npm" <> "npm" -> exists ua, userAgent = Some ua /\ String.prefix "npm" ua = true))
    as Hnpm.
  { intros o. split; [simpl; auto 6 |]. split; [done |]. intros H. by destruct H. }
  destruct userAgent as [ua|]; [| apply Hnpm].
  destruct (String.eqb ua ""); [apply Hnpm |].
  destruct (String.prefix "yarn" ua) eqn:E1.
  { split; [simpl; auto 6 |]. split; [discriminate |]. intros _. by exists ua. }
  destruct (String.prefix "pnpm" ua) eqn:E2.
  { split; [simpl; auto 6 |]. split; [discriminate |]. intros _. by exists ua. }
  destruct (String.prefix "bun" ua) eqn:E3.
  { split; [simpl; auto 6 |]. split; [discriminate |]. intros _. by exists ua. }
  destruct (String.prefix "npm" ua) eqn:E4.
  - split; [simpl; auto 6 |]. split; [discriminate |]. intros _. by exists ua.
  - split; [simpl; auto 6 |]. split; [discriminate |]. intros H. by destruct H.
Qed.

Lemma detectPackageManager_witness :
  detectPackageManager (Some "pnpm/9.1.0 npm/? node/v20.11.0 linux x64") = "pnpm".
Proof.
  destruct (detectPackageManager_answers (Some "pnpm/9.1.0 npm/? node/v20.11.0 linux x64"))
    as (_ & _ & H).
  destruct H as (ua & Hua & Hp); [vm_compute; discriminate |].
  reflexivity.
Defined.

(* ===================================================================== *)
(** * Missing inputs and empty arguments *)
(* ===================================================================== *)

(** X20.  A path that names nothing is reported by the first call made on
    it: [readDocument], [convertDocument] (for every format and output
    path) and [get_document_info] fail with the error of [stat], which is
    the only call made, so no output directory is created for an input that
    does not exist. *)
Theorem missing_input_fails_at_stat
        (ext : Externals) (cfg : config) (p : string) (w : world) :
  (forall n, Fs.resolve (fs w) p <> Fs.Found n) ->
  exists message,
    let w1 := World (fs w) (trace w ++ [EvStat p]) in
    readDocument ext cfg p w = (Throw message, w1) /\
    (forall fmt o, convertDocument ext cfg p fmt o w = (Throw message, w1)) /\
    get_document_info ext cfg p w = (Ok ("Failed to get document info: " +:+ message), w1).
Proof.
  intros Hno.
  assert (exists message,
             Fs.stat p w = (Throw message, World (fs w) (trace w ++ [EvStat p])))
    as (message & Hst).
  { rewrite FsFacts.stat_run.
    destruct (Fs.resolve (fs w) p) as [n| |] eqn:E; [by destruct (Hno n) | |]; by eexists. }
  exists message. simpl.
  assert (readDocument ext cfg p w = (Throw message, World (fs w) (trace w ++ [EvStat p])))
    as Hread by (unfold readDocument; by rewrite (bind_throw _ _ _ _ _ Hst)).
  split; [exact Hread |]. split.
  - intros fmt o. unfold convertDocument. by rewrite (bind_throw _ _ _ _ _ Hread).
  - unfold get_document_info, try_catch. by rewrite (bind_throw _ _ _ _ _ Hread).
Qed.

Lemma missing_input_witness :
  convertDocument Demo.ext default_config "in/absent.md" "html" None Demo.w0 =
    (Throw "ENOENT: no such file or directory, stat 'in/absent.md'",
     World Demo.fs0 [EvStat "in/absent.md"]).
Proof.
  destruct (missing_input_fails_at_stat Demo.ext default_config "in/absent.md" Demo.w0)
    as (message & Hread & Hconv & _).
  - intros n H. vm_compute in H. discriminate.
  - rewrite (Hconv "html" None). apply (f_equal fst) in Hread. vm_compute in Hread.
    inversion Hread; subst. reflexivity.
Defined.

(** X21.  An empty string passed for an optional argument is the same as
    no argument: an empty output path sends the conversion to the default
    destination in the output directory, and an empty file pattern filters
    nothing. *)
Theorem empty_optional_arguments_are_absent
        (ext : Externals) (cfg : config) (inputPath outputFormat input_directory : string)
        (w : world) :
  convertDocument ext cfg inputPath outputFormat (Some "") w =
  convertDocument ext cfg inputPath outputFormat None w /\
  convert_document ext cfg inputPath outputFormat (Some "") w =
  convert_document ext cfg inputPath outputFormat None w /\
  batch_convert ext cfg input_directory outputFormat (Some "") w =
  batch_convert ext cfg input_directory outputFormat None w.
Proof. repeat split; reflexivity. Qed.
